(** * MTGplaytester: the card rules engine of [card.py] and [play.py]

    A shallow embedding of the card entity ([card.py], class [Card]) and
    of the zone machine of [play.py], followed by the properties of the
    engine that the specification states.

    Layout:
    - [Py]    the Python string and list primitives the two files use;
    - [Card]  class [Card]: fields, accessors, mutators, zone moves and
              the keyword pass of [__parseText];
    - [Play]  the module-level state of [play.py] (zone lists, flags,
              the commander reference) with its operations, written in a
              state-and-exception monad so that a mutation made before a
              [raise] stays visible, as in Python;
    - the theorems. *)

From Stdlib Require Import ZArith String Ascii List Lia Bool.
From stdpp Require Import base list strings.

Set Warnings "-register-all".

#[local] Open Scope string_scope.
#[local] Open Scope list_scope.

(* ===================================================================== *)
(** ** Python primitives *)
(* ===================================================================== *)

Module Py.

(** Exceptions the modelled code can raise. [ZoneError],
    [CardNotFoundError] and [CommandError] are the classes declared at
    the end of [card.py]; [ValueError], [IndexError] and
    [AttributeError] are Python built-ins. [Unallocated] is not a
    Python exception: it marks a reference that points outside the
    object store, which no zone list of a well-formed game holds. *)
Inductive exn : Type :=
| ZoneError (msg : string)
| CardNotFoundError (msg : string)
| CommandError
| ValueError
| IndexError
| AttributeError
| Unallocated.

Inductive result (A : Type) : Type :=
| Ok (a : A)
| Raise (e : exn).
Arguments Ok {A} a.
Arguments Raise {A} e.

Definition rbind {A B : Type} (m : result A) (k : A -> result B) : result B :=
  match m with
  | Ok a => k a
  | Raise e => Raise e
  end.

(** [needle in hay] on strings: substring test. *)
Fixpoint contains (needle hay : string) : bool :=
  String.prefix needle hay ||
  match hay with
  | EmptyString => false
  | String _ rest => contains needle rest
  end.

Definition startswith (p s : string) : bool := String.prefix p s.

Fixpoint endswith (p s : string) : bool :=
  String.eqb p s ||
  match s with
  | EmptyString => false
  | String _ rest => endswith p rest
  end.

(** Characters removed by [str.rstrip()] without argument. *)
Definition is_space (c : ascii) : bool :=
  let n := N_of_ascii c in
  (N.eqb n 32 || (N.leb 9 n && N.leb n 13))%N.

Fixpoint rstrip (s : string) : string :=
  match s with
  | EmptyString => EmptyString
  | String c rest =>
      match rstrip rest with
      | EmptyString => if is_space c then EmptyString else String c EmptyString
      | rest' => String c rest'
      end
  end.

Definition lower_char (c : ascii) : ascii :=
  let n := N_of_ascii c in
  if (N.leb 65 n && N.leb n 90)%N then ascii_of_N (n + 32) else c.

Definition upper_char (c : ascii) : ascii :=
  let n := N_of_ascii c in
  if (N.leb 97 n && N.leb n 122)%N then ascii_of_N (n - 32) else c.

Fixpoint lower (s : string) : string :=
  match s with
  | EmptyString => EmptyString
  | String c rest => String (lower_char c) (lower rest)
  end.

(** [str.capitalize()]: first character upper case, the rest lower. *)
Definition capitalize (s : string) : string :=
  match s with
  | EmptyString => EmptyString
  | String c rest => String (upper_char c) (lower rest)
  end.

(** [s.split(sep)] for a one-character separator. *)
Fixpoint split (sep : ascii) (s : string) : list string :=
  match s with
  | EmptyString => [EmptyString]
  | String c rest =>
      if Ascii.eqb c sep then EmptyString :: split sep rest
      else match split sep rest with
           | w :: ws => String c w :: ws
           | [] => [String c EmptyString]
           end
  end.

(** [sep.join(l)]. *)
Definition join (sep : string) (l : list string) : string := String.concat sep l.

(** [text.replace(a, b)] for one-character [a] and [b]. *)
Fixpoint replace_char (a b : ascii) (s : string) : string :=
  match s with
  | EmptyString => EmptyString
  | String c rest => String (if Ascii.eqb c a then b else c) (replace_char a b rest)
  end.

(** [s[1:]] and [s[:-1]]. *)
Definition drop_first (s : string) : string :=
  match s with
  | EmptyString => EmptyString
  | String _ rest => rest
  end.

Fixpoint drop_last (s : string) : string :=
  match s with
  | EmptyString => EmptyString
  | String c EmptyString => EmptyString
  | String c rest => String c (drop_last rest)
  end.

(** [x in l] for a tuple or list of strings. *)
Definition str_in (x : string) (l : list string) : bool :=
  existsb (String.eqb x) l.

(** Greedy prefix of [s] made of characters satisfying [p], with the
    remainder. *)
Fixpoint span (p : ascii -> bool) (s : string) : string * string :=
  match s with
  | EmptyString => (EmptyString, EmptyString)
  | String c rest =>
      if p c then let '(a, b) := span p rest in (String c a, b)
      else (EmptyString, s)
  end.

Definition is_digit (c : ascii) : bool :=
  let n := N_of_ascii c in (N.leb 48 n && N.leb n 57)%N.

Fixpoint digits_value (acc : Z) (s : string) : Z :=
  match s with
  | EmptyString => acc
  | String c rest => digits_value (10 * acc + Z.of_N (N_of_ascii c) - 48)%Z rest
  end.

Fixpoint lstrip (s : string) : string :=
  match s with
  | EmptyString => EmptyString
  | String c rest => if is_space c then lstrip rest else s
  end.

(** [int(s)] on a string: surrounding white space, an optional sign,
    then one or more decimal digits; anything else is a [ValueError]. *)
Definition int (s : string) : result Z :=
  let body := rstrip (lstrip s) in
  let '(sign, ds) :=
    match body with
    | String "-" rest => ((-1)%Z, rest)
    | String "+" rest => (1%Z, rest)
    | _ => (1%Z, body)
    end in
  match span is_digit ds with
  | (String c d, EmptyString) => Ok (sign * digits_value 0 (String c d))%Z
  | _ => Raise ValueError
  end.

(** Lists of object references. [l.remove(x)] deletes the first
    occurrence and raises [ValueError] when there is none. *)
Fixpoint list_remove (x : nat) (l : list nat) : option (list nat) :=
  match l with
  | [] => None
  | y :: rest =>
      if Nat.eqb x y then Some rest
      else match list_remove x rest with
           | Some rest' => Some (y :: rest')
           | None => None
           end
  end.

Definition ref_in (x : nat) (l : list nat) : bool := existsb (Nat.eqb x) l.

End Py.

(* ===================================================================== *)
(** ** [card.py]: class [Card] *)
(* ===================================================================== *)

Module Card.
Import Py.

(** Zone names ([Card.BATTLEFIELD] ... [Card.COMMAND]). The zone tag of
    a card only ever holds one of these eight constants. *)
Inductive Zone : Type :=
| BATTLEFIELD | HAND | LIBRARY | GRAVEYARD | EXILE | TOP | BOTTOM | COMMAND.

#[global] Instance Zone_eq_dec : EqDecision Zone.
Proof. solve_decision. Defined.

Definition zone_name (z : Zone) : string :=
  match z with
  | BATTLEFIELD => "Battlefield"
  | HAND => "Hand"
  | LIBRARY => "Library"
  | GRAVEYARD => "Graveyard"
  | EXILE => "Exile"
  | TOP => "Top"
  | BOTTOM => "Bottom"
  | COMMAND => "Command"
  end.

Definition ZONES : list Zone :=
  [BATTLEFIELD; COMMAND; EXILE; GRAVEYARD; HAND; LIBRARY; TOP; BOTTOM].

(** Type names. *)
Definition ARTIFACT := "Artifact".
Definition CREATURE := "Creature".
Definition ENCHANTMENT := "Enchantment".
Definition EMBLEM := "Emblem".
Definition INSTANT := "Instant".
Definition LAND := "Land".
Definition PLANESWALKER := "Planeswalker".
Definition SORCERY := "Sorcery".
Definition TOKEN := "Token".

Definition TYPES : list string :=
  [CREATURE; PLANESWALKER; ENCHANTMENT; ARTIFACT; LAND; INSTANT; SORCERY; TOKEN; EMBLEM].

(** Supertypes. *)
Definition BASIC := "Basic".
Definition SNOW := "Snow".
Definition LEGENDARY := "Legendary".

Definition SUPERTYPES : list string := [LEGENDARY; SNOW; BASIC].

(** Keywords. *)
Definition FIRSTSTRIKE := "First strike".
Definition DOUBLESTRIKE := "Double strike".
Definition LIFELINK := "Lifelink".
Definition VIGILANCE := "Vigilance".
Definition FLYING := "Flying".
Definition DEATHTOUCH := "Deathtouch".
Definition HASTE := "Haste".
Definition TRAMPLE := "Trample".
Definition HEXPROOF := "Hexproof".
Definition SHROUD := "Shroud".
Definition PERSIST := "Persist".
Definition UNDYING := "Undying".
Definition FLASH := "Flash".
Definition FORESTWALK := "Forestwalk".
Definition ISLANDWALK := "Islandwalk".
Definition MOUNTAINWALK := "Mountainwalk".
Definition PLAINSWALK := "Plainswalk".
Definition SWAMPWALK := "Swampwalk".
Definition WITHER := "Wither".
Definition INFECT := "Infect".
Definition MORPH := "Morph".
Definition MEGAMORPH := "Megamorph".
Definition INDESTRUCTIBLE := "Indestructible".
Definition SKULK := "Skulk".
Definition DEFENDER := "Defender".
Definition MENACE := "Menace".
Definition PROWESS := "Prowess".
Definition REACH := "Reach".
Definition CHANGELING := "Changeling".
Definition SHADOW := "Shadow".

Definition KEYWORDS : list string :=
  [CHANGELING; DEATHTOUCH; DEFENDER; DOUBLESTRIKE; FIRSTSTRIKE; FLASH; FLYING;
   FORESTWALK; HASTE; HEXPROOF; INDESTRUCTIBLE; INFECT; ISLANDWALK; LIFELINK;
   MEGAMORPH; MENACE; MORPH; MOUNTAINWALK; PERSIST; PLAINSWALK; PROWESS; REACH;
   SKULK; SHADOW; SHROUD; SWAMPWALK; TRAMPLE; UNDYING; VIGILANCE; WITHER].

(** What the attribute [__backSide] holds: [None], the name of the other
    half as read from the decklist (before linking), or the linked card
    object. The linked card is owned by its front face alone: it is in
    no zone list and nothing else refers to it, so it is kept by value. *)
Inductive back (A : Type) : Type :=
| NoBack
| BackName (s : string)
| BackCard (c : A).
Arguments NoBack {A}.
Arguments BackName {A} s.
Arguments BackCard {A} c.

(** The instance attributes, in the order [__init__] creates them.
    [__power] and [__toughness] exist only on cards whose type line
    contained "Creature" at construction, hence the [option]. *)
Inductive t : Type := mk {
  __name : string;
  __cost : string;
  __color : string;
  __type : string;
  __subtype : string;
  __powerMod : Z;
  __toughnessMod : Z;
  __countersMod : Z;
  __counters : Z;
  __plusone : Z;
  __summoningSickness : bool;
  __power : option Z;
  __toughness : option Z;
  __hasAnthem : bool;
  __anthemPower : Z;
  __anthemToughness : Z;
  __anthemType : list string;
  __anthemKeywords : list string;
  __anthemPowerBonus : Z;
  __anthemToughnessBonus : Z;
  __anthemKeywordMod : list string;
  __text : string;
  __commander : bool;
  __flip : bool;
  __split : bool;
  __linked : bool;
  __zone : Zone;
  __tapped : bool;
  __transformed : bool;
  __backSide : back t;
  __keywords : list string;
  __keywordMods : list string;
  __facedown : bool;
  __morph : bool
}.

Definition set_name (v : string) (c : t) : t :=
  match c with
  | mk _ x1 x2 x3 x4 x5 x6 x7 x8 x9 x10 x11 x12 x13 x14 x15 x16 x17 x18 x19 x20 x21 x22 x23 x24 x25 x26 x27 x28 x29 x30 x31 x32 x33 =>
    mk v x1 x2 x3 x4 x5 x6 x7 x8 x9 x10 x11 x12 x13 x14 x15 x16 x17 x18 x19 x20 x21 x22 x23 x24 x25 x26 x27 x28 x29 x30 x31 x32 x33
  end.

Definition set_type (v : string) (c : t) : t :=
  match c with
  | mk x0 x1 x2 _ x4 x5 x6 x7 x8 x9 x10 x11 x12 x13 x14 x15 x16 x17 x18 x19 x20 x21 x22 x23 x24 x25 x26 x27 x28 x29 x30 x31 x32 x33 =>
    mk x0 x1 x2 v x4 x5 x6 x7 x8 x9 x10 x11 x12 x13 x14 x15 x16 x17 x18 x19 x20 x21 x22 x23 x24 x25 x26 x27 x28 x29 x30 x31 x32 x33
  end.

Definition set_powerMod (v : Z) (c : t) : t :=
  match c with
  | mk x0 x1 x2 x3 x4 _ x6 x7 x8 x9 x10 x11 x12 x13 x14 x15 x16 x17 x18 x19 x20 x21 x22 x23 x24 x25 x26 x27 x28 x29 x30 x31 x32 x33 =>
    mk x0 x1 x2 x3 x4 v x6 x7 x8 x9 x10 x11 x12 x13 x14 x15 x16 x17 x18 x19 x20 x21 x22 x23 x24 x25 x26 x27 x28 x29 x30 x31 x32 x33
  end.

Definition set_toughnessMod (v : Z) (c : t) : t :=
  match c with
  | mk x0 x1 x2 x3 x4 x5 _ x7 x8 x9 x10 x11 x12 x13 x14 x15 x16 x17 x18 x19 x20 x21 x22 x23 x24 x25 x26 x27 x28 x29 x30 x31 x32 x33 =>
    mk x0 x1 x2 x3 x4 x5 v x7 x8 x9 x10 x11 x12 x13 x14 x15 x16 x17 x18 x19 x20 x21 x22 x23 x24 x25 x26 x27 x28 x29 x30 x31 x32 x33
  end.

Definition set_countersMod (v : Z) (c : t) : t :=
  match c with
  | mk x0 x1 x2 x3 x4 x5 x6 _ x8 x9 x10 x11 x12 x13 x14 x15 x16 x17 x18 x19 x20 x21 x22 x23 x24 x25 x26 x27 x28 x29 x30 x31 x32 x33 =>
    mk x0 x1 x2 x3 x4 x5 x6 v x8 x9 x10 x11 x12 x13 x14 x15 x16 x17 x18 x19 x20 x21 x22 x23 x24 x25 x26 x27 x28 x29 x30 x31 x32 x33
  end.

Definition set_plusone (v : Z) (c : t) : t :=
  match c with
  | mk x0 x1 x2 x3 x4 x5 x6 x7 x8 _ x10 x11 x12 x13 x14 x15 x16 x17 x18 x19 x20 x21 x22 x23 x24 x25 x26 x27 x28 x29 x30 x31 x32 x33 =>
    mk x0 x1 x2 x3 x4 x5 x6 x7 x8 v x10 x11 x12 x13 x14 x15 x16 x17 x18 x19 x20 x21 x22 x23 x24 x25 x26 x27 x28 x29 x30 x31 x32 x33
  end.

Definition set_summoningSickness (v : bool) (c : t) : t :=
  match c with
  | mk x0 x1 x2 x3 x4 x5 x6 x7 x8 x9 _ x11 x12 x13 x14 x15 x16 x17 x18 x19 x20 x21 x22 x23 x24 x25 x26 x27 x28 x29 x30 x31 x32 x33 =>
    mk x0 x1 x2 x3 x4 x5 x6 x7 x8 x9 v x11 x12 x13 x14 x15 x16 x17 x18 x19 x20 x21 x22 x23 x24 x25 x26 x27 x28 x29 x30 x31 x32 x33
  end.

Definition set_anthemPowerBonus (v : Z) (c : t) : t :=
  match c with
  | mk x0 x1 x2 x3 x4 x5 x6 x7 x8 x9 x10 x11 x12 x13 x14 x15 x16 x17 _ x19 x20 x21 x22 x23 x24 x25 x26 x27 x28 x29 x30 x31 x32 x33 =>
    mk x0 x1 x2 x3 x4 x5 x6 x7 x8 x9 x10 x11 x12 x13 x14 x15 x16 x17 v x19 x20 x21 x22 x23 x24 x25 x26 x27 x28 x29 x30 x31 x32 x33
  end.

Definition set_anthemToughnessBonus (v : Z) (c : t) : t :=
  match c with
  | mk x0 x1 x2 x3 x4 x5 x6 x7 x8 x9 x10 x11 x12 x13 x14 x15 x16 x17 x18 _ x20 x21 x22 x23 x24 x25 x26 x27 x28 x29 x30 x31 x32 x33 =>
    mk x0 x1 x2 x3 x4 x5 x6 x7 x8 x9 x10 x11 x12 x13 x14 x15 x16 x17 x18 v x20 x21 x22 x23 x24 x25 x26 x27 x28 x29 x30 x31 x32 x33
  end.

Definition set_anthemKeywordMod (v : list string) (c : t) : t :=
  match c with
  | mk x0 x1 x2 x3 x4 x5 x6 x7 x8 x9 x10 x11 x12 x13 x14 x15 x16 x17 x18 x19 _ x21 x22 x23 x24 x25 x26 x27 x28 x29 x30 x31 x32 x33 =>
    mk x0 x1 x2 x3 x4 x5 x6 x7 x8 x9 x10 x11 x12 x13 x14 x15 x16 x17 x18 x19 v x21 x22 x23 x24 x25 x26 x27 x28 x29 x30 x31 x32 x33
  end.

Definition set_commander (v : bool) (c : t) : t :=
  match c with
  | mk x0 x1 x2 x3 x4 x5 x6 x7 x8 x9 x10 x11 x12 x13 x14 x15 x16 x17 x18 x19 x20 x21 _ x23 x24 x25 x26 x27 x28 x29 x30 x31 x32 x33 =>
    mk x0 x1 x2 x3 x4 x5 x6 x7 x8 x9 x10 x11 x12 x13 x14 x15 x16 x17 x18 x19 x20 x21 v x23 x24 x25 x26 x27 x28 x29 x30 x31 x32 x33
  end.

Definition set_flip (v : bool) (c : t) : t :=
  match c with
  | mk x0 x1 x2 x3 x4 x5 x6 x7 x8 x9 x10 x11 x12 x13 x14 x15 x16 x17 x18 x19 x20 x21 x22 _ x24 x25 x26 x27 x28 x29 x30 x31 x32 x33 =>
    mk x0 x1 x2 x3 x4 x5 x6 x7 x8 x9 x10 x11 x12 x13 x14 x15 x16 x17 x18 x19 x20 x21 x22 v x24 x25 x26 x27 x28 x29 x30 x31 x32 x33
  end.

Definition set_split (v : bool) (c : t) : t :=
  match c with
  | mk x0 x1 x2 x3 x4 x5 x6 x7 x8 x9 x10 x11 x12 x13 x14 x15 x16 x17 x18 x19 x20 x21 x22 x23 _ x25 x26 x27 x28 x29 x30 x31 x32 x33 =>
    mk x0 x1 x2 x3 x4 x5 x6 x7 x8 x9 x10 x11 x12 x13 x14 x15 x16 x17 x18 x19 x20 x21 x22 x23 v x25 x26 x27 x28 x29 x30 x31 x32 x33
  end.

Definition set_linked (v : bool) (c : t) : t :=
  match c with
  | mk x0 x1 x2 x3 x4 x5 x6 x7 x8 x9 x10 x11 x12 x13 x14 x15 x16 x17 x18 x19 x20 x21 x22 x23 x24 _ x26 x27 x28 x29 x30 x31 x32 x33 =>
    mk x0 x1 x2 x3 x4 x5 x6 x7 x8 x9 x10 x11 x12 x13 x14 x15 x16 x17 x18 x19 x20 x21 x22 x23 x24 v x26 x27 x28 x29 x30 x31 x32 x33
  end.

Definition set_zone (v : Zone) (c : t) : t :=
  match c with
  | mk x0 x1 x2 x3 x4 x5 x6 x7 x8 x9 x10 x11 x12 x13 x14 x15 x16 x17 x18 x19 x20 x21 x22 x23 x24 x25 _ x27 x28 x29 x30 x31 x32 x33 =>
    mk x0 x1 x2 x3 x4 x5 x6 x7 x8 x9 x10 x11 x12 x13 x14 x15 x16 x17 x18 x19 x20 x21 x22 x23 x24 x25 v x27 x28 x29 x30 x31 x32 x33
  end.

Definition set_tapped (v : bool) (c : t) : t :=
  match c with
  | mk x0 x1 x2 x3 x4 x5 x6 x7 x8 x9 x10 x11 x12 x13 x14 x15 x16 x17 x18 x19 x20 x21 x22 x23 x24 x25 x26 _ x28 x29 x30 x31 x32 x33 =>
    mk x0 x1 x2 x3 x4 x5 x6 x7 x8 x9 x10 x11 x12 x13 x14 x15 x16 x17 x18 x19 x20 x21 x22 x23 x24 x25 x26 v x28 x29 x30 x31 x32 x33
  end.

Definition set_transformed (v : bool) (c : t) : t :=
  match c with
  | mk x0 x1 x2 x3 x4 x5 x6 x7 x8 x9 x10 x11 x12 x13 x14 x15 x16 x17 x18 x19 x20 x21 x22 x23 x24 x25 x26 x27 _ x29 x30 x31 x32 x33 =>
    mk x0 x1 x2 x3 x4 x5 x6 x7 x8 x9 x10 x11 x12 x13 x14 x15 x16 x17 x18 x19 x20 x21 x22 x23 x24 x25 x26 x27 v x29 x30 x31 x32 x33
  end.

Definition set_backSide (v : back t) (c : t) : t :=
  match c with
  | mk x0 x1 x2 x3 x4 x5 x6 x7 x8 x9 x10 x11 x12 x13 x14 x15 x16 x17 x18 x19 x20 x21 x22 x23 x24 x25 x26 x27 x28 _ x30 x31 x32 x33 =>
    mk x0 x1 x2 x3 x4 x5 x6 x7 x8 x9 x10 x11 x12 x13 x14 x15 x16 x17 x18 x19 x20 x21 x22 x23 x24 x25 x26 x27 x28 v x30 x31 x32 x33
  end.

Definition set_keywords (v : list string) (c : t) : t :=
  match c with
  | mk x0 x1 x2 x3 x4 x5 x6 x7 x8 x9 x10 x11 x12 x13 x14 x15 x16 x17 x18 x19 x20 x21 x22 x23 x24 x25 x26 x27 x28 x29 _ x31 x32 x33 =>
    mk x0 x1 x2 x3 x4 x5 x6 x7 x8 x9 x10 x11 x12 x13 x14 x15 x16 x17 x18 x19 x20 x21 x22 x23 x24 x25 x26 x27 x28 x29 v x31 x32 x33
  end.

Definition set_keywordMods (v : list string) (c : t) : t :=
  match c with
  | mk x0 x1 x2 x3 x4 x5 x6 x7 x8 x9 x10 x11 x12 x13 x14 x15 x16 x17 x18 x19 x20 x21 x22 x23 x24 x25 x26 x27 x28 x29 x30 _ x32 x33 =>
    mk x0 x1 x2 x3 x4 x5 x6 x7 x8 x9 x10 x11 x12 x13 x14 x15 x16 x17 x18 x19 x20 x21 x22 x23 x24 x25 x26 x27 x28 x29 x30 v x32 x33
  end.

Definition set_facedown (v : bool) (c : t) : t :=
  match c with
  | mk x0 x1 x2 x3 x4 x5 x6 x7 x8 x9 x10 x11 x12 x13 x14 x15 x16 x17 x18 x19 x20 x21 x22 x23 x24 x25 x26 x27 x28 x29 x30 x31 _ x33 =>
    mk x0 x1 x2 x3 x4 x5 x6 x7 x8 x9 x10 x11 x12 x13 x14 x15 x16 x17 x18 x19 x20 x21 x22 x23 x24 x25 x26 x27 x28 x29 x30 x31 v x33
  end.

Definition set_morph (v : bool) (c : t) : t :=
  match c with
  | mk x0 x1 x2 x3 x4 x5 x6 x7 x8 x9 x10 x11 x12 x13 x14 x15 x16 x17 x18 x19 x20 x21 x22 x23 x24 x25 x26 x27 x28 x29 x30 x31 x32 _ =>
    mk x0 x1 x2 x3 x4 x5 x6 x7 x8 x9 x10 x11 x12 x13 x14 x15 x16 x17 x18 x19 x20 x21 x22 x23 x24 x25 x26 x27 x28 x29 x30 x31 x32 v
  end.


(** Reading [self.__backSide.<attr>]: an [AttributeError] unless the
    back side is a linked card. *)
Definition back_attr {A : Type} (f : t -> A) (c : t) : result A :=
  match __backSide c with
  | BackCard b => Ok (f b)
  | _ => Raise AttributeError
  end.

(** Reading an attribute that [__init__] may not have created. *)
Definition attr {A : Type} (o : option A) : result A :=
  match o with
  | Some a => Ok a
  | None => Raise AttributeError
  end.

(** [self.__transformed or self.__facedown] *)
Definition flipped (c : t) : bool := __transformed c || __facedown c.

(* ------------------------------------------------------------------- *)
(** *** Functions to get properties of the card *)

Definition anthem (c : t) : result bool :=
  if flipped c then back_attr __hasAnthem c else Ok (__hasAnthem c).

Definition anthemKeywords (c : t) : result (list string) :=
  rbind (anthem c) (fun a =>
    if a && flipped c then back_attr __anthemKeywords c
    else Ok (__anthemKeywords c)).

Definition anthemPower (c : t) : result (option Z) :=
  rbind (anthem c) (fun a =>
    if a then
      if flipped c then rbind (back_attr __anthemPower c) (fun v => Ok (Some v))
      else Ok (Some (__anthemPower c))
    else Ok None).

Definition anthemToughness (c : t) : result (option Z) :=
  rbind (anthem c) (fun a =>
    if a then
      if flipped c then rbind (back_attr __anthemToughness c) (fun v => Ok (Some v))
      else Ok (Some (__anthemToughness c))
    else Ok None).

Definition anthemType (c : t) : result (option (list string)) :=
  rbind (anthem c) (fun a =>
    if a then
      if flipped c then rbind (back_attr __anthemType c) (fun v => Ok (Some v))
      else Ok (Some (__anthemType c))
    else Ok None).

Definition color (c : t) : result string :=
  if flipped c then back_attr __color c else Ok (__color c).

Definition commander (c : t) : bool := __commander c.

Definition cost (c : t) : string := __cost c.

Definition counters (c : t) : result Z :=
  if flipped c then
    rbind (back_attr __counters c) (fun b =>
      Ok (b + __countersMod c + Z.abs (__plusone c))%Z)
  else Ok (__counters c + __countersMod c + Z.abs (__plusone c))%Z.

Definition facedown (c : t) : bool := __facedown c.

Definition keywords (c : t) : list string :=
  __keywords c ++ __anthemKeywordMod c ++ __keywordMods c.

Definition name (c : t) : result string :=
  if flipped c then back_attr __name c else Ok (__name c).

(** [plusone], [power] and [toughness] fall off the end of the method
    (returning [None]) when the type line has no "Creature". *)
Definition plusone (c : t) : option Z :=
  if contains CREATURE (__type c) then Some (__plusone c) else None.

Definition power (c : t) : result (option Z) :=
  if contains CREATURE (__type c) then
    rbind (if flipped c
           then rbind (back_attr __power c) (fun o =>
                rbind (attr o) (fun b =>
                  Ok (b + __powerMod c + __anthemPowerBonus c + __plusone c)%Z))
           else rbind (attr (__power c)) (fun b =>
                  Ok (b + __powerMod c + __anthemPowerBonus c + __plusone c)%Z))
      (fun val => if (val <? 0)%Z then Ok (Some 0%Z) else Ok (Some val))
  else Ok None.

Definition rulestext (c : t) : result string :=
  if flipped c then back_attr __text c else Ok (__text c).

Definition subtype (c : t) : result string :=
  if flipped c then back_attr __subtype c else Ok (__subtype c).

Definition summonSick (c : t) : bool :=
  if contains CREATURE (__type c) then __summoningSickness c else false.

Definition tapped (c : t) : bool := __tapped c.

Definition toughness (c : t) : result (option Z) :=
  if contains CREATURE (__type c) then
    rbind (if flipped c
           then rbind (back_attr __toughness c) (fun o =>
                rbind (attr o) (fun b =>
                  Ok (b + __toughnessMod c + __anthemToughnessBonus c + __plusone c)%Z))
           else rbind (attr (__toughness c)) (fun b =>
                  Ok (b + __toughnessMod c + __anthemToughnessBonus c + __plusone c)%Z))
      (fun val => if (val <? 0)%Z then Ok (Some 0%Z) else Ok (Some val))
  else Ok None.

Definition type (c : t) : result string :=
  if flipped c then back_attr __type c else Ok (__type c).

Definition zone (c : t) : Zone := __zone c.

(* ------------------------------------------------------------------- *)
(** *** Functions to modify properties of the card *)

Definition anthemPowerBonus (n : Z) (c : t) : t :=
  set_anthemPowerBonus (__anthemPowerBonus c + n)%Z c.

Definition anthemToughnessBonus (n : Z) (c : t) : t :=
  set_anthemToughnessBonus (__anthemToughnessBonus c + n)%Z c.

Definition anthemKeywordMod (kws : list string) (c : t) : t :=
  set_anthemKeywordMod (__anthemKeywordMod c ++ kws) c.

Definition modCounters (n : Z) (c : t) : t :=
  if decide (__zone c = BATTLEFIELD) then
    let c1 := set_countersMod (__countersMod c + n)%Z c in
    if (__counters c1 + __countersMod c1 <? 0)%Z
    then set_countersMod (0 - __counters c1)%Z c1
    else c1
  else c.

(** [linkBackSide]: the last statement of the method is a comparison
    whose value is dropped, so it changes nothing. *)
Definition linkBackSide (card : t) (c : t) : t :=
  let c1 := set_linked true (set_backSide (BackCard card) c) in
  if __split c1
  then set_name (String.append (__name c1) (String.append "/" (__name card))) c1
  else c1.

(** The object built by [Card("Morph", "", "Creature", "", 2, 2, "", None)]:
    a colourless 2/2 creature in the library with no text, no keywords
    (the empty line is not a keyword) and no anthem. *)
Definition morph_card : t :=
  {| __name := "Morph"; __cost := ""; __color := "Colorless";
     __type := "Creature"; __subtype := "";
     __powerMod := 0; __toughnessMod := 0; __countersMod := 0;
     __counters := 0; __plusone := 0; __summoningSickness := true;
     __power := Some 2%Z; __toughness := Some 2%Z;
     __hasAnthem := false; __anthemPower := 0; __anthemToughness := 0;
     __anthemType := []; __anthemKeywords := [];
     __anthemPowerBonus := 0; __anthemToughnessBonus := 0;
     __anthemKeywordMod := [];
     __text := ""; __commander := false; __flip := false; __split := false;
     __linked := false; __zone := LIBRARY; __tapped := false;
     __transformed := false; __backSide := NoBack;
     __keywords := []; __keywordMods := []; __facedown := false;
     __morph := false |}.

Definition __morphToken (c : t) : t := linkBackSide morph_card c.

Definition modKeywords (keyword : string) (c : t) : t :=
  if str_in keyword KEYWORDS && negb (String.eqb keyword MORPH)
     && negb (String.eqb keyword MEGAMORPH)
  then
    if negb (str_in keyword (keywords c)) then
      let c1 := set_keywordMods (__keywordMods c ++ [keyword]) c in
      let c2 := if String.eqb keyword HASTE
                then set_summoningSickness false c1 else c1 in
      if String.eqb keyword MORPH || String.eqb keyword MEGAMORPH
      then __morphToken (set_morph true c2)
      else c2
    else c
  else c.

Definition modPlusOne (n : Z) (c : t) : t :=
  if contains CREATURE (__type c) && bool_decide (__zone c = BATTLEFIELD)
  then set_plusone (__plusone c + n)%Z c
  else c.

Definition modPower (n : Z) (c : t) : t :=
  if contains CREATURE (__type c) && bool_decide (__zone c = BATTLEFIELD)
  then set_powerMod (__powerMod c + n)%Z c
  else c.

Definition modToughness (n : Z) (c : t) : t :=
  if contains CREATURE (__type c) && bool_decide (__zone c = BATTLEFIELD)
  then set_toughnessMod (__toughnessMod c + n)%Z c
  else c.

Definition resetAnthem (c : t) : t :=
  set_anthemKeywordMod []
    (set_anthemToughnessBonus 0%Z (set_anthemPowerBonus 0%Z c)).

Definition setCommander (c : t) : t := set_zone COMMAND (set_commander true c).

(* ------------------------------------------------------------------- *)
(** *** Functions to manipulate the card *)

Definition enter (c : t) : t :=
  let c1 := if contains (String.append (__name c) " enters the battlefield tapped") (__text c)
            then set_tapped true c else c in
  if String.eqb (__type c1) CREATURE && str_in HASTE (__keywords c1)
  then set_summoningSickness false c1
  else c1.

Definition play (c : t) : t :=
  if contains INSTANT (__type c) || contains SORCERY (__type c) then
    if contains (String.append "Exile " (__name c)) (__text c)
    then set_zone EXILE c
    else set_zone GRAVEYARD c
  else if contains ARTIFACT (__type c) || contains CREATURE (__type c)
          || contains ENCHANTMENT (__type c) || contains LAND (__type c)
  then enter (set_zone BATTLEFIELD c)
  else if contains PLANESWALKER (__type c)
  then enter (set_zone BATTLEFIELD c)
  else c.

Definition nextTurn (c : t) : t :=
  if contains CREATURE (__type c) then set_summoningSickness false c else c.

Definition endTurn (c : t) : t :=
  set_keywordMods [] (set_toughnessMod 0%Z (set_powerMod 0%Z c)).

Definition tap (c : t) : t :=
  if decide (__zone c = BATTLEFIELD) then set_tapped true c else c.

Definition untap (c : t) : t := set_tapped false c.

Definition discard (c : t) : t :=
  if decide (__zone c = HAND) then set_zone GRAVEYARD c else c.

(** [draw]: the [else] branch evaluates [Card.Hand], an attribute the
    class does not have, so what is raised is an [AttributeError]. *)
Definition draw (c : t) : result t :=
  if decide (__zone c = LIBRARY) then Ok (set_zone HAND c)
  else Raise AttributeError.

Definition transform (c : t) : t :=
  if __flip c then set_transformed (negb (__transformed c)) c else c.

Definition leave (c : t) : t :=
  let c1 := if __transformed c || __facedown c then transform c else c in
  let c2 := set_tapped false
              (set_countersMod 0%Z (set_toughnessMod 0%Z (set_powerMod 0%Z c1))) in
  if contains CREATURE (__type c2) && negb (str_in HASTE (__keywords c2))
  then set_summoningSickness true c2
  else c2.

Definition morph (c : t) : t :=
  if __morph c then set_facedown (negb (__facedown c)) c else c.

(** [move]: both [raise] statements come before any assignment. *)
Definition move (zone : Zone) (c : t) : result t :=
  let leaves := bool_decide (__zone c = BATTLEFIELD)
                && negb (bool_decide (zone = BATTLEFIELD)) in
  rbind
    (if __commander c then
       if negb (bool_decide (zone = HAND)) && negb (bool_decide (zone = BATTLEFIELD))
       then Ok (set_zone COMMAND c)
       else Ok (set_zone zone c)
     else if contains EMBLEM (__type c) then
       if negb (bool_decide (zone = BATTLEFIELD))
       then Raise (ZoneError "Can't interact with emblems on the battlefield.")
       else Ok (set_zone BATTLEFIELD c)
     else
       if negb (bool_decide (zone = COMMAND))
       then Ok (set_zone zone c)
       else Raise (ZoneError "Only the commander can be put in the command zone."))
    (fun c1 => if leaves then Ok (leave c1) else Ok c1).

(* ------------------------------------------------------------------- *)
(** *** Dealing with double cards *)

Definition isSplit (c : t) : bool := __split c.
Definition isTransform (c : t) : bool := __flip c.
Definition faceDown (c : t) : bool := __facedown c.
Definition setSplit (c : t) : t := set_split true c.
Definition setTransform (c : t) : t := set_flip true c.

Definition linked (c : t) : option bool :=
  if __flip c || __split c then Some (__linked c) else None.

(** [copy]: the deep copy is the same value; unless the type line
    already has "Token" it is rebuilt as supertypes, "Token", other
    types. *)
Definition copy (c : t) : t :=
  if negb (contains TOKEN (__type c)) then
    let typenames := split " " (__type c) in
    let supers :=
      fold_left (fun acc cardtype =>
                   if str_in cardtype SUPERTYPES
                   then String.append acc (String.append cardtype " ") else acc)
                typenames "" in
    let marked := if negb (contains TOKEN (__type c))
                  then String.append supers (String.append TOKEN " ")
                  else supers in
    let all :=
      fold_left (fun acc cardtype =>
                   if negb (str_in cardtype SUPERTYPES)
                   then String.append acc (String.append cardtype " ") else acc)
                typenames marked in
    set_type (rstrip all) c
  else c.

(* ------------------------------------------------------------------- *)
(** *** [__parseText]: the keyword pass and the morph pass

    The third pass of [__parseText] (anthems) writes only the anthem
    attributes [__hasAnthem], [__anthemPower], [__anthemToughness],
    [__anthemType] and [__anthemKeywords]; it is not modelled, and the
    record carries those attributes as given. *)

(** One [word] of a line: an optional leading blank dropped, trailing
    white space stripped, capitalised. *)
Definition clean_word (word : string) : string :=
  capitalize (rstrip (if startswith " " word then drop_first word else word)).

(** The loop state: the locals [things] and [validLine], both created
    once before the loop over the lines, and the attribute
    [__keywords]. *)
Record scan : Type := mkScan {
  things : list string;
  validLine : bool;
  found : list string
}.

Definition scan_word (s : scan) (word : string) : scan :=
  let w := clean_word word in
  if str_in w KEYWORDS
  then mkScan (things s ++ [w]) (validLine s) (found s)
  else mkScan (things s) false (found s).

Definition scan_line (s : scan) (line : string) : scan :=
  let s1 := fold_left scan_word (split "," line) s in
  if validLine s1
  then mkScan (things s1) (validLine s1) (found s1 ++ things s1)
  else s1.

Definition keyword_pass (text : string) (kws : list string) : list string :=
  found (fold_left scan_line (split "010" text) (mkScan [] true kws)).

(** [X?[1-9]?[0-9]*[WUBRGC]*]: every part is optional and greedy, and
    nothing follows it in the pattern, so the match is the greedy one. *)
Definition is_nonzero_digit (c : ascii) : bool :=
  let n := N_of_ascii c in (N.leb 49 n && N.leb n 57)%N.

Definition is_mana_letter (c : ascii) : bool :=
  existsb (Ascii.eqb c) ["W"; "U"; "B"; "R"; "G"; "C"]%char.

Definition match_cost (s : string) : string :=
  let '(x, s1) := match s with
                  | String "X" r => ("X", r)
                  | _ => ("", s)
                  end in
  let '(d, s2) := match s1 with
                  | String c r => if is_nonzero_digit c
                                  then (String c EmptyString, r) else ("", s1)
                  | _ => ("", s1)
                  end in
  let '(ds, s3) := span is_digit s2 in
  let '(ls, _) := span is_mana_letter s3 in
  String.append x (String.append d (String.append ds ls)).

(** [re.compile("Morph|Megamorph X?[1-9]?[0-9]*[WUBRGC]*").search(text)]:
    the text of the leftmost match, the first alternative tried first. *)
Fixpoint search_morph (text : string) : option string :=
  if String.prefix "Morph" text then Some "Morph"
  else if String.prefix "Megamorph " text
  then Some (String.append "Megamorph "
               (match_cost (String.substring 10 (String.length text - 10) text)))
  else match text with
       | EmptyString => None
       | String _ rest => search_morph rest
       end.

Definition morph_pass (text : string) (kws : list string) : list string :=
  match search_morph text with
  | Some m =>
      match split " " m with
      | w :: _ =>
          if String.eqb w MORPH then kws ++ [MORPH]
          else if String.eqb w MEGAMORPH then kws ++ [MEGAMORPH]
          else kws
      | [] => kws
      end
  | None => kws
  end.

(** The keywords [__parseText] leaves in [__keywords]. *)
Definition __parseText (c : t) : t :=
  set_keywords (morph_pass (__text c) (keyword_pass (__text c) (__keywords c))) c.

(* ------------------------------------------------------------------- *)
(** *** [__init__]

    [costPattern.match(cost)]: the pattern [^X?[1-9]?[0-9]*[WUBRGC]*$]
    accepts [cost] when the greedy match is all of it, or all of it but
    a final newline. *)
Definition cost_ok (cost : string) : bool :=
  let m := match_cost cost in
  String.eqb m cost || String.eqb (String.append m (String "010" EmptyString)) cost.

Definition color_of (cost : string) : string :=
  let add (letter word : string) (acc : string) : string :=
    if contains letter cost then String.append acc word else acc in
  let colors := add "G" "Green " (add "R" "Red " (add "B" "Black "
                  (add "U" "Blue " (add "W" "White " "")))) in
  rstrip (if String.eqb colors "" then "Colorless" else colors).

(** The constructor, for a rules text in which neither anthem pattern
    of [__parseText] matches: the anthem attributes then keep the
    values they are initialised with. [power] and [toughness] arrive
    as the strings of the decklist fields. *)
Definition __init__ (name cost type subtype power toughness text : string)
           (transform : option string) : result t :=
  if cost_ok cost || String.eqb cost "TRANSFORM" then
    let creature := contains CREATURE type in
    rbind (if creature then rbind (int power) (fun p => Ok (Some p)) else Ok None)
      (fun pw =>
    rbind (if creature then rbind (int toughness) (fun p => Ok (Some p)) else Ok None)
      (fun tg =>
    rbind (if String.eqb type PLANESWALKER then int power else Ok 0%Z)
      (fun loyalty =>
    let c0 :=
      {| __name := name; __cost := cost; __color := color_of cost;
         __type := type; __subtype := subtype;
         __powerMod := 0; __toughnessMod := 0; __countersMod := 0;
         __counters := loyalty; __plusone := 0;
         __summoningSickness := creature;
         __power := pw; __toughness := tg;
         __hasAnthem := false; __anthemPower := 0; __anthemToughness := 0;
         __anthemType := []; __anthemKeywords := [];
         __anthemPowerBonus := 0; __anthemToughnessBonus := 0;
         __anthemKeywordMod := [];
         __text := replace_char "\" "010" text;
         __commander := false; __flip := false; __split := false;
         __linked := false; __zone := LIBRARY; __tapped := false;
         __transformed := false;
         __backSide := match transform with
                       | Some (String a s) => BackName (String a s)
                       | _ => NoBack
                       end;
         __keywords := []; __keywordMods := []; __facedown := false;
         __morph := false |} in
    let c1 := __parseText c0 in
    if str_in MORPH (__keywords c1) || str_in MEGAMORPH (__keywords c1)
    then Ok (__morphToken (set_morph true c1))
    else Ok c1)))
  else Raise ValueError.

(* ------------------------------------------------------------------- *)
(** *** [cmc]

    [int(char)] is given a one-character string; on anything but a
    digit it raises a [ValueError], which the handler (written for
    [TypeError]) does not catch, so the exception leaves [cmc] and the
    body of the handler is never run. *)
Fixpoint cmc_loop (cost : string) (cmc : Z) : result Z :=
  match cost with
  | EmptyString => Ok cmc
  | String char rest =>
      rbind (int (String char EmptyString)) (fun digit =>
        cmc_loop rest (cmc + digit)%Z)
  end.

Definition cmc (c : t) : result Z := cmc_loop (__cost c) 0%Z.

End Card.


(* ===================================================================== *)
(** ** [play.py]: the game state and the zone machine *)
(* ===================================================================== *)

Module Play.
Import Py.

(** A Python object reference to a [Card]: an index into the object
    store. Zone lists hold references, and [==], [in] and
    [list.remove] on cards compare identities ([Card] defines no
    [__eq__]). *)
Definition ref : Type := nat.

(** The module-level variables of [play.py] that the engine reads or
    writes, the objects they refer to ([heap]), what has been printed
    ([stdout]) and the number of shuffles drawn from the random
    generator so far ([rng]). *)
Record Game : Type := mkGame {
  heap : list Card.t;
  deck : list ref;
  library : list ref;
  field : list ref;
  hand : list ref;
  grave : list ref;
  exiled : list ref;
  commander : option ref;
  p1Life : Z;
  p1Poison : Z;
  p1Commander : Z;
  p2Life : Z;
  p2Poison : Z;
  p2Commander : Z;
  p1Win : bool;
  p2Win : bool;
  GAME_OVER : bool;
  revealed : bool;
  commandPlayCount : Z;
  stdout : list string;
  rng : nat
}.

Definition set_heap (v : list Card.t) (g : Game) : Game :=
  match g with
  | mkGame _ x1 x2 x3 x4 x5 x6 x7 x8 x9 x10 x11 x12 x13 x14 x15 x16 x17 x18 x19 x20 =>
    mkGame v x1 x2 x3 x4 x5 x6 x7 x8 x9 x10 x11 x12 x13 x14 x15 x16 x17 x18 x19 x20
  end.

Definition set_deck (v : list ref) (g : Game) : Game :=
  match g with
  | mkGame x0 _ x2 x3 x4 x5 x6 x7 x8 x9 x10 x11 x12 x13 x14 x15 x16 x17 x18 x19 x20 =>
    mkGame x0 v x2 x3 x4 x5 x6 x7 x8 x9 x10 x11 x12 x13 x14 x15 x16 x17 x18 x19 x20
  end.

Definition set_library (v : list ref) (g : Game) : Game :=
  match g with
  | mkGame x0 x1 _ x3 x4 x5 x6 x7 x8 x9 x10 x11 x12 x13 x14 x15 x16 x17 x18 x19 x20 =>
    mkGame x0 x1 v x3 x4 x5 x6 x7 x8 x9 x10 x11 x12 x13 x14 x15 x16 x17 x18 x19 x20
  end.

Definition set_field (v : list ref) (g : Game) : Game :=
  match g with
  | mkGame x0 x1 x2 _ x4 x5 x6 x7 x8 x9 x10 x11 x12 x13 x14 x15 x16 x17 x18 x19 x20 =>
    mkGame x0 x1 x2 v x4 x5 x6 x7 x8 x9 x10 x11 x12 x13 x14 x15 x16 x17 x18 x19 x20
  end.

Definition set_hand (v : list ref) (g : Game) : Game :=
  match g with
  | mkGame x0 x1 x2 x3 _ x5 x6 x7 x8 x9 x10 x11 x12 x13 x14 x15 x16 x17 x18 x19 x20 =>
    mkGame x0 x1 x2 x3 v x5 x6 x7 x8 x9 x10 x11 x12 x13 x14 x15 x16 x17 x18 x19 x20
  end.

Definition set_grave (v : list ref) (g : Game) : Game :=
  match g with
  | mkGame x0 x1 x2 x3 x4 _ x6 x7 x8 x9 x10 x11 x12 x13 x14 x15 x16 x17 x18 x19 x20 =>
    mkGame x0 x1 x2 x3 x4 v x6 x7 x8 x9 x10 x11 x12 x13 x14 x15 x16 x17 x18 x19 x20
  end.

Definition set_exiled (v : list ref) (g : Game) : Game :=
  match g with
  | mkGame x0 x1 x2 x3 x4 x5 _ x7 x8 x9 x10 x11 x12 x13 x14 x15 x16 x17 x18 x19 x20 =>
    mkGame x0 x1 x2 x3 x4 x5 v x7 x8 x9 x10 x11 x12 x13 x14 x15 x16 x17 x18 x19 x20
  end.

Definition set_commander (v : option ref) (g : Game) : Game :=
  match g with
  | mkGame x0 x1 x2 x3 x4 x5 x6 _ x8 x9 x10 x11 x12 x13 x14 x15 x16 x17 x18 x19 x20 =>
    mkGame x0 x1 x2 x3 x4 x5 x6 v x8 x9 x10 x11 x12 x13 x14 x15 x16 x17 x18 x19 x20
  end.

Definition set_p1Life (v : Z) (g : Game) : Game :=
  match g with
  | mkGame x0 x1 x2 x3 x4 x5 x6 x7 _ x9 x10 x11 x12 x13 x14 x15 x16 x17 x18 x19 x20 =>
    mkGame x0 x1 x2 x3 x4 x5 x6 x7 v x9 x10 x11 x12 x13 x14 x15 x16 x17 x18 x19 x20
  end.

Definition set_p1Poison (v : Z) (g : Game) : Game :=
  match g with
  | mkGame x0 x1 x2 x3 x4 x5 x6 x7 x8 _ x10 x11 x12 x13 x14 x15 x16 x17 x18 x19 x20 =>
    mkGame x0 x1 x2 x3 x4 x5 x6 x7 x8 v x10 x11 x12 x13 x14 x15 x16 x17 x18 x19 x20
  end.

Definition set_p1Commander (v : Z) (g : Game) : Game :=
  match g with
  | mkGame x0 x1 x2 x3 x4 x5 x6 x7 x8 x9 _ x11 x12 x13 x14 x15 x16 x17 x18 x19 x20 =>
    mkGame x0 x1 x2 x3 x4 x5 x6 x7 x8 x9 v x11 x12 x13 x14 x15 x16 x17 x18 x19 x20
  end.

Definition set_p2Life (v : Z) (g : Game) : Game :=
  match g with
  | mkGame x0 x1 x2 x3 x4 x5 x6 x7 x8 x9 x10 _ x12 x13 x14 x15 x16 x17 x18 x19 x20 =>
    mkGame x0 x1 x2 x3 x4 x5 x6 x7 x8 x9 x10 v x12 x13 x14 x15 x16 x17 x18 x19 x20
  end.

Definition set_p2Poison (v : Z) (g : Game) : Game :=
  match g with
  | mkGame x0 x1 x2 x3 x4 x5 x6 x7 x8 x9 x10 x11 _ x13 x14 x15 x16 x17 x18 x19 x20 =>
    mkGame x0 x1 x2 x3 x4 x5 x6 x7 x8 x9 x10 x11 v x13 x14 x15 x16 x17 x18 x19 x20
  end.

Definition set_p2Commander (v : Z) (g : Game) : Game :=
  match g with
  | mkGame x0 x1 x2 x3 x4 x5 x6 x7 x8 x9 x10 x11 x12 _ x14 x15 x16 x17 x18 x19 x20 =>
    mkGame x0 x1 x2 x3 x4 x5 x6 x7 x8 x9 x10 x11 x12 v x14 x15 x16 x17 x18 x19 x20
  end.

Definition set_p1Win (v : bool) (g : Game) : Game :=
  match g with
  | mkGame x0 x1 x2 x3 x4 x5 x6 x7 x8 x9 x10 x11 x12 x13 _ x15 x16 x17 x18 x19 x20 =>
    mkGame x0 x1 x2 x3 x4 x5 x6 x7 x8 x9 x10 x11 x12 x13 v x15 x16 x17 x18 x19 x20
  end.

Definition set_p2Win (v : bool) (g : Game) : Game :=
  match g with
  | mkGame x0 x1 x2 x3 x4 x5 x6 x7 x8 x9 x10 x11 x12 x13 x14 _ x16 x17 x18 x19 x20 =>
    mkGame x0 x1 x2 x3 x4 x5 x6 x7 x8 x9 x10 x11 x12 x13 x14 v x16 x17 x18 x19 x20
  end.

Definition set_GAME_OVER (v : bool) (g : Game) : Game :=
  match g with
  | mkGame x0 x1 x2 x3 x4 x5 x6 x7 x8 x9 x10 x11 x12 x13 x14 x15 _ x17 x18 x19 x20 =>
    mkGame x0 x1 x2 x3 x4 x5 x6 x7 x8 x9 x10 x11 x12 x13 x14 x15 v x17 x18 x19 x20
  end.

Definition set_revealed (v : bool) (g : Game) : Game :=
  match g with
  | mkGame x0 x1 x2 x3 x4 x5 x6 x7 x8 x9 x10 x11 x12 x13 x14 x15 x16 _ x18 x19 x20 =>
    mkGame x0 x1 x2 x3 x4 x5 x6 x7 x8 x9 x10 x11 x12 x13 x14 x15 x16 v x18 x19 x20
  end.

Definition set_commandPlayCount (v : Z) (g : Game) : Game :=
  match g with
  | mkGame x0 x1 x2 x3 x4 x5 x6 x7 x8 x9 x10 x11 x12 x13 x14 x15 x16 x17 _ x19 x20 =>
    mkGame x0 x1 x2 x3 x4 x5 x6 x7 x8 x9 x10 x11 x12 x13 x14 x15 x16 x17 v x19 x20
  end.

Definition set_stdout (v : list string) (g : Game) : Game :=
  match g with
  | mkGame x0 x1 x2 x3 x4 x5 x6 x7 x8 x9 x10 x11 x12 x13 x14 x15 x16 x17 x18 _ x20 =>
    mkGame x0 x1 x2 x3 x4 x5 x6 x7 x8 x9 x10 x11 x12 x13 x14 x15 x16 x17 x18 v x20
  end.

Definition set_rng (v : nat) (g : Game) : Game :=
  match g with
  | mkGame x0 x1 x2 x3 x4 x5 x6 x7 x8 x9 x10 x11 x12 x13 x14 x15 x16 x17 x18 x19 _ =>
    mkGame x0 x1 x2 x3 x4 x5 x6 x7 x8 x9 x10 x11 x12 x13 x14 x15 x16 x17 x18 x19 v
  end.


(* ------------------------------------------------------------------- *)
(** *** The monad

    A command runs on the game state and either returns a value or
    raises; the state it leaves behind is kept in both cases, because
    in Python whatever was mutated before a [raise] stays mutated. *)

Definition M (A : Type) : Type := Game -> Game * result A.

Definition ret {A : Type} (a : A) : M A := fun g => (g, Ok a).

Definition bind {A B : Type} (m : M A) (k : A -> M B) : M B :=
  fun g =>
    match m g with
    | (g1, Ok a) => k a g1
    | (g1, Raise e) => (g1, Raise e)
    end.

Definition raise {A : Type} (e : exn) : M A := fun g => (g, Raise e).

Definition gets {A : Type} (f : Game -> A) : M A := fun g => (g, Ok (f g)).

Definition modify (f : Game -> Game) : M unit := fun g => (f g, Ok tt).

Definition lift {A : Type} (r : result A) : M A := fun g => (g, r).

Declare Scope play_scope.
Delimit Scope play_scope with play.
Notation "x <- m ;; k" := (bind m (fun x => k))
  (at level 100, m at next level, right associativity) : play_scope.
Notation "m ;; k" := (bind m (fun _ => k))
  (at level 100, right associativity) : play_scope.
#[local] Open Scope play_scope.

Definition when (b : bool) (m : M unit) : M unit := if b then m else ret tt.

(** [for x in l: body(x)] *)
Fixpoint for_each {A : Type} (l : list A) (body : A -> M unit) : M unit :=
  match l with
  | [] => ret tt
  | x :: rest => body x ;; for_each rest body
  end.

(** Dereferencing, and calling a method that mutates its receiver. *)
Definition deref (r : ref) : M Card.t :=
  fun g => match heap g !! r with
           | Some c => (g, Ok c)
           | None => (g, Raise Unallocated)
           end.

Definition store (r : ref) (c : Card.t) : M unit :=
  modify (fun g => set_heap (<[r := c]> (heap g)) g).

Definition call (r : ref) (method : Card.t -> Card.t) : M unit :=
  c <- deref r ;; store r (method c).

Definition call_raising (r : ref) (method : Card.t -> result Card.t) : M unit :=
  c <- deref r ;; c1 <- lift (method c) ;; store r c1.

Definition query {A : Type} (r : ref) (accessor : Card.t -> result A) : M A :=
  c <- deref r ;; lift (accessor c).

(** What a name such as [card] is bound to inside the engine: a card
    object, or a type name (the result [getCard] gives for "creature",
    "land", ...). *)
Inductive arg : Type :=
| Obj (r : ref)
| Str (s : string).

(** [card in Card.TYPES]: a card object equals no string. *)
Definition in_TYPES (card : arg) : bool :=
  match card with
  | Obj _ => false
  | Str s => str_in s Card.TYPES
  end.

(** A method call or accessor on [card]: a string has no such
    attribute. *)
Definition the_card (card : arg) : M ref :=
  match card with
  | Obj r => ret r
  | Str _ => raise AttributeError
  end.

(** [card != commander], where [commander] is [False] or the commander
    object. *)
Definition is_commander (r : ref) (g : Game) : bool :=
  match commander g with
  | Some k => Nat.eqb r k
  | None => false
  end.

(** The five module-level zone lists, as objects that a local variable
    can alias. *)
Inductive zlist : Type := Lhand | Lfield | Lexiled | Lgrave | Llibrary.

Definition zlist_get (z : zlist) (g : Game) : list ref :=
  match z with
  | Lhand => hand g
  | Lfield => field g
  | Lexiled => exiled g
  | Lgrave => grave g
  | Llibrary => library g
  end.

Definition zlist_set (z : zlist) (l : list ref) (g : Game) : Game :=
  match z with
  | Lhand => set_hand l g
  | Lfield => set_field l g
  | Lexiled => set_exiled l g
  | Lgrave => set_grave l g
  | Llibrary => set_library l g
  end.

(** [l.remove(x)], [l.insert(0, x)], [l.append(x)], [l.pop(0)]. *)
Definition zremove (z : zlist) (r : ref) : M unit :=
  l <- gets (zlist_get z) ;;
  match list_remove r l with
  | Some l1 => modify (zlist_set z l1)
  | None => raise ValueError
  end.

Definition zinsert0 (z : zlist) (r : ref) : M unit :=
  modify (fun g => zlist_set z (r :: zlist_get z g) g).

Definition zappend (z : zlist) (r : ref) : M unit :=
  modify (fun g => zlist_set z (zlist_get z g ++ [r]) g).

Definition zpop0 (z : zlist) : M ref :=
  l <- gets (zlist_get z) ;;
  match l with
  | r :: rest => modify (zlist_set z rest) ;; ret r
  | [] => raise IndexError
  end.

Definition print (line : string) : M unit :=
  modify (fun g => set_stdout (stdout g ++ [line]) g).

(* ------------------------------------------------------------------- *)
(** *** Functions to manipulate stuff *)

Definition getZoneNameFromString (s : string) : option Card.Zone :=
  let s := lower s in
  let '(ret, valid) :=
    fold_left
      (fun (acc : option Card.Zone * bool) (zone : Card.Zone) =>
         let '(ret, valid) := acc in
         if contains (lower s) (lower (Card.zone_name zone))
         then (Some zone, match ret with Some _ => false | None => valid end)
         else (ret, valid))
      Card.ZONES (None, true) in
  if valid then ret else None.

(** The two search loops of [getCard]: [wanted] tests the lower-cased
    name of each card of the zone; the first [skip] matches are passed
    over but remembered. *)
Fixpoint getCard_loop (wanted : string -> bool) (zone : list ref)
         (skip : Z) (ret0 : option ref) : M (option ref) :=
  match zone with
  | [] => ret ret0
  | card :: rest =>
      nm <- query card Card.name ;;
      if wanted (lower nm) then
        if (skip =? 0)%Z then ret (Some card)
        else getCard_loop wanted rest (skip - 1)%Z (Some card)
      else getCard_loop wanted rest skip ret0
  end.

(** The one-character string holding a double quote. *)
Definition dquote : string := String (ascii_of_nat 34) EmptyString.

Definition quoted (cardname : string) : bool :=
  startswith dquote cardname && endswith dquote cardname
  && (2 <? String.length cardname)%nat.

Definition getCard (args : list string) (zone : option (list ref))
           (cmd : option string) : M arg :=
  match last args with
  | None => raise IndexError
  | Some final =>
      let '(skip, cardname) :=
        match int final with
        | Ok n => ((if (n - 1 <? 0)%Z then 0 else n - 1)%Z,
                   join " " (removelast args))
        | Raise _ => (0%Z, join " " args)
        end in
      let nonempty := match zone with
                      | Some (_ :: _) => true
                      | _ => false
                      end in
      match (if String.eqb cardname "card" then zone else None) with
      | Some (first :: _) => ret (Obj first)
      | _ =>
          match List.find (fun typeName =>
                             String.eqb (lower cardname) (lower typeName)
                             && negb (String.eqb typeName Card.EMBLEM))
                          Card.TYPES with
          | Some typeName => ret (Str typeName)
          | None =>
              match zone with
              | Some (z0 :: zs) =>
                  let zone := z0 :: zs in
                  rev <- gets revealed ;;
                  h <- gets hand ;;
                  special <-
                    (if rev && bool_decide (zone = h)
                        && bool_decide (cmd = Some "play")
                     then
                       lib <- gets library ;;
                       match lib with
                       | [] => raise IndexError
                       | top :: _ =>
                           nm <- query top Card.name ;;
                           if quoted cardname then
                             if String.eqb (drop_last (drop_first cardname)) nm
                             then ret (Some top) else ret None
                           else
                             if contains cardname (lower nm)
                             then ret (Some top) else ret None
                       end
                     else ret None) ;;
                  match special with
                  | Some top => ret (Obj top)
                  | None =>
                      let cardname1 := if quoted cardname
                                       then drop_last (drop_first cardname)
                                       else cardname in
                      found <-
                        (if quoted cardname
                         then getCard_loop (String.eqb (lower cardname1)) zone skip None
                         else getCard_loop (contains (lower cardname1)) zone skip None) ;;
                      match found with
                      | Some card => ret (Obj card)
                      | None => raise (CardNotFoundError cardname1)
                      end
                  end
              | _ => raise (CardNotFoundError cardname)
              end
          end
      end
  end.

(* ------------------------------------------------------------------- *)
(** *** Functions to play the game *)

Definition checkVictory : M unit :=
  w1 <- gets p1Win ;;
  when w1 (modify (set_GAME_OVER true) ;; print "Player 1 win") ;;
  w2 <- gets p2Win ;;
  when w2 (modify (set_GAME_OVER true) ;; print "Player 2 win").

(** [modStat] declares the six counters and the two win flags
    [global], so its assignments reach the module-level variables. *)
Definition modStat (player stat : string) (number : Z) : M unit :=
  if String.eqb player "p1" then
    when (String.eqb stat "life")
      (modify (fun g => set_p1Life (p1Life g + number)%Z g) ;;
       l <- gets p1Life ;; when (l <=? 0)%Z (modify (set_p2Win true))) ;;
    when (String.eqb stat "poison")
      (modify (fun g => set_p1Poison (p1Poison g + number)%Z g) ;;
       p <- gets p1Poison ;; when (10 <=? p)%Z (modify (set_p2Win true))) ;;
    when (String.eqb stat "commander")
      (modify (fun g => set_p1Commander (p1Commander g + number)%Z g) ;;
       modify (fun g => set_p1Life (p1Life g - number)%Z g) ;;
       k <- gets p1Commander ;; when (20 <? k)%Z (modify (set_p2Win true)))
  else if String.eqb player "p2" then
    when (String.eqb stat "life")
      (modify (fun g => set_p2Life (p2Life g + number)%Z g) ;;
       l <- gets p2Life ;; when (l <=? 0)%Z (modify (set_p1Win true))) ;;
    when (String.eqb stat "poison")
      (modify (fun g => set_p2Poison (p2Poison g + number)%Z g) ;;
       p <- gets p2Poison ;; when (10 <=? p)%Z (modify (set_p1Win true))) ;;
    when (String.eqb stat "commander")
      (modify (fun g => set_p2Commander (p2Commander g + number)%Z g) ;;
       modify (fun g => set_p2Life (p2Life g - number)%Z g) ;;
       k <- gets p2Commander ;; when (20 <? k)%Z (modify (set_p1Win true)))
  else raise CommandError.

(** The second loop shared by [kill], [exile] and [sacrifice] when
    they are given a type name: every collected card leaves the
    battlefield list and, unless it is a token or the commander, is
    inserted at the front of [dest]. *)
Definition bury (dest : zlist) (thing : ref) : M unit :=
  zremove Lfield thing ;;
  ty <- query thing Card.type ;;
  cmd <- gets (is_commander thing) ;;
  when (negb (contains Card.TOKEN ty) && negb cmd) (zinsert0 dest thing).

(** The first loop: the cards of the battlefield whose type line
    contains [ty] (and that pass [spared]) are moved and collected. *)
Fixpoint collect (ty : string) (spared : Card.t -> bool) (zone : Card.Zone)
         (things : list ref) : M (list ref) :=
  match things with
  | [] => ret []
  | thing :: rest =>
      t <- query thing Card.type ;;
      c <- deref thing ;;
      if contains ty t && negb (spared c) then
        call_raising thing (Card.move zone) ;;
        remove <- collect ty spared zone rest ;;
        ret (thing :: remove)
      else collect ty spared zone rest
  end.

Definition indestructible (c : Card.t) : bool :=
  str_in Card.INDESTRUCTIBLE (Card.keywords c).

Definition kill (card : arg) : M unit :=
  if in_TYPES card then
    match card with
    | Str type =>
        f <- gets field ;;
        remove <- collect type indestructible Card.GRAVEYARD f ;;
        for_each remove (bury Lgrave)
    | Obj _ => ret tt
    end
  else
    r <- the_card card ;;
    c <- deref r ;;
    when (negb (indestructible c))
      (call_raising r (Card.move Card.GRAVEYARD) ;;
       bury Lgrave r).

Definition exile (card : arg) : M unit :=
  if in_TYPES card then
    match card with
    | Str type =>
        f <- gets field ;;
        remove <- collect type (fun _ => false) Card.EXILE f ;;
        for_each remove (bury Lexiled)
    | Obj _ => ret tt
    end
  else
    r <- the_card card ;;
    call_raising r (Card.move Card.EXILE) ;;
    bury Lexiled r.

Definition sacrifice (card : arg) : M unit :=
  if in_TYPES card then
    match card with
    | Str type =>
        f <- gets field ;;
        remove <- collect type (fun _ => false) Card.GRAVEYARD f ;;
        for_each remove (bury Lgrave)
    | Obj _ => ret tt
    end
  else
    r <- the_card card ;;
    call_raising r (Card.move Card.GRAVEYARD) ;;
    bury Lgrave r.

(** [copy(card)]: a new object, the token copy of [card], is appended
    to the battlefield list. *)
Definition alloc (c : Card.t) : M ref :=
  fun g => (set_heap (heap g ++ [c]) g, Ok (length (heap g))).

Definition copy (card : arg) : M unit :=
  r <- the_card card ;;
  c <- deref r ;;
  token <- alloc (Card.copy c) ;;
  zappend Lfield token.

Definition discard (card : arg) : M unit :=
  r <- the_card card ;;
  call r Card.discard ;;
  zremove Lhand r ;;
  zinsert0 Lgrave r.

(** [stateBased]: the first loop only reads; a card that is both a
    dying creature and a dying planeswalker is collected twice. *)
Fixpoint dying (things : list ref) : M (list ref) :=
  match things with
  | [] => ret []
  | card :: rest =>
      t1 <- query card Card.type ;;
      c1 <- (if contains Card.CREATURE t1 then
               tough <- query card Card.toughness ;;
               ret (bool_decide (tough = Some 0%Z))
             else ret false) ;;
      t2 <- query card Card.type ;;
      c2 <- (if contains Card.PLANESWALKER t2 then
               n <- query card Card.counters ;;
               ret (n =? 0)%Z
             else ret false) ;;
      removing <- dying rest ;;
      ret ((if c1 then [card] else []) ++ (if c2 then [card] else []) ++ removing)
  end.

Definition stateBased : M unit :=
  f <- gets field ;;
  removing <- dying f ;;
  for_each removing (fun card => kill (Obj card)).

(** [power(n, card)], [toughness(n, card)], [counters(n, card)],
    [plusone(n, card)]: one card, or every battlefield card of a
    type. *)
Definition on_target (card : arg) (method : Card.t -> Card.t) : M unit :=
  if in_TYPES card then
    match card with
    | Str type =>
        f <- gets field ;;
        for_each f (fun thing =>
          t <- query thing Card.type ;;
          when (contains type t) (call thing method))
    | Obj _ => ret tt
    end
  else
    r <- the_card card ;; call r method.

Definition power (n : Z) (card : arg) : M unit := on_target card (Card.modPower n).
Definition toughness (n : Z) (card : arg) : M unit := on_target card (Card.modToughness n).
Definition counters (n : Z) (card : arg) : M unit := on_target card (Card.modCounters n).
Definition plusone (n : Z) (card : arg) : M unit := on_target card (Card.modPlusOne n).

(** [draw]: [p2Win] is assigned in the handler without a [global]
    declaration, so the name is local to this call: the assignment
    binds a local that dies when [draw] returns, and the module-level
    [p2Win] is not written. *)
Fixpoint draw_loop (number : nat) : M unit :=
  match number with
  | O => ret tt
  | S k =>
      card <- zpop0 Llibrary ;;
      call_raising card Card.draw ;;
      zappend Lhand card ;;
      draw_loop k
  end.

Definition draw (number : Z) : M unit :=
  fun g =>
    match draw_loop (Z.to_nat number) g with
    | (g1, Raise IndexError) =>
        let p2Win := true in
        (g1, Ok tt)
    | other => other
    end.

Definition endTurn : M unit :=
  f <- gets field ;;
  for_each f (fun card => call card Card.endTurn).

Definition tap (card : arg) : M unit := on_target card Card.tap.
Definition untap (card : arg) : M unit := on_target card Card.untap.

(* ------------------------------------------------------------------- *)
(** *** Operations that shuffle

    [random.shuffle(library)] permutes the library in place. The
    permutation it picks is a parameter: [permute n l] is the order the
    [n]-th shuffle of the run gives to [l]. *)

Section Shuffling.

Variable permute : nat -> list ref -> list ref.

Definition shuffle : M unit :=
  modify (fun g => set_rng (S (rng g)) (set_library (permute (rng g) (library g)) g)).

Definition reshuffle : M unit :=
  modify (set_library []) ;;
  modify (set_hand []) ;;
  modify (set_grave []) ;;
  modify (set_exiled []) ;;
  modify (set_field []) ;;
  d <- gets deck ;;
  for_each d (fun card =>
    c <- deref card ;;
    when (negb (Card.commander c))
      (call_raising card (Card.move Card.LIBRARY) ;;
       zappend Llibrary card)) ;;
  shuffle.

(** What the local [fromZone] of [move] is bound to after the chain
    of [if]s: one of the zone lists, [None] (the command zone), or
    still the name [Top] or [Bottom]. *)
Inductive source : Type :=
| FromList (z : zlist)
| FromNone
| FromName (z : Card.Zone).

Definition source_of (fromZone : Card.Zone) : source * bool :=
  match fromZone with
  | Card.HAND => (FromList Lhand, false)
  | Card.BATTLEFIELD => (FromList Lfield, false)
  | Card.EXILE => (FromList Lexiled, false)
  | Card.GRAVEYARD => (FromList Lgrave, false)
  | Card.LIBRARY => (FromList Llibrary, true)
  | Card.COMMAND => (FromNone, false)
  | Card.TOP => (FromName Card.TOP, false)
  | Card.BOTTOM => (FromName Card.BOTTOM, false)
  end.

Definition move (fromZone toZone : string) (cardArgs : option (list string)) : M unit :=
  match getZoneNameFromString fromZone, getZoneNameFromString toZone with
  | Some fromZone, Some toZone =>
      let '(fromZone, shuffleLibrary) := source_of fromZone in
      (* a specific card cannot be asked from the top or the bottom *)
      match fromZone, cardArgs with
      | FromName _, Some _ =>
          raise (ZoneError "Can't move a specific card from top or bottom.")
      | _, _ =>
          (* the top or the bottom card of the library *)
          picked <-
            match fromZone with
            | FromName z =>
                lib <- gets library ;;
                match (if bool_decide (z = Card.TOP) then head lib else last lib) with
                | Some card => ret (Some (Obj card), FromList Llibrary)
                | None => raise IndexError
                end
            | _ => ret (None, fromZone)
            end ;;
          let '(card, fromZone) := picked in
          (* the card they named, if they named one *)
          card <-
            match cardArgs with
            | Some (a :: args) =>
                zone <- gets (fun g => match fromZone with
                                       | FromList z => Some (zlist_get z g)
                                       | _ => None
                                       end) ;;
                found <- getCard (a :: args) zone None ;;
                ret (Some found)
            | _ => ret card
            end ;;
          match card with
          | Some card =>
              match fromZone with
              | FromList z =>
                  l <- gets (zlist_get z) ;;
                  match l with
                  | _ :: _ =>
                      match card with
                      | Obj r => zremove z r
                      | Str _ => raise ValueError
                      end ;;
                      when shuffleLibrary shuffle
                  | [] => ret tt
                  end
              | _ => ret tt
              end ;;
              r <- the_card card ;;
              ty <- query r Card.type ;;
              toZone <-
                (if negb (contains Card.TOKEN ty) then
                   when (bool_decide (toZone = Card.LIBRARY))
                     (zappend Llibrary r ;; shuffle) ;;
                   toZone <- (if bool_decide (toZone = Card.TOP)
                              then zinsert0 Llibrary r ;; ret Card.LIBRARY
                              else ret toZone) ;;
                   toZone <- (if bool_decide (toZone = Card.BOTTOM)
                              then zappend Llibrary r ;; ret Card.LIBRARY
                              else ret toZone) ;;
                   when (bool_decide (toZone = Card.BATTLEFIELD)) (zappend Lfield r) ;;
                   when (bool_decide (toZone = Card.HAND)) (zappend Lhand r) ;;
                   when (bool_decide (toZone = Card.EXILE)) (zappend Lexiled r) ;;
                   when (bool_decide (toZone = Card.GRAVEYARD)) (zinsert0 Lgrave r) ;;
                   ret toZone
                 else ret toZone) ;;
              c <- deref r ;;
              (if bool_decide (toZone = Card.COMMAND) && negb (Card.commander c) then
                 nm <- lift (Card.name c) ;;
                 raise (ZoneError (String.append nm " can't be put in the command zone."))
               else ret tt) ;;
              call_raising r (Card.move toZone)
          | None => raise (CardNotFoundError "Card")
          end
      end
  | _, _ =>
      raise (ZoneError "Zone does not exist, or zone name is not specific enough.")
  end.

Definition fetch (args : list string) : M unit :=
  move (Card.zone_name Card.LIBRARY) (Card.zone_name Card.HAND) (Some args).

Definition play (card : arg) : M unit :=
  if in_TYPES card then ret tt
  else
    h <- gets hand ;;
    in_hand <- ret (match card with Obj r => ref_in r h | Str _ => false end) ;;
    allowed <-
      (if in_hand then ret true
       else
         r <- the_card card ;;
         c <- deref r ;;
         if Card.commander c then ret true
         else
           ty <- lift (Card.type c) ;;
           if contains Card.TOKEN ty then ret true
           else
             rev <- gets revealed ;;
             lib <- gets library ;;
             ret (rev && bool_decide (head lib = Some r))) ;;
    if allowed then
      r <- the_card card ;;
      cmd <- gets (is_commander r) ;;
      c <- deref r ;;
      when (cmd && bool_decide (Card.zone c = Card.COMMAND))
        (modify (fun g => set_commandPlayCount (commandPlayCount g + 1)%Z g)) ;;
      h <- gets hand ;;
      when (ref_in r h) (zremove Lhand r) ;;
      lib <- gets library ;;
      when (bool_decide (head lib = Some r)) (r0 <- zpop0 Llibrary ;; ret tt) ;;
      call r Card.play ;;
      c <- deref r ;;
      match Card.zone c with
      | Card.GRAVEYARD => zinsert0 Lgrave r
      | Card.EXILE => zinsert0 Lexiled r
      | Card.BATTLEFIELD => zappend Lfield r
      | Card.LIBRARY => zappend Llibrary r ;; shuffle
      | Card.BOTTOM => zappend Llibrary r ;; call_raising r (Card.move Card.LIBRARY)
      | Card.TOP => zinsert0 Llibrary r ;; call_raising r (Card.move Card.LIBRARY)
      | _ => ret tt
      end
    else
      r <- the_card card ;;
      nm <- query r Card.name ;;
      raise (ZoneError (String.append nm " needs to be in your hand to play it.")).

End Shuffling.

(* ------------------------------------------------------------------- *)
(** *** More commands of the game *)

(** [bounce]: like [exile], with the hand for destination; the card is
    appended to the hand unless it is a token, the commander too. *)
Definition to_hand (thing : ref) : M unit :=
  zremove Lfield thing ;;
  ty <- query thing Card.type ;;
  when (negb (contains Card.TOKEN ty)) (zappend Lhand thing).

Definition bounce (card : arg) : M unit :=
  if in_TYPES card then
    match card with
    | Str type =>
        f <- gets field ;;
        remove <- collect type (fun _ => false) Card.HAND f ;;
        for_each remove to_hand
    | Obj _ => ret tt
    end
  else
    r <- the_card card ;;
    call_raising r (Card.move Card.HAND) ;;
    to_hand r.

(** [mill]: the argument of [card.move] is [Card.GRVEYARD], a name the
    class does not define; evaluating it raises an [AttributeError]
    before [move] is called. *)
Fixpoint mill_loop (n : nat) : M unit :=
  match n with
  | O => ret tt
  | S k =>
      lib <- gets library ;;
      card <- (match lib with
               | card :: _ => ret card
               | [] => raise IndexError
               end) ;;
      zone <- raise (A := Card.Zone) AttributeError ;;
      call_raising card (Card.move zone) ;;
      zremove Llibrary card ;;
      zinsert0 Lgrave card ;;
      mill_loop k
  end.

Definition mill (n : Z) : M unit := mill_loop (Z.to_nat n).

(** [top]: [n] is clamped to the size of the library before the loop. *)
Definition top (n : Z) : M unit :=
  lib <- gets library ;;
  let n := if (Z.of_nat (length lib) <? n)%Z then Z.of_nat (length lib) else n in
  for_each (seq 0 (Z.to_nat n)) (fun i =>
    lib <- gets library ;;
    match lib !! i with
    | Some card => nm <- query card Card.name ;; print nm
    | None => raise IndexError
    end).

(** [untapAll]: [not a + b in c] reads [not ((a + b) in c)]. *)
Definition untapAll : M unit :=
  f <- gets field ;;
  for_each f (fun card =>
    nm <- query card Card.name ;;
    text <- query card Card.rulestext ;;
    when (negb (contains
                  (String.append nm " doesn't untap during your untap step") text))
      (call card Card.untap)).

(* ------------------------------------------------------------------- *)
(** *** Anthems and combat

    Both meet [None] where a number or a list is expected: the anthem
    accessors return [None] for a card without anthem, and [power]
    returns [None] for a card that is not a creature. Python then
    raises a [TypeError], which is not among the exceptions of [exn];
    a command that can meet one answers in [checked], where [Wrong]
    stands for the [TypeError] raised: the command stops there and so
    does its caller. *)
Inductive checked (A : Type) : Type :=
| Fine (a : A)
| Wrong.
Arguments Fine {A} a.
Arguments Wrong {A}.

Fixpoint for_each_checked {A : Type} (l : list A) (body : A -> M (checked unit))
  : M (checked unit) :=
  match l with
  | [] => ret (Fine tt)
  | x :: rest =>
      r <- body x ;;
      match r with
      | Fine _ => for_each_checked rest body
      | Wrong => ret Wrong
      end
  end.

(** [thingIsAffected]: the three tests are evaluated before they are
    combined, so the three accessors are always called. *)
Definition affected (type : string) (thing : ref) : M bool :=
  ty <- query thing Card.type ;;
  sub <- query thing Card.subtype ;;
  col <- query thing Card.color ;;
  ret (contains (lower type) (lower ty)
       || contains (lower type) (lower sub)
       || contains (lower type) (lower col)).

(** The inner loop of [anthem], over the types of the anthem, left at
    the first type that [thing] has. *)
Fixpoint anthem_types (types : list string) (thing : ref)
         (anthemPower anthemToughness : option Z) (anthemKeywords : list string)
  : M (checked unit) :=
  match types with
  | [] => ret (Fine tt)
  | type :: rest =>
      hit <- affected type thing ;;
      if hit then
        match anthemPower with
        | Some p =>
            call thing (Card.anthemPowerBonus p) ;;
            match anthemToughness with
            | Some t =>
                call thing (Card.anthemToughnessBonus t) ;;
                call thing (Card.anthemKeywordMod anthemKeywords) ;;
                ret (Fine tt)
            | None => ret Wrong
            end
        | None => ret Wrong
        end
      else anthem_types rest thing anthemPower anthemToughness anthemKeywords
  end.

Definition anthem (card : ref) : M (checked unit) :=
  anthemType <- query card Card.anthemType ;;
  anthemPower <- query card Card.anthemPower ;;
  anthemToughness <- query card Card.anthemToughness ;;
  anthemKeywords <- query card Card.anthemKeywords ;;
  f <- gets field ;;
  for_each_checked f (fun thing =>
    match anthemType with
    | None => ret Wrong
    | Some types =>
        if str_in "Other" types && Nat.eqb thing card then ret (Fine tt)
        else anthem_types types thing anthemPower anthemToughness anthemKeywords
    end).

Definition applyAnthems : M (checked unit) :=
  f <- gets field ;;
  for_each f (fun card => call card Card.resetAnthem) ;;
  f <- gets field ;;
  for_each_checked f (fun card =>
    a <- query card Card.anthem ;;
    if a then anthem card else ret (Fine tt)).

(** [attack]: [damage] is what [power] returned, [None] for a card
    that is not a creature. *)
Definition add_damage (total : Z) (damage : option Z) : checked Z :=
  match damage with
  | Some d => Fine (total + d)%Z
  | None => Wrong
  end.

Fixpoint attack_loop (attackers : list ref) (total totalCommander poison : Z)
  : M (checked (Z * Z * Z)) :=
  match attackers with
  | [] => ret (Fine (total, totalCommander, poison))
  | creature :: rest =>
      damage <- query creature Card.power ;;
      c <- deref creature ;;
      damage <-
        (if str_in Card.DOUBLESTRIKE (Card.keywords c) then
           again <- query creature Card.power ;;
           match damage, again with
           | Some d, Some a => ret (Fine (Some (d + a)%Z))
           | _, _ => ret Wrong
           end
         else ret (Fine damage)) ;;
      match damage with
      | Wrong => ret Wrong
      | Fine damage =>
          c <- deref creature ;;
          cmd <- gets (is_commander creature) ;;
          let totals :=
            if negb (str_in Card.INFECT (Card.keywords c)) then
              if cmd
              then match add_damage totalCommander damage with
                   | Fine k => Fine (total, k, poison)
                   | Wrong => Wrong
                   end
              else match add_damage total damage with
                   | Fine k => Fine (k, totalCommander, poison)
                   | Wrong => Wrong
                   end
            else match add_damage poison damage with
                 | Fine k => Fine (total, totalCommander, k)
                 | Wrong => Wrong
                 end in
          match totals with
          | Wrong => ret Wrong
          | Fine (total, totalCommander, poison) =>
              c <- deref creature ;;
              when (negb (str_in Card.VIGILANCE (Card.keywords c)))
                (call creature Card.tap) ;;
              attack_loop rest total totalCommander poison
          end
      end
  end.

Definition attack (attackers : list ref) : M (checked unit) :=
  totals <- attack_loop attackers 0 0 0 ;;
  match totals with
  | Wrong => ret Wrong
  | Fine (total, totalCommander, poison) =>
      modStat "p2" "life" (-1 * total) ;;
      modStat "p2" "poison" poison ;;
      modStat "p2" "commander" totalCommander ;;
      ret (Fine tt)
  end.

End Play.


(* ===================================================================== *)
(** ** Vocabulary of the statements and sample decks *)
(* ===================================================================== *)

Import Py.

(** The face whose base data the accessors read: the card itself, or its
    linked back face while it is transformed or face-down. *)
Definition showing (c : Card.t) : option Card.t :=
  if Card.flipped c then
    match Card.__backSide c with
    | Card.BackCard b => Some b
    | _ => None
    end
  else Some c.

(** The state a command leaves behind, and what it returns or raises. *)
Definition state_after {A : Type} (m : Play.M A) (g : Play.Game) : Play.Game := fst (m g).
Definition outcome {A : Type} (m : Play.M A) (g : Play.Game) : result A := snd (m g).

(** "Newest first": everything that was in the list is still there, in
    the same order, behind the cards that were put in. *)
Definition newest_first (old new : list Play.ref) : Prop :=
  exists newest, new = newest ++ old.

(** A card the sweep of [stateBased] collects, as a creature or as a
    planeswalker. *)
Definition doomed_creature (c : Card.t) : result bool :=
  rbind (Card.type c) (fun t =>
    if contains Card.CREATURE t
    then rbind (Card.toughness c) (fun tough => Ok (bool_decide (tough = Some 0%Z)))
    else Ok false).

Definition doomed_walker (c : Card.t) : result bool :=
  rbind (Card.type c) (fun t =>
    if contains Card.PLANESWALKER t
    then rbind (Card.counters c) (fun n => Ok (n =? 0)%Z)
    else Ok false).

(** What [kill] needs of a battlefield card it destroys: [Card.move]
    accepts the graveyard and the type line can be read afterwards. *)
Definition buried (c : Card.t) : option (Card.t * bool) :=
  match Card.move Card.GRAVEYARD c with
  | Ok c1 =>
      match Card.type c1 with
      | Ok ty => Some (c1, contains Card.TOKEN ty)
      | Raise _ => None
      end
  | Raise _ => None
  end.

(** A battlefield the sweep runs through without raising: every card of
    it is allocated, its accessors answer, it is collected at most once
    unless it is indestructible, and it can be buried if it has to be. *)
Definition sweepable_card (c : Card.t) : bool :=
  match doomed_creature c, doomed_walker c with
  | Ok d1, Ok d2 =>
      if d1 || d2 then
        Play.indestructible c
        || (negb (d1 && d2) && match buried c with Some _ => true | None => false end)
      else true
  | _, _ => false
  end.

Definition doomed (c : Card.t) : bool :=
  match doomed_creature c, doomed_walker c with
  | Ok d1, Ok d2 => d1 || d2
  | _, _ => false
  end.

Definition sweepable (g : Play.Game) : bool :=
  bool_decide (NoDup (Play.field g))
  && forallb (fun r => match Play.heap g !! r with
                       | Some c => sweepable_card c
                       | None => false
                       end) (Play.field g).

(** [keeps R m]: whatever [m] returns or raises, the state it leaves is
    related by [R] to the state it started from. *)
Definition keeps (R : Play.Game -> Play.Game -> Prop) {A : Type} (m : Play.M A) : Prop :=
  forall g, R g (fst (m g)).

Definition grave_front (g g1 : Play.Game) : Prop :=
  newest_first (Play.grave g) (Play.grave g1).

Definition exiled_front (g g1 : Play.Game) : Prop :=
  newest_first (Play.exiled g) (Play.exiled g1).

(** The graveyard and the exile list both only grow at the front. *)
Definition piles_front (g g1 : Play.Game) : Prop :=
  grave_front g g1 /\ exiled_front g g1.

(** What [kill] makes of the game when it destroys the card [r]: [c1]
    is the card after [Card.move], [f1] the battlefield without it. *)
Definition killed_state (r : Play.ref) (c1 : Card.t) (token : bool)
           (f1 : list Play.ref) (g : Play.Game) : Play.Game :=
  let g1 := Play.set_field f1 (Play.set_heap (<[r := c1]> (Play.heap g)) g) in
  if negb token && negb (Play.is_commander r g)
  then Play.set_grave (r :: Play.grave g) g1
  else g1.

(** A card that [kill] does not spare. *)
Definition mortal (g : Play.Game) (r : Play.ref) : bool :=
  match Play.heap g !! r with
  | Some c => negb (Play.indestructible c)
  | None => false
  end.

(** A card whose type line, as it shows, contains the type name. *)
Definition of_type (ty : string) (c : Card.t) : bool :=
  match Card.type c with
  | Ok t => contains ty t
  | Raise _ => false
  end.

(** The cards a command is aimed at: the card it is given, or the
    cards of the battlefield whose type line contains the type name it
    is given. *)
Definition shows_type (ty : string) (g : Play.Game) (r : Play.ref) : bool :=
  match Play.heap g !! r with
  | Some c => of_type ty c
  | None => false
  end.

Definition aimed_at (card : Play.arg) (g : Play.Game) : list Play.ref :=
  match card with
  | Play.Obj r => [r]
  | Play.Str ty => List.filter (shows_type ty g) (Play.field g)
  end.

(** A card that is put into the graveyard or the exile list when it
    leaves the battlefield: it is neither a token, by the type line
    it shows, nor the commander of the game. *)
Definition piled (g : Play.Game) (r : Play.ref) : bool :=
  match Play.heap g !! r with
  | Some c => negb (of_type Card.TOKEN c) && negb (Play.is_commander r g)
  | None => false
  end.

(** A card the sweep of [stateBased] collects and [kill] does not
    spare. *)
Definition dies (g : Play.Game) (r : Play.ref) : bool :=
  match Play.heap g !! r with
  | Some c => doomed c && negb (Play.indestructible c)
  | None => false
  end.

(** The list [removing] that the first loop of [stateBased] builds. *)
Definition marks (g : Play.Game) (r : Play.ref) : list Play.ref :=
  match Play.heap g !! r with
  | Some c =>
      match doomed_creature c, doomed_walker c with
      | Ok d1, Ok d2 => (if d1 then [r] else []) ++ (if d2 then [r] else [])
      | _, _ => []
      end
  | None => []
  end.

Definition collected (g : Play.Game) (l : list Play.ref) : list Play.ref :=
  flat_map (marks g) l.

(** *** Sample decks

    The cards below are the objects [__init__] builds from decklist
    lines; the games are reached from a freshly loaded library by the
    engine's own commands. *)

Module Sample.

Definition built (r : result Card.t) : Card.t :=
  match r with
  | Ok c => c
  | Raise _ => Card.morph_card
  end.

(** [Grizzly Bears;1G;Creature;Bear;2;2;] *)
Definition bears : Card.t :=
  Eval vm_compute in
    built (Card.__init__ "Grizzly Bears" "1G" "Creature" "Bear" "2" "2" "" None).

(** [Darksteel Myr;3;Artifact Creature;Myr;0;1;Indestructible] *)
Definition myr : Card.t :=
  Eval vm_compute in
    built (Card.__init__ "Darksteel Myr" "3" "Artifact Creature" "Myr" "0" "1"
             "Indestructible" None).

(** [Abzan Guide;3WBG;Creature;Human Warrior;4;4;Lifelink\ Morph 2WBG] *)
Definition guide : Card.t :=
  Eval vm_compute in
    built (Card.__init__ "Abzan Guide" "3WBG" "Creature" "Human Warrior" "4" "4"
             "Lifelink\ Morph 2WBG" None).

(** [Shock;R;Instant;;;;Shock deals 2 damage to any target.] *)
Definition shock : Card.t :=
  Eval vm_compute in
    built (Card.__init__ "Shock" "R" "Instant" "" "" ""
             "Shock deals 2 damage to any target." None).

(** The token [buildTokens] makes for a 1/1 Soldier:
    [Card("Soldier", "", "Token Creature", "Soldier", 1, 1, "", None)]. *)
Definition soldier : Card.t :=
  Eval vm_compute in
    built (Card.__init__ "Soldier" "" "Token Creature" "Soldier" "1" "1" "" None).

(** [Jace Beleren;1UU;Planeswalker;Jace;3;;] *)
Definition jace : Card.t :=
  Eval vm_compute in
    built (Card.__init__ "Jace Beleren" "1UU" "Planeswalker" "Jace" "3" "" "" None).

(** A transform card as [load] builds it from its two decklist lines:
    both halves are marked with [setTransform] and the second is linked
    to the first as its back side.
    [Westvale Abbey;;Land;;;;T: Add C.;TRANSFORM;Ormendahl, Profane Prince]
    [Ormendahl, Profane Prince;TRANSFORM;Legendary Creature;Demon;9;7;
     Flying, lifelink, indestructible, haste;TRANSFORM;Westvale Abbey] *)
Definition ormendahl : Card.t :=
  Eval vm_compute in
    Card.setTransform
      (built (Card.__init__ "Ormendahl, Profane Prince" "TRANSFORM" "Legendary Creature"
                "Demon" "9" "7" "Flying, lifelink, indestructible, haste"
                (Some "Westvale Abbey"))).

Definition abbey : Card.t :=
  Eval vm_compute in
    Card.linkBackSide ormendahl
      (Card.setTransform
         (built (Card.__init__ "Westvale Abbey" "" "Land" "" "" "" "T: Add C."
                   (Some "Ormendahl, Profane Prince")))).

(** [Jace, Vryn's Prodigy;1U;Legendary Creature;Human Wizard;0;2;;TRANSFORM;
     Jace, Telepath Unbound]
    [Jace, Telepath Unbound;TRANSFORM;Planeswalker;Jace;5;;;TRANSFORM;
     Jace, Vryn's Prodigy] *)
Definition telepath : Card.t :=
  Eval vm_compute in
    Card.setTransform
      (built (Card.__init__ "Jace, Telepath Unbound" "TRANSFORM" "Planeswalker"
                "Jace" "5" "" "" (Some "Jace, Vryn's Prodigy"))).

Definition prodigy : Card.t :=
  Eval vm_compute in
    Card.linkBackSide telepath
      (Card.setTransform
         (built (Card.__init__ "Jace, Vryn's Prodigy" "1U" "Legendary Creature"
                   "Human Wizard" "0" "2" "" (Some "Jace, Telepath Unbound")))).

(** A card as it is once drawn, and once played from the hand. *)
Definition drawn (c : Card.t) : Card.t := built (Card.draw c).
Definition played (c : Card.t) : Card.t := Card.play (drawn c).

(** A shuffle that is easy to recognise: it reverses the library. *)
Definition reversing (_ : nat) (l : list Play.ref) : list Play.ref := rev l.

(** A two-player game of 20 life with the given cards as its deck, all
    of them in the library in deck order. *)
Definition loaded (cards : list Card.t) : Play.Game :=
  {| Play.heap := cards;
     Play.deck := seq 0 (length cards);
     Play.library := seq 0 (length cards);
     Play.field := []; Play.hand := []; Play.grave := []; Play.exiled := [];
     Play.commander := None;
     Play.p1Life := 20; Play.p1Poison := 0; Play.p1Commander := 0;
     Play.p2Life := 20; Play.p2Poison := 0; Play.p2Commander := 0;
     Play.p1Win := false; Play.p2Win := false; Play.GAME_OVER := false;
     Play.revealed := false; Play.commandPlayCount := 0;
     Play.stdout := []; Play.rng := 0 |}.

(** The card a reference points to, for reading a scenario's result. *)
Definition card_at (g : Play.Game) (r : Play.ref) : Card.t :=
  match Play.heap g !! r with
  | Some c => c
  | None => Card.morph_card
  end.

End Sample.
(* ------------------------------------------------------------------- *)
(** *** Vocabulary of the further properties *)

(** A zone whose name contains the string, letter case apart. *)
Definition zone_matches (s : string) (z : Card.Zone) : bool :=
  contains (lower s) (lower (Card.zone_name z)).

(** The name a card shows, for reading what [top] prints. *)
Definition shown_name (g : Play.Game) (r : Play.ref) : string :=
  match Play.heap g !! r with
  | Some c => match Card.name c with
              | Ok nm => nm
              | Raise _ => ""
              end
  | None => ""
  end.

(** The thresholds of [modStat]: a life total of 0 or less, 10 poison
    counters, more than 20 commander damage. The test made is the one
    of the statistic that was changed. *)
Definition loses (stat : string) (life poison cmdr number : Z) : bool :=
  (String.eqb stat "life" && (life + number <=? 0)%Z)
  || (String.eqb stat "poison" && (10 <=? poison + number)%Z)
  || (String.eqb stat "commander" && (20 <? cmdr + number)%Z).

(** [raises_only P m]: whatever [m] raises satisfies [P]. *)
Definition raises_only (P : exn -> Prop) {A : Type} (m : Play.M A) : Prop :=
  forall g g1 e, m g = (g1, Raise e) -> P e.

(** An exception that is not a [CardNotFoundError]. *)
Definition not_missing (e : exn) : Prop := forall msg, e <> CardNotFoundError msg.

(** A card that [untapAll] passes over: its text says that it does not
    untap during the untap step. *)
Definition stays_tapped (c : Card.t) : bool :=
  match Card.name c, Card.rulestext c with
  | Ok nm, Ok text =>
      contains (String.append nm " doesn't untap during your untap step") text
  | _, _ => false
  end.

(** The card [Card.move(Card.LIBRARY)] makes of a card, the card itself
    when the move is refused; and the cards of the deck that
    [reshuffle] puts back, all but the commander. *)
Definition to_library (c : Card.t) : Card.t :=
  match Card.move Card.LIBRARY c with
  | Ok c1 => c1
  | Raise _ => c
  end.

Definition goes_back (g : Play.Game) (r : Play.ref) : bool :=
  match Play.heap g !! r with
  | Some c => negb (Card.commander c)
  | None => false
  end.

(** What [getCard] makes of the words of a command: whether they name
    a card type, the test a card name has to pass (equality for a name
    given in double quotes, containment otherwise, letter case apart),
    and the cards of a zone that pass it, in the order of the zone. *)
Definition names_a_type (cardname : string) : bool :=
  existsb (fun typeName => String.eqb (lower cardname) (lower typeName)
                           && negb (String.eqb typeName Card.EMBLEM)) Card.TYPES.

Definition unquoted (cardname : string) : string :=
  if Play.quoted cardname then drop_last (drop_first cardname) else cardname.

Definition asked (cardname : string) : string -> bool :=
  if Play.quoted cardname
  then String.eqb (lower (unquoted cardname))
  else contains (lower (unquoted cardname)).

Definition candidates (g : Play.Game) (cardname : string) (zone : list Play.ref)
  : list Play.ref :=
  List.filter (fun r => asked cardname (lower (shown_name g r))) zone.

(** What [sacrifice] and [exile] make of the game when they take the
    card [r] off the battlefield: [c1] is the card after [Card.move],
    [f1] the battlefield without it, [dest] the list it is bound for. *)
Definition taken_state (dest : Play.zlist) (r : Play.ref) (c1 : Card.t) (token : bool)
           (f1 : list Play.ref) (g : Play.Game) : Play.Game :=
  let g1 := Play.set_field f1 (Play.set_heap (<[r := c1]> (Play.heap g)) g) in
  if negb token && negb (Play.is_commander r g)
  then Play.zlist_set dest (r :: Play.zlist_get dest g) g1
  else g1.

(** [anthem_only g g1]: the game [g1] differs from [g] at most in the
    anthem bonuses of cards of the battlefield. *)
Definition anthem_only (g g1 : Play.Game) : Prop :=
  Play.set_heap [] g1 = Play.set_heap [] g
  /\ length (Play.heap g1) = length (Play.heap g)
  /\ forall r,
       Play.heap g1 !! r = Play.heap g !! r
       \/ (In r (Play.field g)
           /\ exists c c1, Play.heap g !! r = Some c /\ Play.heap g1 !! r = Some c1
                           /\ Card.resetAnthem c1 = Card.resetAnthem c).

(** Combat, as [attack] counts it: the damage of an attacker is its
    power, twice with Double strike; it goes to the poison total if
    the attacker has Infect, otherwise to the commander total if the
    attacker is the commander of the game and to the plain total if
    not. The triple holds the plain, the commander and the poison
    totals. *)
Definition blow (g : Play.Game) (totals : Z * Z * Z) (r : Play.ref) : Z * Z * Z :=
  match Play.heap g !! r with
  | Some c =>
      match Card.power c with
      | Ok (Some p) =>
          let d := if str_in Card.DOUBLESTRIKE (Card.keywords c) then (p + p)%Z else p in
          let '(total, totalCommander, poison) := totals in
          if negb (str_in Card.INFECT (Card.keywords c)) then
            if Play.is_commander r g
            then (total, (totalCommander + d)%Z, poison)
            else ((total + d)%Z, totalCommander, poison)
          else (total, totalCommander, (poison + d)%Z)
      | _ => totals
      end
  | None => totals
  end.

Definition combat (g : Play.Game) (attackers : list Play.ref) : Z * Z * Z :=
  fold_left (blow g) attackers (0%Z, 0%Z, 0%Z).


(* ===================================================================== *)
(** ** Properties of the card entity *)
(* ===================================================================== *)

(** The string tests stay folded when card terms are simplified. *)
#[local] Arguments Py.contains : simpl never.
#[local] Arguments Py.str_in : simpl never.
#[local] Arguments String.eqb : simpl never.

Section CardAccessors.

Variable c : Card.t.

(** Whatever [power] returns for a creature has been clamped. *)
Lemma power_never_negative (v : Z) :
  Card.power c = Ok (Some v) -> (0 <= v)%Z.
Proof.
  unfold Card.power, Card.back_attr, Card.attr, rbind.
  destruct (contains Card.CREATURE (Card.__type c)); [|discriminate].
  destruct (Card.flipped c).
  - destruct (Card.__backSide c) as [| |b]; try discriminate.
    destruct (Card.__power b) as [p|]; [|discriminate].
    destruct (Z.ltb_spec (p + Card.__powerMod c + Card.__anthemPowerBonus c
                            + Card.__plusone c) 0);
      intros [= <-]; lia.
  - destruct (Card.__power c) as [p|]; [|discriminate].
    destruct (Z.ltb_spec (p + Card.__powerMod c + Card.__anthemPowerBonus c
                            + Card.__plusone c) 0);
      intros [= <-]; lia.
Qed.

Lemma toughness_never_negative (v : Z) :
  Card.toughness c = Ok (Some v) -> (0 <= v)%Z.
Proof.
  unfold Card.toughness, Card.back_attr, Card.attr, rbind.
  destruct (contains Card.CREATURE (Card.__type c)); [|discriminate].
  destruct (Card.flipped c).
  - destruct (Card.__backSide c) as [| |b]; try discriminate.
    destruct (Card.__toughness b) as [p|]; [|discriminate].
    destruct (Z.ltb_spec (p + Card.__toughnessMod c + Card.__anthemToughnessBonus c
                            + Card.__plusone c) 0);
      intros [= <-]; lia.
  - destruct (Card.__toughness c) as [p|]; [|discriminate].
    destruct (Z.ltb_spec (p + Card.__toughnessMod c + Card.__anthemToughnessBonus c
                            + Card.__plusone c) 0);
      intros [= <-]; lia.
Qed.

(** An attribute of the showing face, as the accessors reach it. *)
Lemma showing_attr {A : Type} (f : Card.t -> A) (face : Card.t) :
  showing c = Some face ->
  (if Card.flipped c then Card.back_attr f c else Ok (f c)) = Ok (f face).
Proof.
  unfold showing, Card.back_attr.
  destruct (Card.flipped c).
  - destruct (Card.__backSide c); congruence.
  - congruence.
Qed.

(** [showing] is the card itself, or the linked back face exactly
    while the card is transformed or face-down. *)
Lemma showing_face (face : Card.t) :
  showing c = Some face ->
  (Card.__transformed c = false -> Card.__facedown c = false -> face = c) /\
  (Card.__transformed c = true \/ Card.__facedown c = true ->
   Card.__backSide c = Card.BackCard face).
Proof.
  unfold showing, Card.flipped.
  destruct (Card.__transformed c), (Card.__facedown c); simpl;
    destruct (Card.__backSide c); intros H; split; intros; try congruence;
    try (destruct H0; congruence); intuition congruence.
Qed.

(** The accessors that substitute the back face: name, colour, type
    line, subtype and rules text are those of the showing face. *)
Lemma accessors_follow_showing_face (face : Card.t) :
  showing c = Some face ->
  Card.name c = Ok (Card.__name face) /\
  Card.color c = Ok (Card.__color face) /\
  Card.type c = Ok (Card.__type face) /\
  Card.subtype c = Ok (Card.__subtype face) /\
  Card.rulestext c = Ok (Card.__text face).
Proof.
  intros H. unfold Card.name, Card.color, Card.type, Card.subtype, Card.rulestext.
  rewrite !(showing_attr _ face H). auto.
Qed.

(** The keyword accessor reads this card's own three lists whatever
    face is showing. *)
Lemma keywords_own_lists :
  Card.keywords c
  = Card.__keywords c ++ Card.__anthemKeywordMod c ++ Card.__keywordMods c.
Proof. reflexivity. Qed.

End CardAccessors.

(** Where the front face is a creature and the showing face has a
    power and a toughness, [power] returns
    [max 0 (base power + temporary power delta + anthem power bonus +
    +1/+1 delta)] and [toughness] the same with the toughness terms and
    the same +1/+1 delta, the base values being those of the showing
    face; neither accessor ever returns a negative value. *)
Lemma effective_power_toughness (c face : Card.t) (bp bt : Z) :
  contains Card.CREATURE (Card.__type c) = true ->
  showing c = Some face ->
  Card.__power face = Some bp ->
  Card.__toughness face = Some bt ->
  Card.power c
  = Ok (Some (Z.max 0 (bp + Card.__powerMod c + Card.__anthemPowerBonus c
                       + Card.__plusone c)))
  /\ Card.toughness c
     = Ok (Some (Z.max 0 (bt + Card.__toughnessMod c + Card.__anthemToughnessBonus c
                          + Card.__plusone c)))
  /\ (forall v, Card.power c = Ok (Some v) -> (0 <= v)%Z)
  /\ (forall v, Card.toughness c = Ok (Some v) -> (0 <= v)%Z).
Proof.
  intros Hcreature Hface Hp Ht.
  split; [|split; [|split]].
  - unfold Card.power. rewrite Hcreature.
    replace (if Card.flipped c
             then rbind (Card.back_attr Card.__power c) _
             else rbind (Card.attr (Card.__power c)) _)
      with (Ok (bp + Card.__powerMod c + Card.__anthemPowerBonus c + Card.__plusone c)%Z).
    + simpl. destruct (Z.ltb_spec (bp + Card.__powerMod c + Card.__anthemPowerBonus c
                                     + Card.__plusone c) 0); do 2 f_equal; lia.
    + unfold showing, Card.back_attr in *. destruct (Card.flipped c).
      * destruct (Card.__backSide c); try discriminate.
        injection Hface as ->. simpl. now rewrite Hp.
      * injection Hface as ->. now rewrite Hp.
  - unfold Card.toughness. rewrite Hcreature.
    replace (if Card.flipped c
             then rbind (Card.back_attr Card.__toughness c) _
             else rbind (Card.attr (Card.__toughness c)) _)
      with (Ok (bt + Card.__toughnessMod c + Card.__anthemToughnessBonus c
                + Card.__plusone c)%Z).
    + simpl. destruct (Z.ltb_spec (bt + Card.__toughnessMod c
                                     + Card.__anthemToughnessBonus c
                                     + Card.__plusone c) 0); do 2 f_equal; lia.
    + unfold showing, Card.back_attr in *. destruct (Card.flipped c).
      * destruct (Card.__backSide c); try discriminate.
        injection Hface as ->. simpl. now rewrite Ht.
      * injection Hface as ->. now rewrite Ht.
  - apply power_never_negative.
  - apply toughness_never_negative.
Qed.

(** Grizzly Bears in play after [modPower(-5)]: power 2 - 5 is reported
    as 0, toughness stays 2. *)
Lemma effective_power_toughness_bears :
  Card.power (Card.modPower (-5) (Sample.played Sample.bears)) = Ok (Some 0%Z)
  /\ Card.toughness (Card.modPower (-5) (Sample.played Sample.bears)) = Ok (Some 2%Z).
Proof.
  destruct (effective_power_toughness
              (Card.modPower (-5) (Sample.played Sample.bears))
              (Card.modPower (-5) (Sample.played Sample.bears))
              2 2 eq_refl eq_refl eq_refl eq_refl) as (Hp & Ht & _).
  split; [exact Hp | exact Ht].
Qed.

(** C1. Westvale Abbey is a land whose back face is the 9/7 creature
    Ormendahl. Transformed on the battlefield it answers as Ormendahl
    by name and type line, so it is a creature card, but [power] and
    [toughness] return [None]: both test "Creature" on the type line
    of the front face and then read the value of the back face. By the
    same test Jace, Vryn's Prodigy, a creature whose back face is a
    planeswalker, raises an [AttributeError] once transformed. *)
Theorem C1_power_tests_the_front_face :
  let abbey := Card.transform (Sample.played Sample.abbey) in
  let jace := Card.transform (Sample.played Sample.prodigy) in
  Card.zone abbey = Card.BATTLEFIELD
  /\ Card.name abbey = Ok "Ormendahl, Profane Prince"
  /\ Card.type abbey = Ok "Legendary Creature"
  /\ (exists face,
        showing abbey = Some face
        /\ Card.__power face = Some 9%Z /\ Card.__toughness face = Some 7%Z)
  /\ Card.power abbey = Ok None
  /\ Card.toughness abbey = Ok None
  /\ Card.type jace = Ok "Planeswalker"
  /\ Card.power jace = Raise AttributeError
  /\ Card.toughness jace = Raise AttributeError.
Proof.
  cbv zeta. repeat split; try reflexivity.
  eexists. split; [reflexivity|]. split; reflexivity.
Qed.


(** C10. The counters accessor returns base counters + counter delta +
    the absolute value of the +1/+1 delta, the base counters being those
    of the back face while the card is transformed or face-down; a
    negative +1/+1 delta therefore adds its magnitude. *)
Theorem C10_counters_accessor (c face : Card.t) :
  showing c = Some face ->
  Card.counters c
  = Ok (Card.__counters face + Card.__countersMod c + Z.abs (Card.__plusone c))%Z
  /\ ((Card.__plusone c < 0)%Z ->
      Card.counters c
      = Ok (Card.__counters face + Card.__countersMod c - Card.__plusone c)%Z)
  /\ (Card.__transformed c = false -> Card.__facedown c = false -> face = c)
  /\ (Card.__transformed c = true \/ Card.__facedown c = true ->
      Card.__backSide c = Card.BackCard face).
Proof.
  intros Hface.
  assert (Hc : Card.counters c
               = Ok (Card.__counters face + Card.__countersMod c
                     + Z.abs (Card.__plusone c))%Z).
  { unfold Card.counters, showing, Card.back_attr in *.
    destruct (Card.flipped c).
    - destruct (Card.__backSide c); try discriminate.
      now injection Hface as ->.
    - now injection Hface as ->. }
  split; [exact Hc|]. split.
  - intros Hneg. rewrite Hc. do 2 f_equal. lia.
  - apply showing_face, Hface.
Qed.

(** Grizzly Bears in play with one -1/-1 counter report one counter. *)
Lemma C10_witness :
  Card.counters (Card.modPlusOne (-1) (Sample.played Sample.bears)) = Ok 1%Z.
Proof.
  exact (proj1 (C10_counters_accessor
                  (Card.modPlusOne (-1) (Sample.played Sample.bears))
                  (Card.modPlusOne (-1) (Sample.played Sample.bears))
                  eq_refl)).
Defined.

(** C2. Abzan Guide (Lifelink, Morph) played face-down shows the linked
    2/2 Morph token: name, type, power and toughness are the token's,
    and the token has no keyword. [keywords] nevertheless returns the
    front face's Lifelink and Morph: unlike every other accessor it does
    not read the back face. *)
Theorem C2_keywords_not_redirected :
  let c := Card.morph (Sample.played Sample.guide) in
  Card.facedown c = true
  /\ showing c = Some Card.morph_card
  /\ Card.name c = Ok "Morph"
  /\ Card.type c = Ok "Creature"
  /\ Card.power c = Ok (Some 2%Z)
  /\ Card.toughness c = Ok (Some 2%Z)
  /\ Card.keywords Card.morph_card = []
  /\ Card.keywords c = ["Lifelink"; "Morph"].
Proof. vm_compute. repeat split. Qed.

Section StatMutators.

Variables (c : Card.t) (n : Z).

(** The four stat mutators test the zone first. *)
Lemma stat_mutators_noop_off_battlefield :
  Card.__zone c <> Card.BATTLEFIELD ->
  Card.modPower n c = c /\ Card.modToughness n c = c
  /\ Card.modCounters n c = c /\ Card.modPlusOne n c = c.
Proof.
  intros Hz.
  unfold Card.modPower, Card.modToughness, Card.modCounters, Card.modPlusOne.
  rewrite (bool_decide_eq_false_2 _ Hz), andb_false_r.
  destruct (decide (Card.__zone c = Card.BATTLEFIELD)); [contradiction|auto].
Qed.

(** On the battlefield [modCounters] stops at zero counters. *)
Lemma modCounters_floor :
  Card.__zone c = Card.BATTLEFIELD ->
  (0 <= Card.__counters (Card.modCounters n c)
        + Card.__countersMod (Card.modCounters n c))%Z.
Proof.
  intros Hz. unfold Card.modCounters.
  destruct (decide (Card.__zone c = Card.BATTLEFIELD)); [|contradiction].
  destruct c; cbn.
  match goal with |- context [Z.ltb ?a 0] => destruct (Z.ltb_spec a 0) end;
    cbn; lia.
Qed.

End StatMutators.

(** C3. Grizzly Bears in the hand are changed by the keyword grant:
    [modKeywords] has no zone test, so "Flying" is recorded and "Haste"
    also clears summoning sickness, although the card is not on the
    battlefield. The other four mutators leave the same card alone. *)
Theorem C3_modKeywords_off_battlefield :
  let c := Sample.drawn Sample.bears in
  Card.zone c = Card.HAND
  /\ Card.modPower 1 c = c /\ Card.modToughness 1 c = c
  /\ Card.modCounters 1 c = c /\ Card.modPlusOne 1 c = c
  /\ Card.modKeywords "Flying" c <> c
  /\ Card.keywords (Card.modKeywords "Flying" c) = ["Flying"]
  /\ Card.__summoningSickness c = true
  /\ Card.__summoningSickness (Card.modKeywords "Haste" c) = false.
Proof.
  cbv zeta. repeat split; try reflexivity.
  intros H. apply (f_equal Card.__keywordMods) in H. discriminate H.
Qed.

(** C5. Vendilion Clique has Flash and Flying on two lines: the second
    line adds the first line's Flash again. Kitchen Finks has Persist on
    the line after its triggered ability: the earlier line disqualifies
    it. The same keywords on a line of their own are read once. *)
Theorem C5_keyword_lines_not_independent :
  Card.__keywords
    (Sample.built (Card.__init__ "Vendilion Clique" "1UU" "Creature" "Faerie Wizard"
                     "3" "1" "Flash\ Flying" None))
  = ["Flash"; "Flash"; "Flying"]
  /\ Card.__keywords
       (Sample.built (Card.__init__ "Kitchen Finks" "1GW" "Creature" "Ouphe" "3" "2"
          "When Kitchen Finks enters the battlefield, you gain 2 life.\ Persist" None))
     = []
  /\ Card.keyword_pass "Persist" [] = ["Persist"]
  /\ Card.keyword_pass "Flash, flying" [] = ["Flash"; "Flying"].
Proof. vm_compute. repeat split. Qed.

Section Leaving.

Variable c : Card.t.

(** What [leave] does reset. *)
Lemma leave_resets :
  Card.__powerMod (Card.leave c) = 0%Z
  /\ Card.__toughnessMod (Card.leave c) = 0%Z
  /\ Card.__countersMod (Card.leave c) = 0%Z
  /\ Card.tapped (Card.leave c) = false
  /\ (contains Card.CREATURE (Card.__type c) = true ->
      str_in Card.HASTE (Card.__keywords c) = false ->
      Card.__summoningSickness (Card.leave c) = true)
  /\ (Card.__flip c = true -> Card.__transformed c = true ->
      Card.__transformed (Card.leave c) = false).
Proof.
  unfold Card.leave, Card.transform, Card.tapped.
  destruct (Card.__transformed c) eqn:Ht, (Card.__facedown c) eqn:Hf,
           (Card.__flip c) eqn:Hflip; cbn;
    destruct c; cbn in *;
    match goal with
    | |- context [contains ?a ?b] => destruct (contains a b)
    end;
    match goal with
    | |- context [str_in ?a ?b] => destruct (str_in a b)
    end; cbn; repeat split; intros; congruence.
Qed.

(** [leave] never writes the face-down flag. *)
Lemma leave_keeps_facedown :
  Card.__facedown (Card.leave c) = Card.__facedown c.
Proof.
  unfold Card.leave, Card.transform.
  destruct (Card.__transformed c || Card.__facedown c), (Card.__flip c);
    destruct c; cbn;
    match goal with
    | |- context [if ?b then _ else _] => destruct b
    end; reflexivity.
Qed.

End Leaving.

(** C7. Abzan Guide played face-down and then taking [leave] (here also
    through [move] to the hand) is untapped and has its modifiers reset,
    but it is still face-down and still answers as the Morph token:
    [leave] calls [transform], which only toggles [__transformed] and
    only on a transform card. *)
Theorem C7_leave_keeps_face_down :
  let c := Card.morph (Sample.played Sample.guide) in
  Card.zone c = Card.BATTLEFIELD
  /\ Card.facedown c = true
  /\ Card.facedown (Card.leave c) = true
  /\ Card.name (Card.leave c) = Ok "Morph"
  /\ (exists c1, Card.move Card.HAND c = Ok c1
                 /\ Card.zone c1 = Card.HAND /\ Card.facedown c1 = true).
Proof.
  cbv zeta. repeat split; try reflexivity.
  eexists. split; [reflexivity|]. split; reflexivity.
Qed.

(* ===================================================================== *)
(** ** Reasoning about commands *)
(* ===================================================================== *)

Import Play.
#[local] Open Scope play_scope.

(** A command that ran to the end did so through each of its parts. *)
Lemma bind_ok {A B : Type} (m : M A) (k : A -> M B) (g g2 : Game) (b : B) :
  bind m k g = (g2, Ok b) ->
  exists a g1, m g = (g1, Ok a) /\ k a g1 = (g2, Ok b).
Proof.
  unfold bind. destruct (m g) as [g1 [a|e]]; [eauto|discriminate].
Qed.

Lemma bind_run {A B : Type} (m : M A) (k : A -> M B) (g g1 : Game) (a : A) :
  m g = (g1, Ok a) -> bind m k g = k a g1.
Proof. unfold bind. now intros ->. Qed.

(** *** Relations that every step of a command respects

    With [R] a preorder, [keeps R] goes through sequencing, branching
    and loops. *)

Section Keeps.

Variable R : Game -> Game -> Prop.
Hypothesis R_refl : forall g, R g g.
Hypothesis R_trans : forall g1 g2 g3, R g1 g2 -> R g2 g3 -> R g1 g3.

Lemma keeps_ret {A : Type} (a : A) : keeps R (ret a).
Proof. intros g. apply R_refl. Qed.

Lemma keeps_raise {A : Type} (e : exn) : keeps R (raise (A:=A) e).
Proof. intros g. apply R_refl. Qed.

Lemma keeps_gets {A : Type} (f : Game -> A) : keeps R (gets f).
Proof. intros g. apply R_refl. Qed.

Lemma keeps_lift {A : Type} (r : result A) : keeps R (lift r).
Proof. intros g. apply R_refl. Qed.

Lemma keeps_deref (r : ref) : keeps R (deref r).
Proof. intros g. unfold deref. destruct (heap g !! r); apply R_refl. Qed.

Lemma keeps_modify (f : Game -> Game) : (forall g, R g (f g)) -> keeps R (modify f).
Proof. intros H g. apply H. Qed.

Lemma keeps_bind {A B : Type} (m : M A) (k : A -> M B) :
  keeps R m -> (forall a, keeps R (k a)) -> keeps R (bind m k).
Proof.
  intros Hm Hk g. unfold bind.
  specialize (Hm g). destruct (m g) as [g1 [a|e]]; simpl in *.
  - eapply R_trans; [exact Hm|apply Hk].
  - exact Hm.
Qed.

Lemma keeps_bind_ret {A B : Type} (a : A) (k : A -> M B) :
  keeps R (k a) -> keeps R (bind (ret a) k).
Proof. intros H g. apply H. Qed.

Lemma keeps_bind_raise {A B : Type} (e : exn) (k : A -> M B) :
  keeps R (bind (raise e) k).
Proof. intros g. apply R_refl. Qed.

Lemma keeps_bind_assoc {A B C : Type} (m : M A) (f : A -> M B) (k : B -> M C) :
  keeps R (bind m (fun a => bind (f a) k)) -> keeps R (bind (bind m f) k).
Proof.
  intros H g. specialize (H g). unfold bind in *.
  destruct (m g) as [g1 [a|e]]; exact H.
Qed.

Lemma keeps_when (b : bool) (m : M unit) : keeps R m -> keeps R (when b m).
Proof. intros H. destruct b; [exact H|apply keeps_ret]. Qed.

Lemma keeps_for_each {A : Type} (l : list A) (body : A -> M unit) :
  (forall x, keeps R (body x)) -> keeps R (for_each l body).
Proof.
  intros H. induction l as [|x l IH]; simpl.
  - apply keeps_ret.
  - apply keeps_bind; auto.
Qed.

Lemma keeps_the_card (card : arg) : keeps R (the_card card).
Proof. destruct card; [apply keeps_ret|apply keeps_raise]. Qed.

Lemma keeps_query {A : Type} (r : ref) (f : Card.t -> result A) : keeps R (query r f).
Proof.
  apply keeps_bind; [apply keeps_deref|intros; apply keeps_lift].
Qed.

(** Commands built from the steps below keep [R] as soon as the
    writes they make do. *)
Hypothesis R_heap : forall g h, R g (set_heap h g).

Lemma keeps_store (r : ref) (c : Card.t) : keeps R (store r c).
Proof. apply keeps_modify. intros g. apply R_heap. Qed.

Lemma keeps_call (r : ref) (f : Card.t -> Card.t) : keeps R (call r f).
Proof.
  apply keeps_bind; [apply keeps_deref|intros; apply keeps_store].
Qed.

Lemma keeps_call_raising (r : ref) (f : Card.t -> result Card.t) :
  keeps R (call_raising r f).
Proof.
  apply keeps_bind; [apply keeps_deref|intros].
  apply keeps_bind; [apply keeps_lift|intros; apply keeps_store].
Qed.

Lemma keeps_zremove (z : zlist) (r : ref) :
  (forall g l, R g (zlist_set z l g)) -> keeps R (zremove z r).
Proof.
  intros H. apply keeps_bind; [apply keeps_gets|intros l].
  destruct (list_remove r l); [apply keeps_modify; intros; apply H|apply keeps_raise].
Qed.

Lemma keeps_zpop0 (z : zlist) :
  (forall g l, R g (zlist_set z l g)) -> keeps R (zpop0 z).
Proof.
  intros H. apply keeps_bind; [apply keeps_gets|intros l].
  destruct l; [apply keeps_raise|].
  apply keeps_bind; [apply keeps_modify; intros; apply H|intros; apply keeps_ret].
Qed.

Lemma keeps_getCard_loop (wanted : string -> bool) (zone : list ref)
      (skip : Z) (ret0 : option ref) :
  keeps R (getCard_loop wanted zone skip ret0).
Proof.
  revert skip ret0. induction zone as [|card rest IH]; intros skip ret0; simpl.
  - apply keeps_ret.
  - apply keeps_bind; [apply keeps_query|intros nm].
    destruct (wanted (lower nm)); [destruct (skip =? 0)%Z|]; auto using keeps_ret.
Qed.

Lemma keeps_getCard (args : list string) (zone : option (list ref))
      (cmd : option string) :
  keeps R (getCard args zone cmd).
Proof.
  unfold getCard.
  destruct (last args) as [final|]; [|apply keeps_raise].
  destruct (match int final with Ok _ => _ | Raise _ => _ end) as [skip cardname].
  destruct (if String.eqb cardname "card" then zone else None) as [[|first l]|];
    try apply keeps_ret.
  all: destruct (find _ Card.TYPES); try apply keeps_ret.
  all: destruct zone as [[|z0 zs]|]; try apply keeps_raise.
  all: repeat (apply keeps_bind; [try apply keeps_gets|intros]).
  all: repeat match goal with
         | |- keeps R (if ?b then _ else _) => destruct b
         | |- keeps R (match ?x with _ => _ end) => destruct x
         | |- keeps R (ret _) => apply keeps_ret
         | |- keeps R (raise _) => apply keeps_raise
         | |- keeps R (gets _) => apply keeps_gets
         | |- keeps R (query _ _) => apply keeps_query
         | |- keeps R (getCard_loop _ _ _ _) => apply keeps_getCard_loop
         | |- keeps R (bind _ _) => apply keeps_bind; [|intros]
         end.
Qed.

End Keeps.

(** Reading never writes: [getCard] and the accessors leave the state
    as it is. *)
Lemma getCard_reads (args : list string) (zone : option (list ref))
      (cmd : option string) (g : Game) :
  fst (getCard args zone cmd g) = g.
Proof.
  symmetry. apply (keeps_getCard eq); [reflexivity|intros; congruence].
Qed.

Lemma query_reads {A : Type} (r : ref) (f : Card.t -> result A) (g : Game) :
  fst (query r f g) = g.
Proof.
  symmetry. apply (keeps_query eq); [reflexivity|intros; congruence].
Qed.

Create HintDb keeps discriminated.

#[local] Hint Resolve keeps_ret keeps_raise keeps_gets keeps_lift keeps_deref
  keeps_query keeps_the_card keeps_store keeps_call keeps_call_raising
  keeps_getCard keeps_getCard_loop : keeps.

(** Walks through the control structure of a command, leaving the
    writes it meets as goals. *)
Ltac keeps_structure :=
  repeat (intros;
          match goal with
          | |- keeps _ (bind (ret _) _) => apply keeps_bind_ret; cbv beta iota
          | |- keeps _ (bind (raise _) _) =>
              eapply keeps_bind_raise; solve [eauto with keeps]
          | |- keeps _ (bind (bind _ _) _) => apply keeps_bind_assoc
          | |- keeps _ (bind (match ?x with _ => _ end) _) => destruct x
          | |- keeps _ (bind _ _) => eapply keeps_bind; [solve [eauto with keeps].. | | ]
          | |- keeps _ (when _ _) => eapply keeps_when; [solve [eauto with keeps].. | ]
          | |- keeps _ (for_each _ _) =>
              eapply keeps_for_each; [solve [eauto with keeps].. | ]
          | |- keeps _ (if ?b then _ else _) => destruct b
          | |- keeps _ (match ?x with _ => _ end) => destruct x
          | |- keeps _ _ => solve [eauto with keeps]
          end).

(** *** Lists that only grow at the front *)

Lemma newest_first_refl (l : list ref) : newest_first l l.
Proof. now exists []. Qed.

Lemma newest_first_trans (l1 l2 l3 : list ref) :
  newest_first l1 l2 -> newest_first l2 l3 -> newest_first l1 l3.
Proof.
  intros [n1 ->] [n2 ->]. exists (n2 ++ n1). now rewrite app_assoc.
Qed.

Lemma newest_first_cons (r : ref) (l : list ref) : newest_first l (r :: l).
Proof. now exists [r]. Qed.

Lemma piles_front_refl (g : Game) : piles_front g g.
Proof. split; apply newest_first_refl. Qed.

Lemma piles_front_trans (g1 g2 g3 : Game) :
  piles_front g1 g2 -> piles_front g2 g3 -> piles_front g1 g3.
Proof.
  intros [? ?] [? ?]. split; eapply newest_first_trans; eassumption.
Qed.

Lemma grave_front_refl (g : Game) : grave_front g g.
Proof. apply newest_first_refl. Qed.

Lemma grave_front_trans (g1 g2 g3 : Game) :
  grave_front g1 g2 -> grave_front g2 g3 -> grave_front g1 g3.
Proof. apply newest_first_trans. Qed.

#[local] Hint Resolve piles_front_refl piles_front_trans
  grave_front_refl grave_front_trans : keeps.

(** Writes that leave both piles alone, and the insertion at index 0. *)
Lemma piles_untouched (g g1 : Game) :
  grave g1 = grave g -> exiled g1 = exiled g -> piles_front g g1.
Proof.
  intros Hg He. split; red; rewrite ?Hg, ?He; apply newest_first_refl.
Qed.

Lemma grave_untouched (g g1 : Game) : grave g1 = grave g -> grave_front g g1.
Proof. intros Hg. red. rewrite Hg. apply newest_first_refl. Qed.

Lemma piles_heap (g : Game) (h : list Card.t) : piles_front g (set_heap h g).
Proof. destruct g. now apply piles_untouched. Qed.

Lemma grave_heap (g : Game) (h : list Card.t) : grave_front g (set_heap h g).
Proof. destruct g. now apply grave_untouched. Qed.

#[local] Hint Resolve piles_heap grave_heap : keeps.

Lemma piles_zinsert0 (z : zlist) (r : ref) : keeps piles_front (zinsert0 z r).
Proof.
  apply keeps_modify. intros g.
  destruct z, g; simpl; split; red; simpl;
    first [apply newest_first_refl | apply newest_first_cons].
Qed.

Lemma piles_zremove (z : zlist) (r : ref) :
  z <> Lgrave -> z <> Lexiled -> keeps piles_front (zremove z r).
Proof.
  intros H1 H2. eapply keeps_zremove; eauto with keeps.
  intros g l. destruct z, g; try contradiction; now apply piles_untouched.
Qed.

Lemma piles_zappend (z : zlist) (r : ref) :
  z <> Lgrave -> z <> Lexiled -> keeps piles_front (zappend z r).
Proof.
  intros H1 H2. apply keeps_modify. intros g.
  destruct z, g; try contradiction; now apply piles_untouched.
Qed.

Lemma piles_zpop0 (z : zlist) :
  z <> Lgrave -> z <> Lexiled -> keeps piles_front (zpop0 z).
Proof.
  intros H1 H2. eapply keeps_zpop0; eauto with keeps.
  intros g l. destruct z, g; try contradiction; now apply piles_untouched.
Qed.

Lemma piles_shuffle (permute : nat -> list ref -> list ref) :
  keeps piles_front (shuffle permute).
Proof. apply keeps_modify. intros g. destruct g. now apply piles_untouched. Qed.

Lemma piles_commandPlayCount :
  keeps piles_front
    (modify (fun g => set_commandPlayCount (commandPlayCount g + 1)%Z g)).
Proof. apply keeps_modify. intros g. destruct g. now apply piles_untouched. Qed.

#[local] Hint Resolve piles_zinsert0 piles_shuffle piles_commandPlayCount : keeps.
#[local] Hint Extern 1 (keeps piles_front (zremove _ _)) =>
  apply piles_zremove; discriminate : keeps.
#[local] Hint Extern 1 (keeps piles_front (zappend _ _)) =>
  apply piles_zappend; discriminate : keeps.
#[local] Hint Extern 1 (keeps piles_front (zpop0 _)) =>
  apply piles_zpop0; discriminate : keeps.

Lemma piles_bury (dest : zlist) (thing : ref) : keeps piles_front (bury dest thing).
Proof. unfold bury. keeps_structure. Qed.

Lemma piles_collect (ty : string) (spared : Card.t -> bool) (zone : Card.Zone)
      (things : list ref) :
  keeps piles_front (collect ty spared zone things).
Proof.
  induction things as [|thing rest IH]; simpl; keeps_structure.
Qed.

#[local] Hint Resolve piles_bury piles_collect : keeps.

Lemma piles_kill (card : arg) : keeps piles_front (kill card).
Proof. unfold kill. keeps_structure. Qed.

Lemma piles_exile (card : arg) : keeps piles_front (exile card).
Proof. unfold exile. keeps_structure. Qed.

Lemma piles_sacrifice (card : arg) : keeps piles_front (sacrifice card).
Proof. unfold sacrifice. keeps_structure. Qed.

Lemma piles_discard (card : arg) : keeps piles_front (discard card).
Proof. unfold discard. keeps_structure. Qed.

Lemma piles_dying (things : list ref) : keeps piles_front (dying things).
Proof.
  induction things as [|card rest IH]; simpl; keeps_structure.
Qed.

#[local] Hint Resolve piles_kill piles_dying : keeps.

Lemma piles_stateBased : keeps piles_front stateBased.
Proof. unfold stateBased. keeps_structure. Qed.

Lemma piles_play (permute : nat -> list ref -> list ref) (card : arg) :
  keeps piles_front (play permute card).
Proof. unfold play. keeps_structure. Qed.

(** [move] from any zone but the graveyard: the graveyard only grows at
    the front. *)
Lemma grave_zinsert0 (z : zlist) (r : ref) : keeps grave_front (zinsert0 z r).
Proof.
  apply keeps_modify. intros g.
  destruct z, g; red; simpl;
    first [apply newest_first_refl | apply newest_first_cons].
Qed.

Lemma grave_zremove (z : zlist) (r : ref) :
  z <> Lgrave -> keeps grave_front (zremove z r).
Proof.
  intros H1. eapply keeps_zremove; eauto with keeps.
  intros g l. destruct z, g; try contradiction; now apply grave_untouched.
Qed.

Lemma grave_zappend (z : zlist) (r : ref) :
  z <> Lgrave -> keeps grave_front (zappend z r).
Proof.
  intros H1. apply keeps_modify. intros g.
  destruct z, g; try contradiction; now apply grave_untouched.
Qed.

Lemma grave_shuffle (permute : nat -> list ref -> list ref) :
  keeps grave_front (shuffle permute).
Proof. apply keeps_modify. intros g. destruct g. now apply grave_untouched. Qed.

#[local] Hint Resolve grave_zinsert0 grave_shuffle : keeps.
#[local] Hint Extern 1 (keeps grave_front (zremove _ _)) =>
  apply grave_zremove; discriminate : keeps.
#[local] Hint Extern 1 (keeps grave_front (zappend _ _)) =>
  apply grave_zappend; discriminate : keeps.

Lemma grave_move (permute : nat -> list ref -> list ref) (fromZone toZone : string)
      (cardArgs : option (list string)) :
  getZoneNameFromString fromZone <> Some Card.GRAVEYARD ->
  keeps grave_front (move permute fromZone toZone cardArgs).
Proof.
  intros Hfrom. unfold move.
  destruct (getZoneNameFromString fromZone) as [fz|];
    [|auto with keeps].
  destruct (getZoneNameFromString toZone) as [tz|]; [|auto with keeps].
  destruct fz; try congruence; simpl; keeps_structure.
Qed.

(** *** Running a command that succeeded, step by step *)

Lemma ret_ok (g g1 : Game) {A : Type} (a b : A) :
  ret a g = (g1, Ok b) -> g1 = g /\ b = a.
Proof. unfold ret. intros [= <- <-]. auto. Qed.

Lemma gets_ok (g g1 : Game) {A : Type} (f : Game -> A) (b : A) :
  gets f g = (g1, Ok b) -> g1 = g /\ b = f g.
Proof. unfold gets. intros [= <- <-]. auto. Qed.

Lemma lift_ok (g g1 : Game) {A : Type} (r : result A) (b : A) :
  lift r g = (g1, Ok b) -> g1 = g /\ r = Ok b.
Proof. unfold lift. intros [= <- <-]. auto. Qed.

Lemma modify_ok (g g1 : Game) (f : Game -> Game) (u : unit) :
  modify f g = (g1, Ok u) -> g1 = f g.
Proof. unfold modify. now intros [= <-]. Qed.

Lemma deref_ok (g g1 : Game) (r : ref) (c : Card.t) :
  deref r g = (g1, Ok c) -> g1 = g /\ heap g !! r = Some c.
Proof.
  unfold deref. destruct (heap g !! r); [|discriminate].
  intros [= <- <-]. auto.
Qed.

Lemma query_ok (g g1 : Game) {A : Type} (r : ref) (f : Card.t -> result A) (a : A) :
  query r f g = (g1, Ok a) ->
  g1 = g /\ exists c, heap g !! r = Some c /\ f c = Ok a.
Proof.
  unfold query. intros H.
  apply bind_ok in H as (c & g2 & Hd & H).
  apply deref_ok in Hd as [-> Hd]. apply lift_ok in H as [-> H]. eauto.
Qed.

Lemma the_card_ok (g g1 : Game) (card : arg) (r : ref) :
  the_card card g = (g1, Ok r) -> g1 = g /\ card = Obj r.
Proof.
  destruct card; simpl; [|discriminate].
  unfold ret. intros [= <- <-]. auto.
Qed.

Lemma getCard_ok (g g1 : Game) (args : list string) (zone : option (list ref))
      (cmd : option string) (a : arg) :
  getCard args zone cmd g = (g1, Ok a) -> g1 = g.
Proof.
  intros H. pose proof (getCard_reads args zone cmd g) as Hr.
  now rewrite H in Hr.
Qed.

Lemma store_ok (g g1 : Game) (r : ref) (c : Card.t) (u : unit) :
  store r c g = (g1, Ok u) -> g1 = set_heap (<[r := c]> (heap g)) g.
Proof. unfold store. intros H. now apply modify_ok in H. Qed.

Lemma call_raising_ok (g g1 : Game) (r : ref) (f : Card.t -> result Card.t) (u : unit) :
  call_raising r f g = (g1, Ok u) ->
  exists c c1, heap g !! r = Some c /\ f c = Ok c1
               /\ g1 = set_heap (<[r := c1]> (heap g)) g.
Proof.
  unfold call_raising. intros H.
  apply bind_ok in H as (c & g2 & Hd & H). apply deref_ok in Hd as [-> Hd].
  apply bind_ok in H as (c1 & g3 & Hl & H). apply lift_ok in Hl as [-> Hl].
  apply store_ok in H. eauto.
Qed.

Lemma zremove_ok (g g1 : Game) (z : zlist) (r : ref) (u : unit) :
  zremove z r g = (g1, Ok u) ->
  exists l, list_remove r (zlist_get z g) = Some l /\ g1 = zlist_set z l g.
Proof.
  unfold zremove. intros H.
  apply bind_ok in H as (l & g2 & Hg & H). apply gets_ok in Hg as [-> ->].
  destruct (list_remove r (zlist_get z g)) as [l|]; [|discriminate].
  apply modify_ok in H. eauto.
Qed.


(** A guard of the command that is closed is evaluated; any other is
    split in its two cases. *)
Ltac decide_guard b H :=
  lazymatch b with
  | true => idtac
  | false => idtac
  | _ =>
      first
        [ let v := eval vm_compute in b in
          lazymatch v with
          | true => change b with true in H
          | false => change b with false in H
          end
        | let Hb := fresh "Hb" in destruct b eqn:Hb ]
  end.

(** Decomposes a hypothesis [H : m g = (g', Ok a)] along the structure
    of [m]. *)
Ltac exec H :=
  cbv beta iota in H;
  lazymatch type of H with
  | bind _ _ _ = (_, Ok _) =>
      let E := fresh "E" in
      apply bind_ok in H; destruct H as (? & ? & E & H); exec E; exec H
  | ret _ _ = (_, Ok _) => apply ret_ok in H; destruct H; subst
  | gets _ _ = (_, Ok _) => apply gets_ok in H; destruct H; subst
  | lift _ _ = (_, Ok _) => apply lift_ok in H; destruct H as [? H]; subst
  | raise _ _ = (_, Ok _) => discriminate H
  | deref _ _ = (_, Ok _) => apply deref_ok in H; destruct H as [? H]; subst
  | query _ _ _ = (_, Ok _) =>
      apply query_ok in H; destruct H as (? & ? & ? & H); subst
  | the_card _ _ = (_, Ok _) => apply the_card_ok in H; destruct H; subst
  | getCard _ _ _ _ = (_, Ok _) => apply getCard_ok in H; subst
  | zremove _ _ _ = (_, Ok _) =>
      apply zremove_ok in H; destruct H as (? & ? & H); subst
  | zappend _ _ _ = (_, Ok _) => apply modify_ok in H; subst
  | zinsert0 _ _ _ = (_, Ok _) => apply modify_ok in H; subst
  | shuffle _ _ = (_, Ok _) => apply modify_ok in H; subst
  | modify _ _ = (_, Ok _) => apply modify_ok in H; subst
  | call_raising _ _ _ = (_, Ok _) =>
      apply call_raising_ok in H; destruct H as (? & ? & ? & ? & H); subst
  | when ?b _ _ = (_, Ok _) =>
      decide_guard b H; unfold when in H; exec H
  | (if ?b then _ else _) _ = (_, Ok _) =>
      decide_guard b H; exec H
  | (match ?x with _ => _ end) _ = (_, Ok _) =>
      let Hx := fresh "Hx" in destruct x eqn:Hx; exec H
  | _ => idtac
  end.

(** A move into the library from the hand, the battlefield, the exile
    or the graveyard that went through: a token just vanishes; another
    card sent to Library is appended and the library is shuffled at
    once; sent to Top or Bottom it is put there and nothing is
    shuffled. *)
Lemma move_into_library (permute : nat -> list ref -> list ref)
      (fromZone toZone : string) (cardArgs : option (list string))
      (fz tz : Card.Zone) (g g1 : Game) :
  getZoneNameFromString fromZone = Some fz ->
  In fz [Card.HAND; Card.BATTLEFIELD; Card.EXILE; Card.GRAVEYARD] ->
  getZoneNameFromString toZone = Some tz ->
  move permute fromZone toZone cardArgs g = (g1, Ok tt) ->
  exists r c ty,
    heap g !! r = Some c /\ Card.type c = Ok ty /\
    if contains Card.TOKEN ty
    then library g1 = library g /\ rng g1 = rng g
    else match tz with
         | Card.LIBRARY =>
             library g1 = permute (rng g) (library g ++ [r]) /\ rng g1 = S (rng g)
         | Card.TOP => library g1 = r :: library g /\ rng g1 = rng g
         | Card.BOTTOM => library g1 = library g ++ [r] /\ rng g1 = rng g
         | _ => library g1 = library g /\ rng g1 = rng g
         end.
Proof.
  intros Hfrom Hfz Hto Hrun.
  unfold move in Hrun. rewrite Hfrom, Hto in Hrun.
  assert (Hsrc : exists z, source_of fz = (FromList z, false) /\ z <> Llibrary).
  { simpl in Hfz. destruct Hfz as [<-|[<-|[<-|[<-|[]]]]]; simpl; eexists; split;
      try reflexivity; discriminate. }
  destruct Hsrc as (z & Hsrc & Hz). rewrite Hsrc in Hrun. clear Hsrc Hfz Hfrom Hto.
  destruct tz; exec Hrun;
    destruct z; try contradiction; destruct g; simpl in *;
    match goal with
    | Hq : ?h !! ?r = Some ?c, Ht : Card.type ?c = Ok ?ty,
      Hb : negb (contains Card.TOKEN ?ty) = _ |- _ =>
        exists r, c, ty; split; [exact Hq|]; split; [exact Ht|];
        destruct (contains Card.TOKEN ty); try discriminate Hb; auto
    end.
Qed.

(* ===================================================================== *)
(** ** Properties of the zone machine *)
(* ===================================================================== *)

(** Drawing from an empty library returns normally and writes nothing:
    the handler of [draw] only binds a local. *)
Lemma draw_empty_library (g : Game) (number : Z) :
  library g = [] -> (0 < number)%Z -> draw number g = (g, Ok tt).
Proof.
  intros Hlib Hpos. unfold draw.
  destruct (Z.to_nat number) as [|k] eqn:Hk; [lia|].
  destruct g; simpl in Hlib; subst. reflexivity.
Qed.

(** C9. With the library empty, [draw(1)] raises nothing, but the win
    flag of the opponent is not set: the module-level [p2Win] is still
    false afterwards, and the [checkVictory] that follows neither ends
    the game nor prints a winner. *)
Theorem C9_draw_from_empty_library :
  let g := Sample.loaded [] in
  library g = []
  /\ outcome (draw 1) g = Ok tt
  /\ p2Win (state_after (draw 1) g) = false
  /\ outcome (draw 1 ;; checkVictory) g = Ok tt
  /\ GAME_OVER (state_after (draw 1 ;; checkVictory) g) = false
  /\ stdout (state_after (draw 1 ;; checkVictory) g) = [].
Proof. vm_compute. repeat split. Qed.

(** C6. Grizzly Bears are in the hand; moving them to the command zone
    raises the [ZoneError] of [move], but by then the card has been
    removed from the hand list: it is in no zone list any more while its
    zone tag still says Hand. *)
Theorem C6_move_raises_after_removal :
  let g := state_after (draw 1) (Sample.loaded [Sample.bears]) in
  let m := move Sample.reversing "hand" "command" (Some ["card"]) in
  hand g = [0]
  /\ outcome m g = Raise (ZoneError "Grizzly Bears can't be put in the command zone.")
  /\ hand (state_after m g) = []
  /\ library (state_after m g) = [] /\ field (state_after m g) = []
  /\ grave (state_after m g) = [] /\ exiled (state_after m g) = []
  /\ Card.zone (Sample.card_at (state_after m g) 0) = Card.HAND
  /\ state_after m g <> g.
Proof.
  cbv zeta. repeat split; try (vm_compute; reflexivity).
  intros H. apply (f_equal hand) in H. vm_compute in H. discriminate H.
Qed.


(* ===================================================================== *)
(** ** The state-based sweep *)
(* ===================================================================== *)

Lemma query_run {A : Type} (r : ref) (f : Card.t -> result A) (g : Game)
      (c : Card.t) (a : A) :
  heap g !! r = Some c -> f c = Ok a -> query r f g = (g, Ok a).
Proof. intros H Hf. unfold query, bind, deref, lift. now rewrite H, Hf. Qed.

Lemma list_remove_in (r : ref) (l : list ref) :
  In r l -> exists l1, list_remove r l = Some l1.
Proof.
  induction l as [|y l IH]; simpl; [contradiction|].
  intros [->|Hin].
  - rewrite Nat.eqb_refl. eauto.
  - destruct (Nat.eqb r y); [eauto|].
    destruct (IH Hin) as [l1 ->]. eauto.
Qed.

Lemma list_remove_spec (r : ref) (l l1 : list ref) :
  NoDup l -> list_remove r l = Some l1 ->
  NoDup l1 /\ forall x, In x l1 <-> In x l /\ x <> r.
Proof.
  revert l1. induction l as [|y l IH]; simpl; intros l1 Hnd Hrem; [discriminate|].
  apply NoDup_cons in Hnd as [Hy Hnd].
  destruct (Nat.eqb_spec r y) as [->|Hne].
  - injection Hrem as <-. split; [exact Hnd|].
    intros x. split.
    + intros Hx. split; [now right|]. intros ->. apply Hy. now apply list_elem_of_In.
    + intros [[->|Hx] Hne]; [contradiction|exact Hx].
  - destruct (list_remove r l) as [l2|]; [|discriminate].
    injection Hrem as <-. destruct (IH l2 Hnd eq_refl) as [Hnd2 Hin2].
    split.
    + apply NoDup_cons. split; [|exact Hnd2].
      rewrite list_elem_of_In. intros Hy2. apply Hin2 in Hy2 as [Hy2 _].
      apply Hy. now apply list_elem_of_In.
    + intros x. simpl. rewrite Hin2. split.
      * intros [->|[Hx Hxr]]; split; auto.
      * intros [[->|Hx] Hxr]; auto.
Qed.

Lemma kill_spared (r : ref) (c : Card.t) (g : Game) :
  heap g !! r = Some c -> indestructible c = true ->
  kill (Obj r) g = (g, Ok tt).
Proof.
  intros Hc Hi. unfold kill. simpl.
  unfold bind, ret, deref. rewrite Hc, Hi. reflexivity.
Qed.

Lemma deref_run (r : ref) (c : Card.t) (g : Game) :
  heap g !! r = Some c -> deref r g = (g, Ok c).
Proof. intros H. unfold deref. now rewrite H. Qed.

Lemma call_raising_run (r : ref) (f : Card.t -> result Card.t) (c c1 : Card.t)
      (g : Game) :
  heap g !! r = Some c -> f c = Ok c1 ->
  call_raising r f g = (set_heap (<[r := c1]> (heap g)) g, Ok tt).
Proof.
  intros Hc Hf. unfold call_raising.
  rewrite (bind_run _ _ _ _ _ (deref_run r c g Hc)).
  unfold bind, lift. rewrite Hf. reflexivity.
Qed.

Lemma zremove_run (z : zlist) (r : ref) (l1 : list ref) (g : Game) :
  list_remove r (zlist_get z g) = Some l1 ->
  zremove z r g = (zlist_set z l1 g, Ok tt).
Proof.
  intros H. unfold zremove, bind, gets. rewrite H. reflexivity.
Qed.

Lemma kill_destroys (r : ref) (c c1 : Card.t) (token : bool) (f1 : list ref)
      (g : Game) :
  heap g !! r = Some c -> indestructible c = false ->
  buried c = Some (c1, token) -> list_remove r (field g) = Some f1 ->
  kill (Obj r) g = (killed_state r c1 token f1 g, Ok tt).
Proof.
  intros Hc Hi Hb Hf. unfold buried in Hb.
  destruct (Card.move Card.GRAVEYARD c) as [c2|] eqn:Hmove; [|discriminate].
  destruct (Card.type c2) as [ty|] eqn:Hty; [|discriminate].
  injection Hb as -> <-.
  assert (Hr : (r < length (heap g))%nat) by (eapply lookup_lt_Some; eassumption).
  unfold kill. simpl.
  rewrite (bind_run _ _ g g r eq_refl).
  rewrite (bind_run _ _ _ _ _ (deref_run r c g Hc)).
  rewrite Hi. simpl.
  rewrite (bind_run _ _ _ _ _ (call_raising_run r _ c c1 g Hc Hmove)).
  unfold bury.
  erewrite bind_run; [|apply zremove_run; destruct g; simpl in *; exact Hf].
  erewrite bind_run;
    [|apply (query_run _ _ _ c1 ty); [|exact Hty]; destruct g; simpl;
      apply list_lookup_insert_eq; exact Hr].
  erewrite bind_run; [|reflexivity].
  unfold killed_state.
  replace (is_commander r (zlist_set Lfield f1 (set_heap (<[r:=c1]> (heap g)) g)))
    with (is_commander r g) by (destruct g; reflexivity).
  destruct (negb (contains Card.TOKEN ty) && negb (is_commander r g));
    destruct g; reflexivity.
Qed.

Lemma killed_state_fields (r : ref) (c1 : Card.t) (token : bool) (f1 : list ref)
      (g : Game) :
  heap (killed_state r c1 token f1 g) = <[r := c1]> (heap g)
  /\ field (killed_state r c1 token f1 g) = f1
  /\ commander (killed_state r c1 token f1 g) = commander g
  /\ grave (killed_state r c1 token f1 g)
     = (if negb token && negb (is_commander r g) then r :: grave g else grave g).
Proof.
  unfold killed_state.
  destruct (negb token && negb (is_commander r g)); destruct g; simpl; auto.
Qed.

Lemma sweep_loop (R : list ref) : forall g,
  NoDup (field g) ->
  (forall r, In r R ->
     exists c, heap g !! r = Some c
               /\ (indestructible c = true
                   \/ (In r (field g) /\ buried c <> None))) ->
  NoDup (List.filter (mortal g) R) ->
  exists g1,
    for_each R (fun card => kill (Obj card)) g = (g1, Ok tt)
    /\ commander g1 = commander g /\ NoDup (field g1)
    /\ forall r,
         (In r R -> mortal g r = true ->
          ~ In r (field g1)
          /\ exists c c1 token,
               heap g !! r = Some c /\ buried c = Some (c1, token)
               /\ heap g1 !! r = Some c1
               /\ (In r (grave g1)
                   <-> In r (grave g)
                       \/ (token = false /\ is_commander r g = false)))
         /\ (~ (In r R /\ mortal g r = true) ->
             (In r (field g1) <-> In r (field g))
             /\ heap g1 !! r = heap g !! r
             /\ (In r (grave g1) <-> In r (grave g))).
Proof.
  induction R as [|r R IH]; intros g Hnd Hpre Hmort.
  - exists g. simpl. repeat split; auto; try tauto; intros []; contradiction.
  - destruct (Hpre r (or_introl eq_refl)) as (c & Hc & Hkill).
    destruct (indestructible c) eqn:Hi.
    + (* spared: the state does not change *)
      assert (Hm : mortal g r = false) by (unfold mortal; now rewrite Hc, Hi).
      simpl in Hmort. rewrite Hm in Hmort.
      destruct (IH g Hnd (fun x Hx => Hpre x (or_intror Hx)) Hmort)
        as (g1 & Hrun & Hcmd & Hnd1 & Hpost).
      exists g1. split.
      { simpl. rewrite (bind_run _ _ _ _ _ (kill_spared r c g Hc Hi)). exact Hrun. }
      split; [exact Hcmd|]. split; [exact Hnd1|].
      intros x. destruct (Hpost x) as [Hk Hs]. split.
      * intros [<-|Hx] Hmx; [congruence|auto].
      * intros Hno. apply Hs. intros [Hx Hmx]. apply Hno. split; [now right|exact Hmx].
    + (* destroyed *)
      destruct Hkill as [Hkill|[Hfield Hbur]]; [discriminate|].
      destruct (buried c) as [[c1 token]|] eqn:Hb; [|contradiction]. clear Hbur.
      destruct (list_remove_in r (field g) Hfield) as [f1 Hf1].
      destruct (list_remove_spec r (field g) f1 Hnd Hf1) as [Hndf1 Hinf1].
      assert (Hm : mortal g r = true) by (unfold mortal; now rewrite Hc, Hi).
      simpl in Hmort. rewrite Hm in Hmort.
      apply NoDup_cons in Hmort as [Hr Hmort].
      assert (HrR : ~ In r R).
      { intros Hin. apply Hr. apply list_elem_of_In, filter_In. auto. }
      destruct (killed_state_fields r c1 token f1 g) as (Hh & Hfl & Hcm & Hgr).
      set (g0 := killed_state r c1 token f1 g) in *.
      assert (Hother : forall x, x <> r -> heap g0 !! x = heap g !! x).
      { intros x Hx. rewrite Hh. apply list_lookup_insert_ne. congruence. }
      assert (Hmo : forall x, x <> r -> mortal g0 x = mortal g x).
      { intros x Hx. unfold mortal. now rewrite Hother. }
      assert (Hnd0 : NoDup (field g0)) by now rewrite Hfl.
      assert (Hpre0 : forall x, In x R ->
                exists c, heap g0 !! x = Some c
                          /\ (indestructible c = true
                              \/ (In x (field g0) /\ buried c <> None))).
      { intros x Hx. assert (Hxr : x <> r) by congruence.
        destruct (Hpre x (or_intror Hx)) as (cx & Hcx & Hkx).
        exists cx. rewrite Hother by exact Hxr. split; [exact Hcx|].
        destruct Hkx as [Hkx|[Hkx1 Hkx2]]; [now left|right].
        split; [|exact Hkx2]. rewrite Hfl. apply Hinf1. auto. }
      assert (Hmort0 : NoDup (List.filter (mortal g0) R)).
      { rewrite (filter_ext_in (mortal g0) (mortal g)); [exact Hmort|].
        intros x Hx. apply Hmo. congruence. }
      destruct (IH g0 Hnd0 Hpre0 Hmort0) as (g1 & Hrun & Hcmd & Hnd1 & Hpost).
      exists g1. split.
      { simpl. rewrite (bind_run _ _ _ _ _ (kill_destroys r c c1 token f1 g Hc Hi Hb Hf1)).
        exact Hrun. }
      split; [congruence|]. split; [exact Hnd1|].
      intros x. destruct (Nat.eq_dec x r) as [->|Hxr].
      * (* the card just destroyed *)
        destruct (Hpost r) as [_ Hs].
        destruct Hs as (Hsf & Hsh & Hsg); [tauto|].
        split.
        -- intros _ _. split.
           ++ rewrite Hsf, Hfl, Hinf1. tauto.
           ++ exists c, c1, token. repeat split; auto.
              ** rewrite Hsh, Hh. apply list_lookup_insert_eq.
                 eapply lookup_lt_Some; eassumption.
              ** rewrite Hsg, Hgr.
                 destruct token, (is_commander r g); simpl; intuition congruence.
              ** rewrite Hsg, Hgr.
                 destruct token, (is_commander r g); simpl; intuition congruence.
        -- intros Hno. exfalso. apply Hno. split; [now left|exact Hm].
      * destruct (Hpost x) as [Hk Hs].
        assert (Hgx : In x (grave g0) <-> In x (grave g)).
        { rewrite Hgr. destruct (negb token && negb (is_commander r g)); simpl;
            [|tauto]. split; [intros [?|?]; [congruence|auto]|auto]. }
        assert (Hcx : is_commander x g0 = is_commander x g).
        { unfold is_commander. now rewrite Hcm. }
        split.
        -- intros [->|Hx] Hmx; [contradiction|].
           rewrite <- Hmo in Hmx by exact Hxr.
           destruct (Hk Hx Hmx) as (Hnf & cx & cx1 & tk & H1 & H2 & H3 & H4).
           split; [exact Hnf|]. exists cx, cx1, tk.
           rewrite <- (Hother x Hxr), <- Hgx, <- Hcx. auto.
        -- intros Hno.
           destruct Hs as (Hsf & Hsh & Hsg).
           { intros [Hx Hmx]. apply Hno. split; [now right|].
             now rewrite <- (Hmo x Hxr). }
           rewrite Hsf, Hsh, Hsg, Hfl, Hinf1, Hgx, Hother by exact Hxr.
           tauto.
Qed.

Lemma dying_spec (l : list ref) (g : Game) :
  (forall r, In r l -> exists c, heap g !! r = Some c /\ sweepable_card c = true) ->
  dying l g = (g, Ok (collected g l)).
Proof.
  induction l as [|r l IH]; intros Hpre; [reflexivity|].
  destruct (Hpre r (or_introl eq_refl)) as (c & Hc & Hsw).
  specialize (IH (fun x Hx => Hpre x (or_intror Hx))).
  unfold collected in *. simpl. unfold marks at 1. rewrite Hc.
  unfold sweepable_card in Hsw.
  destruct (doomed_creature c) as [d1|] eqn:H1; [|discriminate].
  destruct (doomed_walker c) as [d2|] eqn:H2; [|discriminate]. clear Hsw.
  unfold doomed_creature, doomed_walker, rbind in H1, H2.
  destruct (Card.type c) as [t|] eqn:Ht; [|discriminate].
  rewrite (bind_run _ _ _ _ _ (query_run r Card.type g c t Hc Ht)).
  assert (E1 : (if contains Card.CREATURE t
                then tough <- query r Card.toughness;;
                     ret (bool_decide (tough = Some 0%Z))
                else ret false) g = (g, Ok d1)).
  { destruct (contains Card.CREATURE t).
    - destruct (Card.toughness c) as [tough|] eqn:Hto; [|discriminate].
      rewrite (bind_run _ _ _ _ _ (query_run r Card.toughness g c tough Hc Hto)).
      now injection H1 as <-.
    - now injection H1 as <-. }
  rewrite (bind_run _ _ _ _ _ E1).
  rewrite (bind_run _ _ _ _ _ (query_run r Card.type g c t Hc Ht)).
  assert (E2 : (if contains Card.PLANESWALKER t
                then n <- query r Card.counters;; ret (n =? 0)%Z
                else ret false) g = (g, Ok d2)).
  { destruct (contains Card.PLANESWALKER t).
    - destruct (Card.counters c) as [n|] eqn:Hn; [|discriminate].
      rewrite (bind_run _ _ _ _ _ (query_run r Card.counters g c n Hc Hn)).
      now injection H2 as <-.
    - now injection H2 as <-. }
  rewrite (bind_run _ _ _ _ _ E2).
  rewrite (bind_run _ _ _ _ _ IH).
  unfold ret. now rewrite <- app_assoc.
Qed.

Lemma collected_in (g : Game) (l : list ref) (r : ref) :
  In r (collected g l) <-> In r l /\ marks g r <> [].
Proof.
  unfold collected. rewrite in_flat_map. split.
  - intros (x & Hx & Hr).
    assert (x = r) as ->.
    { unfold marks in Hr. destruct (heap g !! x); [|contradiction].
      destruct (doomed_creature t) as [[]|], (doomed_walker t) as [[]|];
        simpl in Hr; intuition. }
    split; [exact Hx|]. intros E. now rewrite E in Hr.
  - intros [Hl Hm]. exists r. split; [exact Hl|].
    unfold marks in *. destruct (heap g !! r); [|contradiction].
    destruct (doomed_creature t) as [[]|], (doomed_walker t) as [[]|];
      simpl in *; auto; contradiction.
Qed.

Lemma collected_mortal_once (g : Game) (l : list ref) :
  NoDup l ->
  (forall r, In r l -> exists c, heap g !! r = Some c /\ sweepable_card c = true) ->
  NoDup (List.filter (mortal g) (collected g l)).
Proof.
  induction l as [|r l IH]; intros Hnd Hpre; [constructor|].
  apply NoDup_cons in Hnd as [Hr Hnd].
  specialize (IH Hnd (fun x Hx => Hpre x (or_intror Hx))).
  destruct (Hpre r (or_introl eq_refl)) as (c & Hc & Hsw).
  unfold collected in *. simpl. rewrite List.filter_app.
  assert (Hout : forall x, In x (List.filter (mortal g) (flat_map (marks g) l)) ->
                           x <> r).
  { intros x Hx ->. apply filter_In in Hx as [Hx _].
    apply (collected_in g l r) in Hx as [Hx _]. apply Hr. now apply list_elem_of_In. }
  unfold marks at 1. rewrite Hc. unfold sweepable_card in Hsw.
  unfold mortal at 1. 
  destruct (doomed_creature c) as [d1|]; [|discriminate].
  destruct (doomed_walker c) as [d2|]; [|discriminate].
  destruct d1, d2; simpl in *; rewrite ?Hc; destruct (indestructible c);
    simpl in *; try discriminate; try exact IH;
    apply NoDup_cons; (split; [|exact IH]);
    rewrite list_elem_of_In; intros Hx; now apply (Hout r Hx).
Qed.

Lemma leave_keeps_zone (c : Card.t) : Card.__zone (Card.leave c) = Card.__zone c.
Proof.
  unfold Card.leave, Card.transform.
  destruct (Card.__transformed c || Card.__facedown c), (Card.__flip c);
    destruct c; cbn;
    match goal with
    | |- context [if ?b then _ else _] => destruct b
    end; reflexivity.
Qed.

Lemma buried_zone (c c1 : Card.t) (token : bool) :
  buried c = Some (c1, token) ->
  Card.zone c1 = (if Card.commander c then Card.COMMAND else Card.GRAVEYARD).
Proof.
  unfold buried. destruct (Card.move Card.GRAVEYARD c) as [c2|] eqn:Hmove; [|discriminate].
  destruct (Card.type c2); [|discriminate]. intros [= <- _].
  unfold Card.move, rbind, Card.zone, Card.commander in *.
  destruct (Card.__commander c) eqn:Hcmd; simpl in Hmove.
  - destruct (bool_decide (Card.__zone c = Card.BATTLEFIELD));
      simpl in Hmove; injection Hmove as <-;
      rewrite ?leave_keeps_zone; destruct c; reflexivity.
  - destruct (contains Card.EMBLEM (Card.__type c)); simpl in Hmove; [discriminate|].
    destruct (bool_decide (Card.__zone c = Card.BATTLEFIELD));
      simpl in Hmove; injection Hmove as <-;
      rewrite ?leave_keeps_zone; destruct c; reflexivity.
Qed.

Lemma marks_doomed (g : Game) (r : ref) (c : Card.t) :
  heap g !! r = Some c -> (marks g r <> [] <-> doomed c = true).
Proof.
  intros Hc. unfold marks, doomed. rewrite Hc.
  destruct (doomed_creature c) as [[]|], (doomed_walker c) as [[]|]; simpl;
    split; intros H; try reflexivity; try discriminate; try contradiction; auto;
    discriminate.
Qed.


(* ===================================================================== *)
(** ** Cards put into the graveyard and into exile *)
(* ===================================================================== *)

Lemma filter_filter_and {A : Type} (p q : A -> bool) (l : list A) :
  List.filter q (List.filter p l) = List.filter (fun x => p x && q x) l.
Proof.
  induction l as [|x l IH]; [reflexivity|]. cbn [List.filter].
  destruct (p x); cbn [List.filter andb]; [destruct (q x)|]; now rewrite IH.
Qed.

(** [piled] reads the object store and the commander only. *)
Lemma piled_ext (g g1 : Game) (r : ref) :
  heap g1 = heap g -> commander g1 = commander g -> piled g1 r = piled g r.
Proof. intros Hh Hc. unfold piled, is_commander. now rewrite Hh, Hc. Qed.

(** One card leaves the battlefield list and is put in front of the
    graveyard or of the exile list. *)
Lemma bury_ok (dest : zlist) (x : ref) (g g1 : Game) :
  dest = Lgrave \/ dest = Lexiled ->
  bury dest x g = (g1, Ok tt) ->
  heap g1 = heap g /\ commander g1 = commander g
  /\ zlist_get dest g1
     = (if piled g x then x :: zlist_get dest g else zlist_get dest g).
Proof.
  intros Hd Hrun. unfold bury in Hrun. exec Hrun.
  - assert (piled g x = true) as ->.
    { unfold piled, of_type. cbn in *.
      match goal with
      | Hq : heap _ !! x = Some ?c, Ht : Card.type ?c = Ok ?ty |- _ =>
          replace (heap g !! x) with (Some c) by (symmetry; destruct g; exact Hq);
          rewrite Ht
      end.
      destruct g; cbn in *. assumption. }
    destruct Hd as [-> | ->]; destruct g; cbn; auto.
  - assert (piled g x = false) as ->.
    { unfold piled, of_type. cbn in *.
      match goal with
      | Hq : heap _ !! x = Some ?c, Ht : Card.type ?c = Ok ?ty |- _ =>
          replace (heap g !! x) with (Some c) by (symmetry; destruct g; exact Hq);
          rewrite Ht
      end.
      destruct g; cbn in *. assumption. }
    destruct Hd as [-> | ->]; destruct g; cbn; auto.
Qed.

(** The second loop of [kill], [sacrifice] and [exile]: each card is
    put in front of the cards put before it. *)
Lemma bury_loop (dest : zlist) (remove : list ref) : forall g g1,
  dest = Lgrave \/ dest = Lexiled ->
  for_each remove (bury dest) g = (g1, Ok tt) ->
  heap g1 = heap g /\ commander g1 = commander g
  /\ zlist_get dest g1 = rev (List.filter (piled g) remove) ++ zlist_get dest g.
Proof.
  induction remove as [|x remove IH]; intros g g1 Hd Hrun.
  - cbn in Hrun. injection Hrun as <-. auto.
  - cbn [for_each] in Hrun. apply bind_ok in Hrun as ([] & g0 & Hx & Hrun).
    destruct (bury_ok dest x g g0 Hd Hx) as (Hh0 & Hc0 & Hz0).
    destruct (IH g0 g1 Hd Hrun) as (Hh1 & Hc1 & Hz1).
    split; [congruence|]. split; [congruence|].
    rewrite Hz1, Hz0.
    rewrite (filter_ext (piled g0) (piled g))
      by (intros r; now apply piled_ext).
    cbn [List.filter]. destruct (piled g x); [|reflexivity].
    cbn [rev]. now rewrite <- app_assoc.
Qed.

(** The first loop: the cards it collects are the cards of the list
    whose type line contains the type name and that are not spared,
    in the order of the list; it writes the collected cards only. *)
Lemma collect_ok (ty : string) (spared : Card.t -> bool) (zone : Card.Zone)
      (things : list ref) : forall g g1 remove,
  NoDup things ->
  collect ty spared zone things g = (g1, Ok remove) ->
  remove = List.filter (fun r => match heap g !! r with
                                 | Some c => of_type ty c && negb (spared c)
                                 | None => false
                                 end) things
  /\ g1 = set_heap (heap g1) g
  /\ forall y, ~ In y things -> heap g1 !! y = heap g !! y.
Proof.
  induction things as [|x things IH]; intros g g1 remove Hnd Hrun.
  - cbn in Hrun. injection Hrun as <- <-. split; [reflexivity|].
    split; [now destruct g|auto].
  - apply NoDup_cons in Hnd as [Hx Hnd]. rewrite list_elem_of_In in Hx.
    cbn [collect] in Hrun.
    apply bind_ok in Hrun as (t & ga & Hq & Hrun).
    apply query_ok in Hq as (-> & c & Hc & Ht).
    apply bind_ok in Hrun as (c' & ga & Hd & Hrun).
    apply deref_ok in Hd as (-> & Hc').
    assert (c' = c) as ->.
    { assert (Some c' = Some c) as E
        by (etransitivity; [symmetry; exact Hc'|exact Hc]).
      now injection E. }
    cbn [List.filter].
    replace (heap g !! x) with (Some c) by (symmetry; exact Hc).
    unfold of_type at 1. rewrite Ht.
    destruct (contains ty t && negb (spared c)).
    + apply bind_ok in Hrun as ([] & ga & Hm & Hrun).
      apply call_raising_ok in Hm as (c0 & c1 & Hc0 & Hm & ->).
      apply bind_ok in Hrun as (rest & gb & Hrest & Hrun).
      apply ret_ok in Hrun as (-> & ->).
      destruct (IH _ _ _ Hnd Hrest) as (Hrem & Hg & Hout).
      assert (forall y, y <> x ->
                heap (set_heap (<[x := c1]> (heap g)) g) !! y = heap g !! y) as Hother.
      { intros y Hy. destruct g; cbn. apply list_lookup_insert_ne. congruence. }
      split; [|split].
      * rewrite Hrem. f_equal. apply filter_ext_in. intros r Hr.
        rewrite Hother by congruence. reflexivity.
      * rewrite Hg at 1. now destruct g.
      * intros y Hy. rewrite Hout by (intros Hin; apply Hy; now right).
        apply Hother. intros ->. apply Hy. now left.
    + destruct (IH _ _ _ Hnd Hrun) as (Hrem & Hg & Hout).
      split; [exact Hrem|]. split; [exact Hg|].
      intros y Hy. apply Hout. intros Hin. apply Hy. now right.
Qed.

(** A command given a type name: the cards it took, in the order of
    the battlefield, are in front of the old list, the last taken
    first. *)
Lemma taken_by_type (ty : string) (spared : Card.t -> bool) (zone : Card.Zone)
      (dest : zlist) (g g1 : Game) :
  dest = Lgrave \/ dest = Lexiled ->
  NoDup (field g) ->
  (f <- gets field ;;
   remove <- collect ty spared zone f ;;
   for_each remove (bury dest)) g = (g1, Ok tt) ->
  zlist_get dest g1
  = rev (List.filter (fun r => match heap g !! r with
                               | Some c => negb (spared c)
                               | None => false
                               end && piled g1 r)
           (List.filter (shows_type ty g) (field g)))
    ++ zlist_get dest g.
Proof.
  intros Hd Hnd Hrun.
  apply bind_ok in Hrun as (f & ga & Hf & Hrun). apply gets_ok in Hf as (-> & ->).
  apply bind_ok in Hrun as (remove & g0 & Hcol & Hrun).
  destruct (collect_ok _ _ _ _ _ _ _ Hnd Hcol) as (Hrem & Hg0 & _).
  destruct (bury_loop dest remove g0 g1 Hd Hrun) as (Hh & Hc & Hz).
  rewrite Hz. f_equal.
  - f_equal. rewrite Hrem, !filter_filter_and.
    apply filter_ext. intros r.
    rewrite (piled_ext g0 g1 r) by congruence.
    unfold shows_type. destruct (heap g !! r) as [c|]; [|reflexivity].
    now rewrite andb_assoc.
  - rewrite Hg0. destruct Hd as [-> | ->]; now destruct g.
Qed.

(** A command given a card: the card is put at index 0. *)
Lemma taken_alone (zone : Card.Zone) (dest : zlist) (r : ref) (g g1 : Game) :
  dest = Lgrave \/ dest = Lexiled ->
  (call_raising r (Card.move zone) ;; bury dest r) g = (g1, Ok tt) ->
  zlist_get dest g1 = (if piled g1 r then r :: zlist_get dest g else zlist_get dest g).
Proof.
  intros Hd Hrun.
  apply bind_ok in Hrun as ([] & g0 & Hm & Hrun).
  apply call_raising_ok in Hm as (c0 & c1 & Hc0 & Hm & ->).
  destruct (bury_ok dest r _ g1 Hd Hrun) as (Hh & Hc & Hz).
  rewrite Hz, (piled_ext _ g1 r Hh Hc).
  destruct Hd as [-> | ->]; now destruct g.
Qed.

Lemma kill_puts_first (card : arg) (g g1 : Game) :
  NoDup (field g) -> kill card g = (g1, Ok tt) ->
  grave g1
  = rev (List.filter (fun r => mortal g r && piled g1 r) (aimed_at card g)) ++ grave g.
Proof.
  intros Hnd Hrun. unfold kill in Hrun.
  destruct card as [r|ty]; cbn [in_TYPES aimed_at] in *.
  - apply bind_ok in Hrun as (r' & ga & Hr & Hrun).
    apply ret_ok in Hr as (-> & ->).
    apply bind_ok in Hrun as (c & ga & Hd & Hrun).
    apply deref_ok in Hd as (-> & Hc).
    cbn [List.filter]. unfold mortal at 1.
    replace (heap g !! r) with (Some c) by (symmetry; exact Hc).
    destruct (negb (indestructible c)); cbn [when andb] in *.
    + pose proof (taken_alone Card.GRAVEYARD Lgrave r g g1 (or_introl eq_refl) Hrun)
        as Hz.
      cbn [zlist_get] in Hz. rewrite Hz. now destruct (piled g1 r).
    + now injection Hrun as <-.
  - destruct (str_in ty Card.TYPES); [|discriminate Hrun].
    exact (taken_by_type ty indestructible Card.GRAVEYARD Lgrave g g1
             (or_introl eq_refl) Hnd Hrun).
Qed.

(** With nothing spared, every card aimed at is taken. *)
Lemma taken_all (ty : string) (g g1 : Game) :
  List.filter (fun r => match heap g !! r with
                        | Some c => negb ((fun _ : Card.t => false) c)
                        | None => false
                        end && piled g1 r)
    (List.filter (shows_type ty g) (field g))
  = List.filter (piled g1) (List.filter (shows_type ty g) (field g)).
Proof.
  apply filter_ext_in. intros r Hr. apply filter_In in Hr as [_ Hr].
  unfold shows_type in Hr. now destruct (heap g !! r).
Qed.

Lemma sacrifice_puts_first (card : arg) (g g1 : Game) :
  NoDup (field g) -> sacrifice card g = (g1, Ok tt) ->
  grave g1 = rev (List.filter (piled g1) (aimed_at card g)) ++ grave g.
Proof.
  intros Hnd Hrun. unfold sacrifice in Hrun.
  destruct card as [r|ty]; cbn [in_TYPES aimed_at] in *.
  - apply bind_ok in Hrun as (r' & ga & Hr & Hrun).
    apply ret_ok in Hr as (-> & ->).
    pose proof (taken_alone Card.GRAVEYARD Lgrave r g g1 (or_introl eq_refl) Hrun)
      as Hz.
    cbn [zlist_get List.filter] in *. rewrite Hz. now destruct (piled g1 r).
  - destruct (str_in ty Card.TYPES); [|discriminate Hrun].
    rewrite <- taken_all.
    exact (taken_by_type ty (fun _ => false) Card.GRAVEYARD Lgrave g g1
             (or_introl eq_refl) Hnd Hrun).
Qed.

Lemma exile_puts_first (card : arg) (g g1 : Game) :
  NoDup (field g) -> exile card g = (g1, Ok tt) ->
  exiled g1 = rev (List.filter (piled g1) (aimed_at card g)) ++ exiled g.
Proof.
  intros Hnd Hrun. unfold exile in Hrun.
  destruct card as [r|ty]; cbn [in_TYPES aimed_at] in *.
  - apply bind_ok in Hrun as (r' & ga & Hr & Hrun).
    apply ret_ok in Hr as (-> & ->).
    pose proof (taken_alone Card.EXILE Lexiled r g g1 (or_intror eq_refl) Hrun)
      as Hz.
    cbn [zlist_get List.filter] in *. rewrite Hz. now destruct (piled g1 r).
  - destruct (str_in ty Card.TYPES); [|discriminate Hrun].
    rewrite <- taken_all.
    exact (taken_by_type ty (fun _ => false) Card.EXILE Lexiled g g1
             (or_intror eq_refl) Hnd Hrun).
Qed.

Lemma discard_puts_first (card : arg) (g g1 : Game) :
  discard card g = (g1, Ok tt) ->
  exists r, card = Obj r /\ grave g1 = r :: grave g.
Proof.
  intros Hrun. unfold discard in Hrun.
  apply bind_ok in Hrun as (r & ga & Hr & Hrun).
  apply the_card_ok in Hr as (-> & ->).
  exists r. split; [reflexivity|].
  unfold call in Hrun. exec Hrun.
  match goal with E : store _ _ _ = _ |- _ => apply store_ok in E; subst end.
  now destruct g.
Qed.

Lemma zpop0_ok (g g1 : Game) (z : zlist) (r : ref) :
  zpop0 z g = (g1, Ok r) ->
  exists rest, zlist_get z g = r :: rest /\ g1 = zlist_set z rest g.
Proof.
  unfold zpop0. intros H.
  apply bind_ok in H as (l & g2 & Hg & H). apply gets_ok in Hg as [-> ->].
  destruct (zlist_get z g) as [|x rest]; [discriminate|].
  apply bind_ok in H as ([] & g3 & Hm & H). apply modify_ok in Hm as ->.
  apply ret_ok in H as [-> ->]. eauto.
Qed.

(** [play] puts the card where [Card.play] sent it: at index 0 of the
    graveyard or of the exile list, or in neither. *)
Lemma play_puts_first (permute : nat -> list ref -> list ref) (r : ref)
      (c : Card.t) (g g1 : Game) :
  heap g !! r = Some c ->
  play permute (Obj r) g = (g1, Ok tt) ->
  match Card.zone (Card.play c) with
  | Card.GRAVEYARD => grave g1 = r :: grave g /\ exiled g1 = exiled g
  | Card.EXILE => grave g1 = grave g /\ exiled g1 = r :: exiled g
  | _ => grave g1 = grave g /\ exiled g1 = exiled g
  end.
Proof.
  intros Hc Hrun. unfold play in Hrun. cbn [in_TYPES] in Hrun. cbv iota in Hrun.
  assert (Hr : (r < length (heap g))%nat) by (eapply lookup_lt_Some; exact Hc).
  apply bind_ok in Hrun as (h & ga & Hh & Hrun). apply gets_ok in Hh as (-> & ->).
  apply bind_ok in Hrun as (in_hand & ga & Hh & Hrun). apply ret_ok in Hh as (-> & ->).
  apply bind_ok in Hrun as (allowed & ga & Hall & Hrun).
  assert (ga = g) as ->.
  { destruct (ref_in r (hand g)); exec Hall; reflexivity. }
  clear Hall. destruct allowed.
  2: { exec Hrun. }
  apply bind_ok in Hrun as (r' & ga & Hh & Hrun). apply ret_ok in Hh as (-> & ->).
  unfold call in Hrun. exec Hrun;
    repeat match goal with
           | E : store _ _ _ = _ |- _ => apply store_ok in E; subst
           | E : zpop0 _ _ = _ |- _ =>
               let rest := fresh "rest" in
               let Hl := fresh "Hl" in
               apply zpop0_ok in E as (rest & Hl & ->)
           end;
    destruct g; cbn in *;
    repeat match goal with
           | H : ?h !! r = Some ?x |- _ =>
               lazymatch x with
               | c => fail
               | _ => let E := fresh "E" in
                      assert (Some x = Some c) as E
                          by (etransitivity; [symmetry; exact H|exact Hc]);
                      injection E as ->; clear H
               end
           end;
    repeat match goal with
           | H : <[r := ?y]> ?h !! r = Some ?x |- _ =>
               rewrite list_lookup_insert_eq in H by exact Hr;
               injection H as <-
           end;
    match goal with
    | Hz : Card.zone (Card.play c) = _ |- _ => rewrite Hz
    end; auto.
Qed.

(** A move into the graveyard from any other zone that went through:
    a token just vanishes, another card is put at index 0. *)
Lemma move_into_graveyard (permute : nat -> list ref -> list ref)
      (fromZone toZone : string) (cardArgs : option (list string))
      (fz : Card.Zone) (g g1 : Game) :
  getZoneNameFromString fromZone = Some fz ->
  fz <> Card.GRAVEYARD ->
  getZoneNameFromString toZone = Some Card.GRAVEYARD ->
  move permute fromZone toZone cardArgs g = (g1, Ok tt) ->
  exists r c ty,
    heap g !! r = Some c /\ Card.type c = Ok ty
    /\ grave g1 = (if contains Card.TOKEN ty then grave g else r :: grave g).
Proof.
  intros Hfrom Hfz Hto Hrun.
  unfold move in Hrun. rewrite Hfrom, Hto in Hrun.
  destruct fz; try contradiction; cbn [source_of] in Hrun; cbv iota beta in Hrun;
    exec Hrun;
    repeat match goal with
           | E : the_card _ _ = _ |- _ => apply the_card_ok in E as [? ?]; subst
           | H : Obj _ = Obj _ |- _ => injection H as ->
           | H : Str _ = Obj _ |- _ => discriminate H
           | H : Obj _ = Str _ |- _ => discriminate H
           end;
    destruct g; cbn in *;
    match goal with
    | Hq : ?h !! ?r = Some ?c, Ht : Card.type ?c = Ok ?ty,
      Hb : negb (contains Card.TOKEN ?ty) = _ |- _ =>
        exists r, c, ty; split; [exact Hq|]; split; [exact Ht|];
        destruct (contains Card.TOKEN ty); try discriminate Hb; auto
    end.
Qed.

(** *** The order in which the sweep buries *)

(** One card destroyed by the sweep: what the rest of the sweep needs
    still holds, and no card yet to come is affected. *)
Lemma sweep_step (r : ref) (R : list ref) (g : Game) (c c1 : Card.t) (token : bool)
      (f1 : list ref) :
  NoDup (field g) ->
  (forall x, In x (r :: R) ->
     exists c, heap g !! x = Some c
               /\ (indestructible c = true
                   \/ (In x (field g) /\ buried c <> None))) ->
  NoDup (List.filter (mortal g) (r :: R)) ->
  heap g !! r = Some c -> indestructible c = false ->
  list_remove r (field g) = Some f1 ->
  ~ In r R
  /\ NoDup (field (killed_state r c1 token f1 g))
  /\ (forall x, In x R ->
        exists c, heap (killed_state r c1 token f1 g) !! x = Some c
                  /\ (indestructible c = true
                      \/ (In x (field (killed_state r c1 token f1 g))
                          /\ buried c <> None)))
  /\ NoDup (List.filter (mortal (killed_state r c1 token f1 g)) R)
  /\ (forall x, In x R -> mortal (killed_state r c1 token f1 g) x = mortal g x).
Proof.
  intros Hnd Hpre Hmort Hc Hi Hf1.
  destruct (list_remove_spec r (field g) f1 Hnd Hf1) as [Hndf1 Hinf1].
  assert (Hm : mortal g r = true) by (unfold mortal; now rewrite Hc, Hi).
  simpl in Hmort. rewrite Hm in Hmort.
  apply NoDup_cons in Hmort as [Hr Hmort].
  assert (HrR : ~ In r R).
  { intros Hin. apply Hr. apply list_elem_of_In, filter_In. auto. }
  destruct (killed_state_fields r c1 token f1 g) as (Hh & Hfl & Hcm & Hgr).
  set (g0 := killed_state r c1 token f1 g) in *.
  assert (Hother : forall x, x <> r -> heap g0 !! x = heap g !! x).
  { intros x Hx. rewrite Hh. apply list_lookup_insert_ne. congruence. }
  assert (Hmo : forall x, In x R -> mortal g0 x = mortal g x).
  { intros x Hx. unfold mortal. rewrite Hother; [reflexivity|congruence]. }
  split; [exact HrR|]. split; [now rewrite Hfl|]. split; [|split].
  - intros x Hx. assert (Hxr : x <> r) by congruence.
    destruct (Hpre x (or_intror Hx)) as (cx & Hcx & Hkx).
    exists cx. rewrite Hother by exact Hxr. split; [exact Hcx|].
    destruct Hkx as [Hkx|[Hkx1 Hkx2]]; [now left|right].
    split; [|exact Hkx2]. rewrite Hfl. apply Hinf1. auto.
  - rewrite (filter_ext_in (mortal g0) (mortal g)); [exact Hmort|exact Hmo].
  - exact Hmo.
Qed.

(** The token test of [kill], read off the card it has moved. *)
Lemma buried_token (c c1 : Card.t) (token : bool) :
  buried c = Some (c1, token) -> of_type Card.TOKEN c1 = token.
Proof.
  unfold buried, of_type.
  destruct (Card.move Card.GRAVEYARD c) as [c2|]; [|discriminate].
  destruct (Card.type c2) as [ty|] eqn:Hty; [|discriminate].
  intros [= <- <-]. now rewrite Hty.
Qed.

Lemma sweep_graveyard (R : list ref) : forall g g1,
  NoDup (field g) ->
  (forall r, In r R ->
     exists c, heap g !! r = Some c
               /\ (indestructible c = true
                   \/ (In r (field g) /\ buried c <> None))) ->
  NoDup (List.filter (mortal g) R) ->
  for_each R (fun card => kill (Obj card)) g = (g1, Ok tt) ->
  grave g1 = rev (List.filter (fun r => mortal g r && piled g1 r) R) ++ grave g.
Proof.
  induction R as [|r R IH]; intros g g1 Hnd Hpre Hmort Hrun.
  - cbn in Hrun. now injection Hrun as <-.
  - destruct (Hpre r (or_introl eq_refl)) as (c & Hc & Hkill).
    cbn [for_each] in Hrun. cbn [List.filter].
    destruct (indestructible c) eqn:Hi.
    + assert (Hm : mortal g r = false) by (unfold mortal; now rewrite Hc, Hi).
      rewrite (bind_run _ _ _ _ _ (kill_spared r c g Hc Hi)) in Hrun.
      rewrite Hm. cbn [andb].
      apply IH; auto.
      * intros x Hx. apply Hpre. now right.
      * simpl in Hmort. now rewrite Hm in Hmort.
    + destruct Hkill as [Hkill|[Hfield Hbur]]; [discriminate|].
      destruct (buried c) as [[c1 token]|] eqn:Hb; [|contradiction]. clear Hbur.
      destruct (list_remove_in r (field g) Hfield) as [f1 Hf1].
      assert (Hm : mortal g r = true) by (unfold mortal; now rewrite Hc, Hi).
      rewrite (bind_run _ _ _ _ _ (kill_destroys r c c1 token f1 g Hc Hi Hb Hf1))
        in Hrun.
      destruct (sweep_step r R g c c1 token f1 Hnd Hpre Hmort Hc Hi Hf1)
        as (HrR & Hnd0 & Hpre0 & Hmort0 & Hmo).
      destruct (killed_state_fields r c1 token f1 g) as (Hh & Hfl & Hcm & Hgr).
      set (g0 := killed_state r c1 token f1 g) in *.
      rewrite (IH g0 g1 Hnd0 Hpre0 Hmort0 Hrun).
      rewrite (filter_ext_in (fun x => mortal g0 x && piled g1 x)
                 (fun x => mortal g x && piled g1 x))
        by (intros x Hx; now rewrite Hmo).
      (* the card just destroyed is not touched again *)
      destruct (sweep_loop R g0 Hnd0 Hpre0 Hmort0) as (g1' & Hrun' & Hcmd & _ & Hpost).
      assert (g1' = g1) as -> by congruence.
      destruct (Hpost r) as [_ Hs].
      destruct Hs as (_ & Hsh & _); [tauto|].
      assert (Hr : (r < length (heap g))%nat) by (eapply lookup_lt_Some; exact Hc).
      assert (piled g1 r = negb token && negb (is_commander r g)) as Hp.
      { unfold piled. rewrite Hsh, Hh, list_lookup_insert_eq by exact Hr.
        rewrite (buried_token c c1 token Hb).
        unfold is_commander. now rewrite Hcmd, Hcm. }
      rewrite Hm, Hp, Hgr. cbn [andb].
      destruct (negb token && negb (is_commander r g)); [|reflexivity].
      cbn [rev]. now rewrite <- app_assoc.
Qed.

(** What the first loop collected and [kill] does not spare was
    collected once, in the order of the battlefield. *)
Lemma collected_filter (P : ref -> bool) (g : Game) (l : list ref) :
  (forall r, In r l -> exists c, heap g !! r = Some c /\ sweepable_card c = true) ->
  (forall r, P r = true -> mortal g r = true) ->
  List.filter P (collected g l) = List.filter (fun r => dies g r && P r) l.
Proof.
  intros Hpre HP. induction l as [|r l IH]; [reflexivity|].
  destruct (Hpre r (or_introl eq_refl)) as (c & Hc & Hsw).
  specialize (IH (fun x Hx => Hpre x (or_intror Hx))).
  unfold collected in *. cbn [flat_map List.filter]. rewrite List.filter_app, IH.
  clear IH. pose proof (HP r) as HPr.
  unfold marks, dies, mortal in *. rewrite Hc in *. unfold doomed.
  unfold sweepable_card in Hsw.
  destruct (doomed_creature c) as [d1|]; [|discriminate].
  destruct (doomed_walker c) as [d2|]; [|discriminate].
  destruct d1, d2, (indestructible c); cbn in *; destruct (P r);
    try reflexivity; try congruence; try (specialize (HPr eq_refl); congruence).
Qed.

(** The sweep on a battlefield it can run through: the cards it
    destroyed are in front of the old graveyard, the one destroyed
    last first. *)
Lemma stateBased_puts_first (g : Game) :
  sweepable g = true ->
  grave (state_after stateBased g)
  = rev (List.filter (fun r => dies g r && piled (state_after stateBased g) r)
           (field g))
    ++ grave g.
Proof.
  intros Hsw. unfold sweepable in Hsw.
  apply andb_true_iff in Hsw as [Hnd Hall].
  apply bool_decide_eq_true in Hnd.
  assert (Hcards : forall r, In r (field g) ->
            exists c, heap g !! r = Some c /\ sweepable_card c = true).
  { intros r Hr. rewrite forallb_forall in Hall. specialize (Hall r Hr).
    destruct (heap g !! r) as [c|]; [eauto|discriminate]. }
  clear Hall.
  assert (Hpre : forall r, In r (collected g (field g)) ->
            exists c, heap g !! r = Some c
                      /\ (indestructible c = true
                          \/ (In r (field g) /\ buried c <> None))).
  { intros r Hr. apply collected_in in Hr as [Hr Hm].
    destruct (Hcards r Hr) as (c & Hc & Hs). exists c. split; [exact Hc|].
    apply (marks_doomed g r c Hc) in Hm. unfold doomed in Hm.
    unfold sweepable_card in Hs.
    destruct (doomed_creature c) as [d1|]; [|discriminate].
    destruct (doomed_walker c) as [d2|]; [|discriminate].
    rewrite Hm in Hs. apply orb_true_iff in Hs as [Hs|Hs]; [now left|right].
    apply andb_true_iff in Hs as [_ Hs]. split; [exact Hr|].
    destruct (buried c); [discriminate|discriminate Hs]. }
  pose proof (collected_mortal_once g (field g) Hnd Hcards) as Honce.
  destruct (sweep_loop (collected g (field g)) g Hnd Hpre Honce)
    as (g1 & Hrun & _).
  assert (Hsb : stateBased g = (g1, Ok tt)).
  { unfold stateBased.
    rewrite (bind_run _ _ g g (field g) eq_refl).
    rewrite (bind_run _ _ _ _ _ (dying_spec (field g) g Hcards)).
    exact Hrun. }
  unfold state_after. rewrite Hsb. cbn [fst].
  rewrite (sweep_graveyard _ g g1 Hnd Hpre Honce Hrun).
  f_equal. f_equal.
  rewrite (collected_filter _ g (field g) Hcards).
  - apply filter_ext. intros r. unfold dies, mortal.
    destruct (heap g !! r) as [c|]; [|reflexivity].
    destruct (doomed c), (indestructible c), (piled g1 r); reflexivity.
  - intros r Hr. now apply andb_true_iff in Hr as [Hr _].
Qed.




(** What the sweep does. On a battlefield the sweep can run through
    ([sweepable]), [stateBased] returns, and for every battlefield card:
    a creature of effective toughness 0 or a planeswalker of counter
    count 0 that does not have Indestructible is no longer in the
    battlefield list, its zone tag is Graveyard (Command for a
    commander), and it is in the graveyard list afterwards exactly if it
    was there before or is neither a token nor the commander; such a
    card with Indestructible, and every other card, is still on the
    battlefield, unchanged, and has not entered the graveyard list. *)
Lemma stateBased_sweeps (g : Game) :
  sweepable g = true ->
  exists g1,
    stateBased g = (g1, Ok tt)
    /\ forall r c,
         In r (field g) -> heap g !! r = Some c ->
         (doomed c = true -> indestructible c = false ->
          ~ In r (field g1)
          /\ exists c1 token,
               buried c = Some (c1, token)
               /\ heap g1 !! r = Some c1
               /\ Card.zone c1
                  = (if Card.commander c then Card.COMMAND else Card.GRAVEYARD)
               /\ (In r (grave g1)
                   <-> In r (grave g)
                       \/ (token = false /\ is_commander r g = false)))
         /\ (doomed c = true -> indestructible c = true ->
             In r (field g1) /\ heap g1 !! r = Some c
             /\ (In r (grave g1) <-> In r (grave g)))
         /\ (doomed c = false ->
             In r (field g1) /\ heap g1 !! r = Some c
             /\ (In r (grave g1) <-> In r (grave g))).
Proof.
  intros Hsw. unfold sweepable in Hsw.
  apply andb_true_iff in Hsw as [Hnd Hall].
  apply bool_decide_eq_true in Hnd.
  assert (Hcards : forall r, In r (field g) ->
            exists c, heap g !! r = Some c /\ sweepable_card c = true).
  { intros r Hr. rewrite forallb_forall in Hall. specialize (Hall r Hr).
    destruct (heap g !! r) as [c|]; [eauto|discriminate]. }
  clear Hall.
  destruct (sweep_loop (collected g (field g)) g Hnd) as (g1 & Hrun & _ & _ & Hpost).
  { intros r Hr. apply collected_in in Hr as [Hr Hm].
    destruct (Hcards r Hr) as (c & Hc & Hs). exists c. split; [exact Hc|].
    apply (marks_doomed g r c Hc) in Hm. unfold doomed in Hm.
    unfold sweepable_card in Hs.
    destruct (doomed_creature c) as [d1|]; [|discriminate].
    destruct (doomed_walker c) as [d2|]; [|discriminate].
    rewrite Hm in Hs. apply orb_true_iff in Hs as [Hs|Hs]; [now left|right].
    apply andb_true_iff in Hs as [_ Hs]. split; [exact Hr|].
    destruct (buried c); [discriminate|discriminate Hs]. }
  { apply collected_mortal_once; assumption. }
  exists g1. split.
  { unfold stateBased.
    rewrite (bind_run _ _ g g (field g) eq_refl).
    rewrite (bind_run _ _ _ _ _ (dying_spec (field g) g Hcards)).
    exact Hrun. }
  intros r c Hr Hc. destruct (Hpost r) as [Hk Hs].
  assert (Hin : doomed c = true -> In r (collected g (field g))).
  { intros Hd. apply collected_in. split; [exact Hr|].
    now apply (marks_doomed g r c Hc). }
  assert (Hmo : mortal g r = negb (indestructible c)).
  { unfold mortal. now rewrite Hc. }
  split; [|split].
  - intros Hd Hi.
    destruct (Hk (Hin Hd)) as (Hnf & c0 & c1 & token & H0 & Hb & Hh & Hg).
    { now rewrite Hmo, Hi. }
    assert (c0 = c) as -> by congruence.
    split; [exact Hnf|]. exists c1, token.
    split; [exact Hb|]. split; [exact Hh|]. split; [|exact Hg].
    eapply buried_zone; eassumption.
  - intros Hd Hi. destruct Hs as (Hf & Hh & Hg).
    { intros [_ Hm]. rewrite Hmo, Hi in Hm. discriminate. }
    split; [now apply Hf|]. split; [congruence|exact Hg].
  - intros Hd. destruct Hs as (Hf & Hh & Hg).
    { intros [Hx _]. apply collected_in in Hx as [_ Hx].
      apply (marks_doomed g r c Hc) in Hx. congruence. }
    split; [now apply Hf|]. split; [congruence|exact Hg].
Qed.

(** Grizzly Bears (0), Darksteel Myr (1) and Jace Beleren (2) are in
    play, with a token copy of the Bears (3); every creature has got
    -0/-2 and Jace has lost his three counters. The sweep buries the
    Bears and Jace, the token is gone without reaching the graveyard,
    and the indestructible Myr stays. *)
Lemma stateBased_sweeps_example :
  let g := state_after
             (draw 3 ;; play Sample.reversing (Obj 0) ;; play Sample.reversing (Obj 1) ;;
              play Sample.reversing (Obj 2) ;; copy (Obj 0) ;;
              toughness (-2) (Str "Creature") ;; counters (-3) (Obj 2))
             (Sample.loaded [Sample.bears; Sample.myr; Sample.jace]) in
  field g = [0; 1; 2; 3]
  /\ exists g1,
       stateBased g = (g1, Ok tt)
       /\ (~ In 0 (field g1) /\ In 0 (grave g1))
       /\ (In 1 (field g1) /\ ~ In 1 (grave g1))
       /\ (~ In 2 (field g1) /\ In 2 (grave g1))
       /\ (~ In 3 (field g1) /\ ~ In 3 (grave g1)).
Proof.
  cbv zeta. split; [reflexivity|].
  match goal with
  | |- exists g1, stateBased ?g = _ /\ _ =>
      destruct (stateBased_sweeps g eq_refl) as (g1 & Hrun & Hpost);
      exists g1; split; [exact Hrun|];
      pose proof (Hpost 0 _ (or_introl eq_refl) eq_refl) as (H0 & _ & _);
      pose proof (Hpost 1 _ (or_intror (or_introl eq_refl)) eq_refl) as (_ & H1 & _);
      pose proof (Hpost 2 _ (or_intror (or_intror (or_introl eq_refl))) eq_refl)
        as (H2 & _ & _);
      pose proof (Hpost 3 _ (or_intror (or_intror (or_intror (or_introl eq_refl))))
                    eq_refl) as (H3 & _ & _)
  end.
  destruct (H0 eq_refl eq_refl) as (Hf0 & c0 & t0 & Hb0 & _ & _ & Hg0).
  destruct (H2 eq_refl eq_refl) as (Hf2 & c2 & t2 & Hb2 & _ & _ & Hg2).
  destruct (H3 eq_refl eq_refl) as (Hf3 & c3 & t3 & Hb3 & _ & _ & Hg3).
  destruct (H1 eq_refl eq_refl) as (Hf1 & _ & Hg1).
  vm_compute in Hb0. injection Hb0 as _ <-.
  vm_compute in Hb2. injection Hb2 as _ <-.
  vm_compute in Hb3. injection Hb3 as _ <-.
  repeat split; try assumption.
  - apply Hg0. right. split; reflexivity.
  - intros Hin. apply Hg1 in Hin. destruct Hin.
  - apply Hg2. right. split; reflexivity.
  - intros Hin. apply Hg3 in Hin as [[]|[Hd _]]. discriminate Hd.
Qed.

(** C4. Darksteel Myr (0/1, Indestructible) with -0/-1 is a battlefield
    creature of effective toughness 0. The first loop of [stateBased]
    collects it, but the sweep removes what it collected with [kill],
    and [kill] spares Indestructible: the sweep returns and the Myr is
    still on the battlefield, in no graveyard, the game unchanged.
    Grizzly Bears brought to toughness 0 the same way are swept into
    the graveyard. *)
Theorem C4_sweep_spares_indestructible :
  let g := state_after
             (draw 1 ;; play Sample.reversing (Obj 0) ;; toughness (-1) (Obj 0))
             (Sample.loaded [Sample.myr]) in
  let g1 := state_after stateBased g in
  let b := state_after
             (draw 1 ;; play Sample.reversing (Obj 0) ;; toughness (-2) (Obj 0))
             (Sample.loaded [Sample.bears]) in
  let b1 := state_after stateBased b in
  (field g = [0]
   /\ Card.type (Sample.card_at g 0) = Ok "Artifact Creature"
   /\ Card.toughness (Sample.card_at g 0) = Ok (Some 0%Z)
   /\ collected g (field g) = [0])
  /\ (outcome stateBased g = Ok tt
      /\ field g1 = [0] /\ grave g1 = []
      /\ Card.zone (Sample.card_at g1 0) = Card.BATTLEFIELD
      /\ g1 = g)
  /\ (field b = [0]
      /\ Card.toughness (Sample.card_at b 0) = Ok (Some 0%Z)
      /\ outcome stateBased b = Ok tt
      /\ field b1 = [] /\ grave b1 = [0]
      /\ Card.zone (Sample.card_at b1 0) = Card.GRAVEYARD).
Proof. vm_compute. repeat split. Qed.
(* ===================================================================== *)
(** ** Further properties of [card.py] *)
(* ===================================================================== *)

Section CardMore.

(** [int] on a one-character string. *)
Lemma int_char (ch : ascii) :
  int (String ch EmptyString)
  = if is_digit ch then Ok (Z.of_N (N_of_ascii ch) - 48)%Z else Raise ValueError.
Proof. destruct ch as [[] [] [] [] [] [] [] []]; vm_compute; reflexivity. Qed.

Lemma cmc_loop_spec (cost : string) (acc : Z) :
  Card.cmc_loop cost acc
  = if forallb is_digit (list_ascii_of_string cost)
    then Ok (acc + fold_right (fun ch s => (Z.of_N (N_of_ascii ch) - 48 + s)%Z) 0%Z
                     (list_ascii_of_string cost))%Z
    else Raise ValueError.
Proof.
  revert acc. induction cost as [|ch rest IH]; intros acc.
  - simpl. f_equal. lia.
  - cbn [Card.cmc_loop list_ascii_of_string forallb fold_right].
    rewrite int_char. destruct (is_digit ch); [|reflexivity].
    cbn [rbind andb]. rewrite IH.
    destruct (forallb is_digit (list_ascii_of_string rest)); [|reflexivity].
    f_equal. lia.
Qed.

Lemma append_cons (c : ascii) (u s : string) :
  String.append (String c u) s = String c (String.append u s).
Proof. reflexivity. Qed.

Lemma append_nil (s : string) : String.append EmptyString s = s.
Proof. reflexivity. Qed.

(** Strings: [rstrip] leaves a prefix that ends in a visible character
    alone. *)
Lemma rstrip_visible (c : ascii) (s : string) :
  is_space c = false -> exists s1, rstrip (String c s) = String c s1.
Proof.
  intros Hc. cbn [rstrip]. destruct (rstrip s); [|eauto].
  rewrite Hc. eauto.
Qed.

Lemma rstrip_keeps_word (w v : string) :
  w <> EmptyString ->
  forallb (fun c => negb (is_space c)) (list_ascii_of_string w) = true ->
  exists v1, rstrip (String.append w v) = String.append w v1.
Proof.
  induction w as [|c w IH]; [congruence|]. intros _ Hw.
  cbn [list_ascii_of_string forallb] in Hw. apply andb_true_iff in Hw as [Hc Hw].
  apply negb_true_iff in Hc.
  destruct w as [|c1 w1].
  - rewrite append_cons, append_nil.
    destruct (rstrip_visible c v Hc) as [s1 Hs1]. exists s1.
    now rewrite append_cons, append_nil.
  - destruct (IH ltac:(discriminate) Hw) as [v1 Hv1].
    rewrite append_cons.
    change (rstrip (String c (String.append (String c1 w1) v)))
      with (match rstrip (String.append (String c1 w1) v) with
            | EmptyString => if is_space c then EmptyString else String c EmptyString
            | rest' => String c rest'
            end).
    rewrite Hv1. rewrite append_cons. exists v1. now rewrite !append_cons.
Qed.

Lemma rstrip_after_prefix (u s : string) :
  rstrip s <> EmptyString -> rstrip (String.append u s) = String.append u (rstrip s).
Proof.
  intros Hs. induction u as [|c u IH]; [reflexivity|].
  change (String.append (String c u) s) with (String c (String.append u s)).
  change (rstrip (String c (String.append u s)))
    with (match rstrip (String.append u s) with
          | EmptyString => if is_space c then EmptyString else String c EmptyString
          | rest' => String c rest'
          end).
  rewrite IH.
  destruct (String.append u (rstrip s)) eqn:E.
  - destruct u; cbn [String.append] in E; [contradiction|discriminate].
  - now rewrite append_cons, E.
Qed.

Lemma prefix_append (p s : string) : String.prefix p (String.append p s) = true.
Proof.
  induction p as [|c p IH]; [now destruct s|].
  rewrite append_cons. change (String.prefix (String c p) (String c (String.append p s)))
    with (if ascii_dec c c then String.prefix p (String.append p s) else false).
  destruct (ascii_dec c c); [exact IH|contradiction].
Qed.

Lemma contains_unfold (needle hay : string) :
  contains needle hay
  = String.prefix needle hay
    || match hay with
       | EmptyString => false
       | String _ rest => contains needle rest
       end.
Proof. destruct hay; reflexivity. Qed.

Lemma contains_append (u p s : string) :
  contains p (String.append u (String.append p s)) = true.
Proof.
  induction u as [|c u IH].
  - rewrite append_nil.
    assert (forall h, String.prefix p h = true -> contains p h = true) as Hp.
    { intros h Hh. rewrite contains_unfold. now rewrite Hh. }
    apply Hp, prefix_append.
  - rewrite append_cons, contains_unfold, IH. apply orb_true_r.
Qed.

Lemma fold_appends (keep : string -> bool) (l : list string) (init : string) :
  exists tail,
    fold_left (fun acc cardtype =>
                 if keep cardtype
                 then String.append acc (String.append cardtype " ") else acc)
              l init
    = String.append init tail.
Proof.
  revert init. induction l as [|w l IH]; intros init; cbn [fold_left].
  - exists EmptyString. clear. induction init; [reflexivity|]. rewrite append_cons. congruence.
  - destruct (keep w); [|apply IH].
    destruct (IH (String.append init (String.append w " "))) as [t Ht].
    exists (String.append (String.append w " ") t). rewrite Ht.
    clear. induction init; [reflexivity|]. rewrite !append_cons. congruence.
Qed.

Lemma append_assoc (a b c : string) :
  String.append (String.append a b) c = String.append a (String.append b c).
Proof. induction a; [reflexivity|]. rewrite !append_cons. congruence. Qed.

Lemma leave_keeps_commander (c : Card.t) :
  Card.__commander (Card.leave c) = Card.__commander c.
Proof.
  unfold Card.leave, Card.transform.
  destruct (Card.__transformed c || Card.__facedown c), (Card.__flip c);
    destruct c; cbn;
    match goal with
    | |- context [if ?b then _ else _] => destruct b
    end; reflexivity.
Qed.

End CardMore.

Section CardMoreFacts.

Lemma str_in_In (s : string) (l : list string) : str_in s l = true -> In s l.
Proof.
  unfold str_in. intros H. apply existsb_exists in H as (x & Hx & He).
  apply String.eqb_eq in He. now subst.
Qed.

Lemma zone_set_zone (z : Card.Zone) (c : Card.t) : Card.__zone (Card.set_zone z c) = z.
Proof. now destruct c. Qed.

Lemma commander_set_zone (z : Card.Zone) (c : Card.t) :
  Card.__commander (Card.set_zone z c) = Card.__commander c.
Proof. now destruct c. Qed.

(** The keyword pass only ever records keyword constants. *)
Lemma scan_word_recognised (s : Card.scan) (word : string) :
  Forall (fun k => str_in k Card.KEYWORDS = true) (Card.things s) ->
  Forall (fun k => str_in k Card.KEYWORDS = true) (Card.things (Card.scan_word s word))
  /\ Card.found (Card.scan_word s word) = Card.found s.
Proof.
  intros Ht. unfold Card.scan_word.
  destruct (str_in (Card.clean_word word) Card.KEYWORDS) eqn:Hk;
    cbn [Card.things Card.found]; [|auto].
  split; [|reflexivity]. apply Forall_app. split; [exact Ht|].
  constructor; [exact Hk|constructor].
Qed.

Lemma scan_words_recognised (words : list string) (s : Card.scan) :
  Forall (fun k => str_in k Card.KEYWORDS = true) (Card.things s) ->
  Forall (fun k => str_in k Card.KEYWORDS = true)
    (Card.things (fold_left Card.scan_word words s))
  /\ Card.found (fold_left Card.scan_word words s) = Card.found s.
Proof.
  revert s. induction words as [|w words IH]; intros s Ht; cbn [fold_left]; [auto|].
  destruct (scan_word_recognised s w Ht) as [Ht1 Hf1].
  destruct (IH _ Ht1) as [Ht2 Hf2]. split; [exact Ht2|congruence].
Qed.

Lemma scan_lines_recognised (lines : list string) (s : Card.scan) :
  Forall (fun k => str_in k Card.KEYWORDS = true) (Card.things s) ->
  Forall (fun k => str_in k Card.KEYWORDS = true) (Card.found s) ->
  Forall (fun k => str_in k Card.KEYWORDS = true)
    (Card.found (fold_left Card.scan_line lines s)).
Proof.
  revert s. induction lines as [|l lines IH]; intros s Ht Hf; cbn [fold_left]; [exact Hf|].
  destruct (scan_words_recognised (split "," l) s Ht) as [Ht1 Hf1].
  apply IH; unfold Card.scan_line;
    destruct (Card.validLine (fold_left Card.scan_word (split "," l) s));
    cbn [Card.things Card.found]; rewrite ?Hf1; auto.
  apply Forall_app. auto.
Qed.

Lemma morph_pass_recognised (text : string) (kws : list string) :
  Forall (fun k => str_in k Card.KEYWORDS = true) kws ->
  Forall (fun k => str_in k Card.KEYWORDS = true) (Card.morph_pass text kws).
Proof.
  intros H. unfold Card.morph_pass.
  destruct (Card.search_morph text) as [m|]; [|exact H].
  destruct (split " " m) as [|w ws]; [exact H|].
  destruct (String.eqb w Card.MORPH).
  - apply Forall_app. split; [exact H|].
    constructor; [|constructor]. reflexivity.
  - destruct (String.eqb w Card.MEGAMORPH); [|exact H].
    apply Forall_app. split; [exact H|].
    constructor; [|constructor]. reflexivity.
Qed.

(** Once a token is not a keyword, the pass records nothing more. *)
Lemma scan_word_stays_invalid (s : Card.scan) (word : string) :
  Card.validLine s = false -> Card.validLine (Card.scan_word s word) = false.
Proof.
  intros H. unfold Card.scan_word.
  destruct (str_in (Card.clean_word word) Card.KEYWORDS); cbn [Card.validLine]; auto.
Qed.

Lemma scan_words_stay_invalid (words : list string) (s : Card.scan) :
  Card.validLine s = false -> Card.validLine (fold_left Card.scan_word words s) = false.
Proof.
  revert s. induction words as [|w words IH]; intros s H; cbn [fold_left]; [exact H|].
  apply IH. now apply scan_word_stays_invalid.
Qed.

Lemma scan_words_bad_token (words : list string) (s : Card.scan) :
  existsb (fun w => negb (str_in (Card.clean_word w) Card.KEYWORDS)) words = true ->
  Card.validLine (fold_left Card.scan_word words s) = false.
Proof.
  revert s. induction words as [|w words IH]; intros s H; [discriminate|].
  cbn [existsb fold_left] in *.
  destruct (str_in (Card.clean_word w) Card.KEYWORDS) eqn:Hk; cbn [negb orb] in H.
  - now apply IH.
  - apply scan_words_stay_invalid. unfold Card.scan_word. now rewrite Hk.
Qed.

Lemma scan_line_invalid (s : Card.scan) (line : string) :
  Card.validLine s = false ->
  Card.validLine (Card.scan_line s line) = false
  /\ Card.found (Card.scan_line s line) = Card.found s.
Proof.
  intros H. unfold Card.scan_line.
  pose proof (scan_words_stay_invalid (split "," line) s H) as Hv.
  rewrite Hv. split; [exact Hv|].
  clear Hv H. generalize (split "," line). intros words. revert s.
  induction words as [|w words IH]; intros s; cbn [fold_left]; [reflexivity|].
  rewrite IH. unfold Card.scan_word.
  destruct (str_in (Card.clean_word w) Card.KEYWORDS); reflexivity.
Qed.

Lemma scan_lines_invalid (lines : list string) (s : Card.scan) :
  Card.validLine s = false ->
  Card.found (fold_left Card.scan_line lines s) = Card.found s.
Proof.
  revert s. induction lines as [|l lines IH]; intros s H; cbn [fold_left]; [reflexivity|].
  destruct (scan_line_invalid s l H) as [Hv Hf]. rewrite IH; assumption.
Qed.

Lemma scan_line_bad (s : Card.scan) (line : string) :
  existsb (fun w => negb (str_in (Card.clean_word w) Card.KEYWORDS)) (split "," line) = true ->
  Card.validLine (Card.scan_line s line) = false
  /\ Card.found (Card.scan_line s line) = Card.found s.
Proof.
  intros H. unfold Card.scan_line.
  pose proof (scan_words_bad_token _ s H) as Hv. rewrite Hv. split; [exact Hv|].
  generalize (split "," line). intros words. clear. revert s.
  induction words as [|w words IH]; intros s; cbn [fold_left]; [reflexivity|].
  rewrite IH. unfold Card.scan_word.
  destruct (str_in (Card.clean_word w) Card.KEYWORDS); reflexivity.
Qed.

End CardMoreFacts.

(** X7: [cmc] returns a number only for a cost written with digits
    alone, and then it is the sum of the digits (so "12" counts 3); on
    any cost holding another character, such as a colour letter or
    [X], it raises [ValueError]. *)
Theorem cmc_counts_digit_costs_only (c : Card.t) :
  Card.cmc c
  = if forallb is_digit (list_ascii_of_string (Card.cost c))
    then Ok (fold_right (fun ch s => (Z.of_N (N_of_ascii ch) - 48 + s)%Z) 0%Z
               (list_ascii_of_string (Card.cost c)))
    else Raise ValueError.
Proof.
  unfold Card.cmc, Card.cost. rewrite cmc_loop_spec.
  destruct (forallb is_digit (list_ascii_of_string (Card.__cost c))); reflexivity.
Qed.

(** X1: the zone rules of [Card.move]. A move that succeeds keeps
    the commander flag; it leaves a commander in the hand, on the
    battlefield or in the command zone (any other target is redirected
    to the command zone), and any other card in the zone asked for,
    which is never the command zone and, for an emblem, always the
    battlefield. A move raises only for a card that is not a
    commander, exactly when an emblem is sent off the battlefield or
    another card to the command zone, and what it raises is a
    [ZoneError]. *)
Theorem move_zone_rules (zone : Card.Zone) (c : Card.t) :
  match Card.move zone c with
  | Ok c1 =>
      Card.commander c1 = Card.commander c
      /\ (Card.commander c = true ->
          Card.zone c1 = (if bool_decide (zone = Card.HAND \/ zone = Card.BATTLEFIELD)
                          then zone else Card.COMMAND))
      /\ (Card.commander c = false ->
          Card.zone c1 = zone /\ zone <> Card.COMMAND
          /\ (contains Card.EMBLEM (Card.__type c) = true -> zone = Card.BATTLEFIELD))
  | Raise e =>
      Card.commander c = false
      /\ (if contains Card.EMBLEM (Card.__type c)
          then zone <> Card.BATTLEFIELD else zone = Card.COMMAND)
      /\ exists msg, e = ZoneError msg
  end.
Proof.
  unfold Card.move, Card.zone, Card.commander.
  destruct (Card.__commander c) eqn:Hcmd;
    [|destruct (contains Card.EMBLEM (Card.__type c)) eqn:Hemb];
    destruct (bool_decide (Card.__zone c = Card.BATTLEFIELD));
    destruct zone; cbn [bool_decide negb andb orb rbind];
    repeat match goal with
           | |- context [bool_decide ?P] =>
               let v := eval vm_compute in (bool_decide P) in
               change (bool_decide P) with v
           end;
    cbn [negb andb orb rbind];
    rewrite ?leave_keeps_zone, ?leave_keeps_commander, ?zone_set_zone,
      ?commander_set_zone;
    repeat split; try congruence; try discriminate; eauto.
Qed.

(** The type line [copy] builds holds "Token". *)
Lemma copy_marks_token (c : Card.t) :
  contains Card.TOKEN (Card.__type (Card.copy c)) = true.
Proof.
  unfold Card.copy.
  destruct (contains Card.TOKEN (Card.__type c)) eqn:Ht; cbn [negb]; [exact Ht|].
  match goal with
  | |- context [fold_left ?f ?l (String.append ?supers (String.append ?tok " "))] =>
      destruct (fold_appends (fun w => negb (str_in w Card.SUPERTYPES)) l
                  (String.append supers (String.append tok " "))) as [tail Htail];
      set (sup := supers) in *
  end.
  rewrite Htail.
  replace (Card.__type (Card.set_type
             (rstrip (String.append (String.append sup (String.append Card.TOKEN " ")) tail)) c))
    with (rstrip (String.append (String.append sup (String.append Card.TOKEN " ")) tail))
    by now destruct c.
  rewrite !append_assoc.
  destruct (rstrip_keeps_word Card.TOKEN (String.append " " tail)) as [v1 Hv1];
    [discriminate|reflexivity|].
  rewrite rstrip_after_prefix; rewrite Hv1; [|discriminate].
  apply contains_append.
Qed.

(** X2: the copy of a card is a token: its type line contains
    "Token". It differs from the original in the type line only, a
    card that is a token already is copied as it is, and copying the
    copy changes nothing more. *)
Theorem copy_is_a_token (c : Card.t) :
  contains Card.TOKEN (Card.__type (Card.copy c)) = true
  /\ Card.set_type (Card.__type c) (Card.copy c) = c
  /\ (contains Card.TOKEN (Card.__type c) = true -> Card.copy c = c)
  /\ Card.copy (Card.copy c) = Card.copy c.
Proof.
  split; [apply copy_marks_token|]. split; [|split].
  - unfold Card.copy. destruct (negb (contains Card.TOKEN (Card.__type c)));
      now destruct c.
  - intros Ht. unfold Card.copy. now rewrite Ht.
  - unfold Card.copy at 1. now rewrite copy_marks_token.
Qed.

(** X3: whatever the rules text, the keywords a newly built
    card reports are all among the keyword constants of [Card.KEYWORDS]:
    no other word of the text is ever recorded as a keyword. *)
Theorem constructed_keywords_are_recognised
    (name cost type subtype power toughness text : string)
    (transform : option string) (c : Card.t) :
  Card.__init__ name cost type subtype power toughness text transform = Ok c ->
  Forall (fun k => In k Card.KEYWORDS) (Card.keywords c).
Proof.
  unfold Card.__init__.
  destruct (Card.cost_ok cost || String.eqb cost "TRANSFORM"); [|discriminate].
  destruct (contains Card.CREATURE type);
    destruct (int power) as [p|]; cbn [rbind]; try discriminate;
    destruct (int toughness) as [tg|]; cbn [rbind]; try discriminate;
    destruct (String.eqb type Card.PLANESWALKER); cbn [rbind]; try discriminate.
  all: match goal with
       | |- (if ?b then _ else _) = _ -> _ => destruct b
       end; intros [= <-].
  all: unfold Card.keywords, Card.__parseText, Card.__morphToken, Card.linkBackSide;
    cbn [Card.set_keywords Card.set_morph Card.set_backSide Card.set_linked
         Card.__split Card.__keywords Card.__anthemKeywordMod Card.__keywordMods
         Card.__text app];
    rewrite app_nil_r;
    eapply Forall_impl;
      [apply morph_pass_recognised; unfold Card.keyword_pass;
       apply scan_lines_recognised; constructor
      |intros k Hk; now apply str_in_In].
Qed.

(** Witness for X3: Abzan Guide, built from its decklist line. *)
Lemma constructed_keywords_witness :
  Forall (fun k => In k Card.KEYWORDS) (Card.keywords Sample.guide).
Proof.
  apply (constructed_keywords_are_recognised "Abzan Guide" "3WBG" "Creature"
           "Human Warrior" "4" "4" "Lifelink\ Morph 2WBG" None).
  vm_compute. reflexivity.
Defined.

(** X4: the keyword pass stops for good at the first line that
    holds a token which is not a keyword: what it records for the whole
    text is what it records for the lines before that one, and nothing
    at all when that line is the first. *)
Theorem keyword_pass_stops_at_first_bad_line
    (text : string) (kws pre post : list string) (bad : string) :
  split "010" text = pre ++ bad :: post ->
  existsb (fun w => negb (str_in (Card.clean_word w) Card.KEYWORDS))
          (split "," bad) = true ->
  (pre = [] -> Card.keyword_pass text kws = kws)
  /\ (forall text', split "010" text' = pre ->
        Card.keyword_pass text kws = Card.keyword_pass text' kws).
Proof.
  intros Hsplit Hbad.
  assert (Card.keyword_pass text kws
          = Card.found (fold_left Card.scan_line pre (Card.mkScan [] true kws))) as H.
  { unfold Card.keyword_pass. rewrite Hsplit, fold_left_app. cbn [fold_left].
    destruct (scan_line_bad (fold_left Card.scan_line pre (Card.mkScan [] true kws))
                bad Hbad) as [Hv Hf].
    now rewrite scan_lines_invalid. }
  split.
  - intros ->. exact H.
  - intros text' Hpre. rewrite H. unfold Card.keyword_pass. now rewrite Hpre.
Qed.

Lemma keyword_pass_stops_witness :
  Card.keyword_pass
    (String.append "Flying"
       (String "010" (String.append "Draw a card." (String "010" "Trample")))) []
  = Card.keyword_pass "Flying" [].
Proof.
  apply (proj2 (keyword_pass_stops_at_first_bad_line
                  (String.append "Flying"
                     (String "010" (String.append "Draw a card." (String "010" "Trample"))))
                  [] ["Flying"] ["Trample"] "Draw a card." eq_refl eq_refl)).
  reflexivity.
Defined.

(** X5: a card built from a decklist line starts in the library,
    untapped, and shows its own name and type line; if the type line
    contains "Creature" it is summoning sick and reports the printed
    power and toughness, a negative one as 0; otherwise it reports no
    power and no toughness and is not summoning sick. *)
Theorem constructed_card_reports_printed_stats
    (name cost type subtype power toughness text : string)
    (transform : option string) (c : Card.t) :
  Card.__init__ name cost type subtype power toughness text transform = Ok c ->
  Card.zone c = Card.LIBRARY /\ Card.tapped c = false
  /\ Card.name c = Ok name /\ Card.type c = Ok type
  /\ Card.summonSick c = contains Card.CREATURE type
  /\ (if contains Card.CREATURE type
      then exists p t, int power = Ok p /\ int toughness = Ok t
                       /\ Card.power c = Ok (Some (Z.max 0 p))
                       /\ Card.toughness c = Ok (Some (Z.max 0 t))
      else Card.power c = Ok None /\ Card.toughness c = Ok None).
Proof.
  unfold Card.__init__.
  destruct (Card.cost_ok cost || String.eqb cost "TRANSFORM"); [|discriminate].
  destruct (contains Card.CREATURE type) eqn:Hcr;
    destruct (int power) as [p|]; cbn [rbind]; try discriminate;
    destruct (int toughness) as [tg|]; cbn [rbind]; try discriminate;
    destruct (String.eqb type Card.PLANESWALKER); cbn [rbind]; try discriminate.
  all: match goal with
       | |- (if ?b then _ else _) = _ -> _ => destruct b
       end; intros [= <-].
  all: unfold Card.zone, Card.tapped, Card.name, Card.type, Card.summonSick,
         Card.power, Card.toughness, Card.flipped,
         Card.__parseText, Card.__morphToken, Card.linkBackSide;
    cbn [Card.set_keywords Card.set_morph Card.set_backSide Card.set_linked
         Card.__split Card.__zone Card.__tapped Card.__name Card.__type
         Card.__transformed Card.__facedown Card.__summoningSickness
         Card.__power Card.__toughness Card.__powerMod Card.__toughnessMod
         Card.__anthemPowerBonus Card.__anthemToughnessBonus Card.__plusone
         orb Card.attr rbind];
    rewrite ?Hcr; cbn [rbind Card.attr].
  all: repeat split; try reflexivity.
  all: try (exists p, tg; repeat split;
            match goal with
            | |- (if (?v <? 0)%Z then _ else _) = _ =>
                destruct (Z.ltb_spec v 0); do 2 f_equal; lia
            end).
Qed.

Lemma constructed_card_witness :
  Card.zone Sample.bears = Card.LIBRARY /\ Card.tapped Sample.bears = false
  /\ Card.name Sample.bears = Ok "Grizzly Bears" /\ Card.type Sample.bears = Ok "Creature"
  /\ Card.summonSick Sample.bears = contains Card.CREATURE "Creature"
  /\ (if contains Card.CREATURE "Creature"
      then exists p t, int "2" = Ok p /\ int "2" = Ok t
                       /\ Card.power Sample.bears = Ok (Some (Z.max 0 p))
                       /\ Card.toughness Sample.bears = Ok (Some (Z.max 0 t))
      else Card.power Sample.bears = Ok None /\ Card.toughness Sample.bears = Ok None).
Proof.
  apply (constructed_card_reports_printed_stats "Grizzly Bears" "1G" "Creature" "Bear"
           "2" "2" "" None).
  vm_compute. reflexivity.
Defined.

(** X6: what [endTurn] undoes. A power or toughness change made
    with [modPower] or [modToughness] and a keyword granted with
    [modKeywords] are gone after [endTurn], as if they had never been
    made, except that the summoning sickness a granted Haste has
    cleared stays cleared; +1/+1 counters and counter changes are
    kept: [endTurn] commutes with [modPlusOne] and [modCounters]. *)
Theorem endTurn_undoes_temporary_changes (n : Z) (keyword : string) (c : Card.t) :
  Card.endTurn (Card.modPower n c) = Card.endTurn c
  /\ Card.endTurn (Card.modToughness n c) = Card.endTurn c
  /\ Card.set_summoningSickness (Card.__summoningSickness c)
       (Card.endTurn (Card.modKeywords keyword c)) = Card.endTurn c
  /\ Card.keywords (Card.endTurn (Card.modKeywords keyword c))
     = Card.keywords (Card.endTurn c)
  /\ Card.endTurn (Card.modPlusOne n c) = Card.modPlusOne n (Card.endTurn c)
  /\ Card.endTurn (Card.modCounters n c) = Card.modCounters n (Card.endTurn c).
Proof.
  assert (Card.set_summoningSickness (Card.__summoningSickness c)
            (Card.endTurn (Card.modKeywords keyword c)) = Card.endTurn c) as Hk.
  { unfold Card.modKeywords.
    destruct (str_in keyword Card.KEYWORDS); [|now destruct c].
    destruct (String.eqb keyword Card.MORPH); [now destruct c|].
    destruct (String.eqb keyword Card.MEGAMORPH); [now destruct c|].
    cbn [negb andb orb].
    destruct (negb (str_in keyword (Card.keywords c))); [|now destruct c].
    destruct (String.eqb keyword Card.HASTE); now destruct c. }
  repeat split.
  - unfold Card.modPower.
    destruct (contains Card.CREATURE (Card.__type c)
              && bool_decide (Card.__zone c = Card.BATTLEFIELD)); now destruct c.
  - unfold Card.modToughness.
    destruct (contains Card.CREATURE (Card.__type c)
              && bool_decide (Card.__zone c = Card.BATTLEFIELD)); now destruct c.
  - exact Hk.
  - rewrite <- Hk. unfold Card.keywords.
    now destruct (Card.endTurn (Card.modKeywords keyword c)).
  - unfold Card.modPlusOne.
    replace (Card.__type (Card.endTurn c)) with (Card.__type c) by now destruct c.
    replace (Card.__zone (Card.endTurn c)) with (Card.__zone c) by now destruct c.
    destruct (contains Card.CREATURE (Card.__type c)
              && bool_decide (Card.__zone c = Card.BATTLEFIELD)); now destruct c.
  - unfold Card.modCounters.
    replace (Card.__zone (Card.endTurn c)) with (Card.__zone c) by now destruct c.
    destruct (decide (Card.__zone c = Card.BATTLEFIELD)); [|reflexivity].
    destruct c; cbn.
    match goal with
    | |- context [if ?b then _ else _] => destruct b
    end; reflexivity.
Qed.
(* ===================================================================== *)
(** ** Further properties of [play.py] *)
(* ===================================================================== *)

(** X24: [mill] never mills. Asked for one card or more it raises
    before anything is written, [IndexError] on an empty library and
    [AttributeError] otherwise; asked for none it returns at once. *)
Theorem mill_never_mills (n : Z) (g : Game) :
  mill n g
  = (g, if (n <=? 0)%Z then Ok tt
        else match library g with
             | [] => Raise IndexError
             | _ :: _ => Raise AttributeError
             end).
Proof.
  unfold mill. destruct (Z.leb_spec n 0) as [Hn|Hn].
  - replace (Z.to_nat n) with 0%nat by lia. reflexivity.
  - destruct (Z.to_nat n) as [|k] eqn:Hk; [lia|].
    cbn [mill_loop]. unfold bind, gets, ret, raise.
    destruct (library g); reflexivity.
Qed.

(** [modStat] on the statistics of player two, and of player one. *)
Lemma modStat_p2 (stat : string) (number : Z) (g : Game) :
  let g1 := state_after (modStat "p2" stat number) g in
  outcome (modStat "p2" stat number) g = Ok tt
  /\ p1Win g1 = p1Win g || loses stat (p2Life g) (p2Poison g) (p2Commander g) number
  /\ p2Win g1 = p2Win g
  /\ p2Life g1 = (if String.eqb stat "life" then p2Life g + number
                  else if String.eqb stat "commander" then p2Life g - number
                  else p2Life g)%Z.
Proof.
  unfold modStat, loses, state_after, outcome.
  change (String.eqb "p2" "p1") with false. change (String.eqb "p2" "p2") with true.
  cbv iota.
  destruct (String.eqb stat "life") eqn:H1;
    [apply String.eqb_eq in H1; subst stat|];
    [|destruct (String.eqb stat "poison") eqn:H2;
      [apply String.eqb_eq in H2; subst stat|];
      [|destruct (String.eqb stat "commander") eqn:H3;
        [apply String.eqb_eq in H3; subst stat|]]].
  all: repeat match goal with
              | |- context [String.eqb ?a ?b] =>
                  let v := eval vm_compute in (String.eqb a b) in
                  change (String.eqb a b) with v
              end.
  all: destruct g; unfold when, bind, modify, gets, ret; cbn.
  all: repeat match goal with
              | |- context [(?a <=? ?b)%Z] => destruct (a <=? b)%Z
              | |- context [(?a <? ?b)%Z] => destruct (a <? b)%Z
              end; cbn; rewrite ?orb_false_r, ?orb_true_r; repeat split.
Qed.

Lemma modStat_p1 (stat : string) (number : Z) (g : Game) :
  let g1 := state_after (modStat "p1" stat number) g in
  outcome (modStat "p1" stat number) g = Ok tt
  /\ p2Win g1 = p2Win g || loses stat (p1Life g) (p1Poison g) (p1Commander g) number
  /\ p1Win g1 = p1Win g
  /\ p1Life g1 = (if String.eqb stat "life" then p1Life g + number
                  else if String.eqb stat "commander" then p1Life g - number
                  else p1Life g)%Z.
Proof.
  unfold modStat, loses, state_after, outcome.
  change (String.eqb "p1" "p1") with true.
  cbv iota.
  destruct (String.eqb stat "life") eqn:H1;
    [apply String.eqb_eq in H1; subst stat|];
    [|destruct (String.eqb stat "poison") eqn:H2;
      [apply String.eqb_eq in H2; subst stat|];
      [|destruct (String.eqb stat "commander") eqn:H3;
        [apply String.eqb_eq in H3; subst stat|]]].
  all: repeat match goal with
              | |- context [String.eqb ?a ?b] =>
                  let v := eval vm_compute in (String.eqb a b) in
                  change (String.eqb a b) with v
              end.
  all: destruct g; unfold when, bind, modify, gets, ret; cbn.
  all: repeat match goal with
              | |- context [(?a <=? ?b)%Z] => destruct (a <=? b)%Z
              | |- context [(?a <? ?b)%Z] => destruct (a <? b)%Z
              end; cbn; rewrite ?orb_false_r, ?orb_true_r; repeat split.
Qed.

(** X21: what [modStat] does to the win flags. A change to player
    two's statistics sets player one's flag exactly when the statistic
    changed passes its threshold, and never clears a flag; commander
    damage also comes off the life total, but the life total is not
    tested then. The same holds with the players exchanged, and for
    any other player name [CommandError] is raised and nothing is
    written. *)
Theorem modStat_win_flags (stat : string) (number : Z) (g : Game) :
  (let g1 := state_after (modStat "p2" stat number) g in
   outcome (modStat "p2" stat number) g = Ok tt
   /\ p1Win g1 = p1Win g || loses stat (p2Life g) (p2Poison g) (p2Commander g) number
   /\ p2Win g1 = p2Win g
   /\ p2Life g1 = (if String.eqb stat "life" then p2Life g + number
                   else if String.eqb stat "commander" then p2Life g - number
                   else p2Life g)%Z)
  /\ (let g1 := state_after (modStat "p1" stat number) g in
      outcome (modStat "p1" stat number) g = Ok tt
      /\ p2Win g1 = p2Win g || loses stat (p1Life g) (p1Poison g) (p1Commander g) number
      /\ p1Win g1 = p1Win g
      /\ p1Life g1 = (if String.eqb stat "life" then p1Life g + number
                      else if String.eqb stat "commander" then p1Life g - number
                      else p1Life g)%Z)
  /\ (forall player, player <> "p1" -> player <> "p2" ->
      modStat player stat number g = (g, Raise CommandError)).
Proof.
  split; [apply modStat_p2|]. split; [apply modStat_p1|].
  intros player H1 H2. unfold modStat.
  apply String.eqb_neq in H1, H2. now rewrite H1, H2.
Qed.

(** X22: when a change to player two's statistics passes its
    threshold, the [checkVictory] that follows ends the game and
    announces player one as the winner. *)
Theorem lethal_change_ends_the_game (stat : string) (number : Z) (g : Game) :
  loses stat (p2Life g) (p2Poison g) (p2Commander g) number = true ->
  let m := (modStat "p2" stat number ;; checkVictory) in
  outcome m g = Ok tt
  /\ p1Win (state_after m g) = true
  /\ GAME_OVER (state_after m g) = true
  /\ In "Player 1 win" (stdout (state_after m g)).
Proof.
  intros Hl m.
  destruct (modStat_p2 stat number g) as (Hout & Hw & _).
  rewrite Hl, orb_true_r in Hw.
  unfold state_after, outcome in *. subst m. unfold bind.
  destruct (modStat "p2" stat number g) as [g1 o] eqn:Hm.
  cbn [fst snd] in *. subst o.
  unfold checkVictory, bind, gets, when, modify, print, ret. rewrite Hw.
  destruct g1; cbn in *.
  destruct p2Win0; cbn; repeat split; rewrite ?in_app_iff; cbn; tauto.
Qed.

Lemma lethal_change_witness :
  let g := Sample.loaded [] in
  let m := (modStat "p2" "poison" 10 ;; checkVictory) in
  outcome m g = Ok tt
  /\ p1Win (state_after m g) = true
  /\ GAME_OVER (state_after m g) = true
  /\ In "Player 1 win" (stdout (state_after m g)).
Proof.
  apply (lethal_change_ends_the_game "poison" 10 (Sample.loaded [])).
  reflexivity.
Defined.

(* ------------------------------------------------------------------- *)
(** *** Running a command step by step *)

Lemma call_run (r : ref) (f : Card.t -> Card.t) (c : Card.t) (g : Game) :
  heap g !! r = Some c -> call r f g = (set_heap (<[r := f c]> (heap g)) g, Ok tt).
Proof. intros H. unfold call, bind, deref, store, modify. now rewrite H. Qed.

Lemma set_stdout_same (g : Game) : set_stdout (stdout g) g = g.
Proof. now destruct g. Qed.

Lemma top_loop (g : Game) (len : nat) : forall (start : nat) (out : list string),
  (forall r, In r (library g) ->
     exists c nm, heap g !! r = Some c /\ Card.name c = Ok nm) ->
  (start + len <= length (library g))%nat ->
  for_each (seq start len)
    (fun i => lib <- gets library ;;
              match lib !! i with
              | Some card => nm <- query card Card.name ;; print nm
              | None => raise IndexError
              end)
    (set_stdout out g)
  = (set_stdout (out ++ map (shown_name g) (take len (drop start (library g)))) g, Ok tt).
Proof.
  induction len as [|len IH]; intros start out Hread Hlen.
  - cbn. now rewrite app_nil_r.
  - cbn [seq for_each].
    destruct (lookup_lt_is_Some_2 (library g) start ltac:(lia)) as [card Hcard].
    destruct (Hread card) as (c & nm & Hc & Hnm).
    { apply list_elem_of_In. eapply list_elem_of_lookup_2. exact Hcard. }
    assert (take (S len) (drop start (library g))
            = card :: take len (drop (S start) (library g))) as ->.
    { rewrite (drop_S _ _ _ Hcard). reflexivity. }
    unfold bind at 1. unfold bind at 1. unfold gets at 1.
    replace (library (set_stdout out g)) with (library g) by now destruct g.
    rewrite Hcard.
    rewrite (bind_run _ _ _ _ _ (query_run card Card.name (set_stdout out g) c nm
                                   ltac:(now destruct g) Hnm)).
    unfold print, modify.
    replace (set_stdout (stdout (set_stdout out g) ++ [nm]) (set_stdout out g))
      with (set_stdout (out ++ [nm]) g) by now destruct g.
    rewrite IH; [|exact Hread|lia].
    cbn [map]. unfold shown_name at 2. rewrite Hc, Hnm.
    now rewrite <- app_assoc.
Qed.

(** X23: [top(n)] prints the names of the first [n] cards of the
    library, top card first, and all of them when the library holds
    fewer: it never raises [IndexError], and it writes nothing but what
    it prints. *)
Theorem top_prints_the_first_cards (n : Z) (g : Game) :
  (forall r, In r (library g) ->
     exists c nm, heap g !! r = Some c /\ Card.name c = Ok nm) ->
  top n g
  = (set_stdout (stdout g ++ map (shown_name g) (take (Z.to_nat n) (library g))) g,
     Ok tt).
Proof.
  intros Hread. unfold top. unfold bind at 1. unfold gets at 1.
  set (k := Z.to_nat (if (Z.of_nat (length (library g)) <? n)%Z
                      then Z.of_nat (length (library g)) else n)).
  assert (take (Z.to_nat n) (library g) = take k (drop 0 (library g))) as ->.
  { subst k. destruct (Z.ltb_spec (Z.of_nat (length (library g))) n) as [H|H].
    - rewrite Nat2Z.id, drop_0. rewrite !take_ge; [reflexivity|lia|lia].
    - reflexivity. }
  rewrite <- (set_stdout_same g) at 1.
  apply top_loop; [exact Hread|].
  subst k. destruct (Z.ltb_spec (Z.of_nat (length (library g))) n); lia.
Qed.

Lemma top_prints_witness :
  let g := Sample.loaded [Sample.bears; Sample.shock] in
  top 5 g
  = (set_stdout (stdout g ++ map (shown_name g) (take (Z.to_nat 5) (library g))) g,
     Ok tt).
Proof.
  apply (top_prints_the_first_cards 5 (Sample.loaded [Sample.bears; Sample.shock])).
  intros r Hr. cbn in Hr.
  destruct Hr as [<-|[<-|[]]]; eexists; eexists; split; reflexivity.
Defined.

(** X16: [copy] makes a new object, the token copy of the card,
    and appends it to the battlefield; the card copied is left as it
    was and no other list changes. *)
Theorem copy_adds_a_new_token (r : ref) (c : Card.t) (g : Game) :
  heap g !! r = Some c ->
  let g1 := state_after (copy (Obj r)) g in
  let token := length (heap g) in
  outcome (copy (Obj r)) g = Ok tt
  /\ g1 = set_field (field g ++ [token]) (set_heap (heap g ++ [Card.copy c]) g)
  /\ token <> r
  /\ heap g1 !! r = Some c
  /\ heap g1 !! token = Some (Card.copy c)
  /\ contains Card.TOKEN (Card.__type (Card.copy c)) = true.
Proof.
  intros Hc g1 token. subst g1.
  pose proof (lookup_lt_Some _ _ _ Hc) as Hlt.
  unfold state_after, outcome, copy, the_card.
  rewrite (bind_run _ _ g g r eq_refl).
  rewrite (bind_run _ _ _ _ _ (deref_run r c g Hc)).
  unfold bind, alloc, zappend, modify. subst token.
  destruct g; cbn in *.
  repeat split.
  - lia.
  - rewrite lookup_app_l; assumption.
  - rewrite lookup_app_r by lia. now rewrite Nat.sub_diag.
  - apply copy_marks_token.
Qed.

Lemma copy_adds_witness :
  let g := state_after (draw 1 ;; play Sample.reversing (Obj 0))
             (Sample.loaded [Sample.bears]) in
  let g1 := state_after (copy (Obj 0)) g in
  let token := length (heap g) in
  outcome (copy (Obj 0)) g = Ok tt
  /\ g1 = set_field (field g ++ [token])
            (set_heap (heap g ++ [Card.copy (Sample.played Sample.bears)]) g)
  /\ token <> 0%nat
  /\ heap g1 !! 0%nat = Some (Sample.played Sample.bears)
  /\ heap g1 !! token = Some (Card.copy (Sample.played Sample.bears))
  /\ contains Card.TOKEN (Card.__type (Card.copy (Sample.played Sample.bears))) = true.
Proof.
  apply (copy_adds_a_new_token 0 (Sample.played Sample.bears)
           (state_after (draw 1 ;; play Sample.reversing (Obj 0))
              (Sample.loaded [Sample.bears]))).
  vm_compute. reflexivity.
Defined.

(** [draw_loop] on a library of distinct cards that are tagged
    Library. *)
Lemma draw_loop_spec (n : nat) : forall g,
  NoDup (library g) ->
  (forall r, In r (library g) ->
     exists c, heap g !! r = Some c /\ Card.zone c = Card.LIBRARY) ->
  exists h1,
    draw_loop n g
    = (set_hand (hand g ++ take n (library g))
         (set_library (drop n (library g)) (set_heap h1 g)),
       if (n <=? length (library g))%nat then Ok tt else Raise IndexError)
    /\ forall r c, heap g !! r = Some c ->
         h1 !! r = Some (if ref_in r (take n (library g))
                         then Card.set_zone Card.HAND c else c).
Proof.
  induction n as [|n IH]; intros g Hnd Hlib.
  - exists (heap g). split; [|intros r c Hc; exact Hc].
    cbn. rewrite app_nil_r. now destruct g.
  - destruct (library g) as [|r rest] eqn:Elib.
    + exists (heap g). split; [|intros r c Hc; exact Hc].
      destruct g; cbn in *. subst. cbn. now rewrite app_nil_r.
    + destruct (Hlib r (or_introl eq_refl)) as (c & Hc & Hz).
      apply NoDup_cons in Hnd as [Hr Hnd].
      set (g3 := set_hand (hand g ++ [r])
                   (set_heap (<[r := Card.set_zone Card.HAND c]> (heap g))
                      (set_library rest g))).
      assert (draw_loop (S n) g = draw_loop n g3) as ->.
      { subst g3. cbn [draw_loop].
        unfold zpop0, call_raising, bind, gets, modify, ret, deref, lift, store,
          zappend.
        destruct g; cbn in *. subst. cbn. rewrite Hc. cbn.
        unfold Card.draw, Card.zone in *. rewrite Hz.
        destruct (decide (Card.LIBRARY = Card.LIBRARY)); [|contradiction].
        reflexivity. }
      destruct (IH g3) as (h1 & Hrun & Hheap).
      { subst g3. destruct g; cbn in *. exact Hnd. }
      { intros r' Hr'. assert (In r' rest) as Hin by (subst g3; destruct g; exact Hr').
        destruct (Hlib r' (or_intror Hin)) as (c' & Hc' & Hz').
        exists c'. split; [|exact Hz'].
        subst g3. destruct g; cbn in *.
        rewrite list_lookup_insert_ne; [exact Hc'|].
        intros ->. apply Hr. now apply list_elem_of_In. }
      exists h1. split.
      * rewrite Hrun. subst g3. destruct g; cbn in *. subst.
        now rewrite <- app_assoc.
      * intros r0 c0 Hc0.
        assert (library g3 = rest) as E3 by (subst g3; now destruct g).
        rewrite E3 in Hheap.
        assert (heap g3 = <[r := Card.set_zone Card.HAND c]> (heap g)) as Eh
          by (subst g3; now destruct g).
        cbn [take ref_in existsb].
        destruct (Nat.eqb_spec r0 r) as [->|Hne].
        -- assert (ref_in r (take n rest) = false) as Hnot.
           { apply not_true_is_false. intros Hin. unfold ref_in in Hin.
             apply existsb_exists in Hin as (x & Hx & He).
             apply Nat.eqb_eq in He. subst x.
             apply Hr. apply list_elem_of_In in Hx.
             apply elem_of_take in Hx as (i & Hi & _).
             eapply list_elem_of_lookup_2. exact Hi. }
           rewrite (Hheap r (Card.set_zone Card.HAND c)), Hnot.
           ++ cbn [orb].
              assert (Some c0 = Some c) as E by (etransitivity; [symmetry; exact Hc0|exact Hc]).
              now injection E as ->.
           ++ rewrite Eh. apply list_lookup_insert_eq.
              eapply lookup_lt_Some; eassumption.
        -- cbn [orb]. apply Hheap. rewrite Eh.
           rewrite list_lookup_insert_ne; [exact Hc0|congruence].
Qed.

(** X14: on a library of distinct cards tagged Library, [draw(n)]
    returns normally, takes the first [n] cards off the library (all
    of them if it holds fewer), appends them to the hand in that order
    and tags them Hand; no other card and no other variable of the
    game changes, the win flags included. *)
Theorem draw_takes_the_top_cards (number : Z) (g : Game) :
  NoDup (library g) ->
  (forall r, In r (library g) ->
     exists c, heap g !! r = Some c /\ Card.zone c = Card.LIBRARY) ->
  let drawn := take (Z.to_nat number) (library g) in
  exists h1,
    draw number g
    = (set_hand (hand g ++ drawn)
         (set_library (drop (Z.to_nat number) (library g)) (set_heap h1 g)),
       Ok tt)
    /\ forall r c, heap g !! r = Some c ->
         h1 !! r = Some (if ref_in r drawn then Card.set_zone Card.HAND c else c).
Proof.
  intros Hnd Hlib drawn.
  destruct (draw_loop_spec (Z.to_nat number) g Hnd Hlib) as (h1 & Hrun & Hheap).
  exists h1. split; [|exact Hheap].
  unfold draw. rewrite Hrun.
  now destruct (Z.to_nat number <=? length (library g))%nat.
Qed.

Lemma draw_takes_witness :
  let g := Sample.loaded [Sample.bears; Sample.shock; Sample.jace] in
  let drawn := take (Z.to_nat 2) (library g) in
  exists h1,
    draw 2 g
    = (set_hand (hand g ++ drawn)
         (set_library (drop (Z.to_nat 2) (library g)) (set_heap h1 g)),
       Ok tt)
    /\ forall r c, heap g !! r = Some c ->
         h1 !! r = Some (if ref_in r drawn then Card.set_zone Card.HAND c else c).
Proof.
  apply (draw_takes_the_top_cards 2
           (Sample.loaded [Sample.bears; Sample.shock; Sample.jace])).
  - exact (NoDup_seq 0 3).
  - intros r Hr. cbn in Hr.
    destruct Hr as [<-|[<-|[<-|[]]]]; eexists; split; reflexivity.
Defined.

(** Leaving the battlefield face up: nothing the accessors read
    through the face changes. *)
Lemma leave_face_up (c : Card.t) :
  Card.flipped c = false ->
  Card.flipped (Card.leave c) = false
  /\ Card.__type (Card.leave c) = Card.__type c
  /\ Card.__name (Card.leave c) = Card.__name c.
Proof.
  unfold Card.flipped, Card.leave. intros Hf. rewrite Hf.
  apply orb_false_iff in Hf as [Ht Hfd].
  destruct c; cbn in *. subst.
  match goal with
  | |- context [contains Card.CREATURE ?t && ?b] =>
      destruct (contains Card.CREATURE t && b)
  end; cbn; auto.
Qed.

(** What [leave] does not reset: the granted keywords, the +1/+1
    counters and the anthem bonuses. *)
Lemma leave_keeps_grants (c : Card.t) :
  Card.keywords (Card.leave c) = Card.keywords c
  /\ Card.__plusone (Card.leave c) = Card.__plusone c
  /\ Card.__anthemPowerBonus (Card.leave c) = Card.__anthemPowerBonus c
  /\ Card.__anthemToughnessBonus (Card.leave c) = Card.__anthemToughnessBonus c.
Proof.
  unfold Card.leave, Card.transform, Card.keywords.
  destruct (Card.__transformed c || Card.__facedown c), (Card.__flip c);
    destruct c; cbn;
    match goal with
    | |- context [if ?b then _ else _] => destruct b
    end; cbn; auto.
Qed.

Lemma move_to_hand_face_up (c : Card.t) :
  Card.zone c = Card.BATTLEFIELD -> Card.flipped c = false ->
  contains Card.EMBLEM (Card.__type c) = false ->
  exists c1,
    Card.move Card.HAND c = Ok c1
    /\ Card.zone c1 = Card.HAND /\ Card.tapped c1 = false
    /\ Card.__powerMod c1 = 0%Z /\ Card.__toughnessMod c1 = 0%Z
    /\ Card.__countersMod c1 = 0%Z
    /\ Card.type c1 = Ok (Card.__type c) /\ Card.name c1 = Ok (Card.__name c)
    /\ (Card.keywords c1 = Card.keywords c
        /\ Card.__plusone c1 = Card.__plusone c
        /\ Card.__anthemPowerBonus c1 = Card.__anthemPowerBonus c
        /\ Card.__anthemToughnessBonus c1 = Card.__anthemToughnessBonus c).
Proof.
  intros Hz Hf He.
  exists (Card.leave (Card.set_zone Card.HAND c)).
  assert (Card.flipped (Card.set_zone Card.HAND c) = false) as Hf1
    by (destruct c; exact Hf).
  destruct (leave_face_up _ Hf1) as (Hf2 & Hty & Hnm).
  destruct (leave_resets (Card.set_zone Card.HAND c)) as (Hp & Ht & Hc & Htap & _).
  destruct (leave_keeps_grants (Card.set_zone Card.HAND c)) as (Hk & Hpl & Hap & Hat).
  split.
  - unfold Card.move. unfold Card.zone in Hz. rewrite Hz, He.
    repeat match goal with
           | |- context [bool_decide ?P] =>
               let v := eval vm_compute in (bool_decide P) in
               change (bool_decide P) with v
           end.
    cbn [negb andb]. now destruct (Card.__commander c).
  - unfold Card.zone, Card.type, Card.name.
    rewrite leave_keeps_zone, zone_set_zone, Hf2, Hty, Hnm, Hk, Hpl, Hap, Hat.
    repeat split; try assumption; now destruct c.
Qed.

(** X15: bouncing a face-up card of the battlefield that is not
    an emblem takes it off the battlefield list and appends it to the
    hand, unless it is a token, which vanishes. The card is tagged
    Hand and untapped, and its power, toughness and counter deltas are
    set to 0; the keywords it was granted, its +1/+1 counters and its
    anthem bonuses are not cleared: [Card.leave] does not write them,
    so power and toughness may still differ from the printed values.
    No other list and no other card changes. *)
Theorem bounce_returns_to_hand (r : ref) (c : Card.t) (g : Game) :
  heap g !! r = Some c -> In r (field g) ->
  Card.zone c = Card.BATTLEFIELD -> Card.flipped c = false ->
  contains Card.EMBLEM (Card.__type c) = false ->
  exists c1 f1,
    list_remove r (field g) = Some f1
    /\ bounce (Obj r) g
       = (set_hand (if contains Card.TOKEN (Card.__type c)
                    then hand g else hand g ++ [r])
            (set_field f1 (set_heap (<[r := c1]> (heap g)) g)),
          Ok tt)
    /\ Card.zone c1 = Card.HAND /\ Card.tapped c1 = false
    /\ Card.__powerMod c1 = 0%Z /\ Card.__toughnessMod c1 = 0%Z
    /\ Card.__countersMod c1 = 0%Z
    /\ Card.keywords c1 = Card.keywords c
    /\ Card.__plusone c1 = Card.__plusone c
    /\ Card.__anthemPowerBonus c1 = Card.__anthemPowerBonus c
    /\ Card.__anthemToughnessBonus c1 = Card.__anthemToughnessBonus c.
Proof.
  intros Hc Hin Hz Hf He.
  destruct (move_to_hand_face_up c Hz Hf He)
    as (c1 & Hmove & Hz1 & Ht1 & Hp1 & Hto1 & Hco1 & Hty & Hnm & Hk & Hpl & Hap & Hat).
  destruct (list_remove_in r (field g) Hin) as [f1 Hrem].
  exists c1, f1. repeat split; try assumption.
  assert (Hr : (r < length (heap g))%nat) by (eapply lookup_lt_Some; eassumption).
  unfold bounce. cbn [in_TYPES the_card].
  rewrite (bind_run _ _ g g r eq_refl).
  rewrite (bind_run _ _ _ _ _ (call_raising_run r _ c c1 g Hc Hmove)).
  unfold to_hand.
  erewrite bind_run; [|apply zremove_run; destruct g; cbn in *; exact Hrem].
  erewrite bind_run;
    [|apply (query_run _ _ _ c1 (Card.__type c)); [|exact Hty]; destruct g; cbn;
      apply list_lookup_insert_eq; exact Hr].
  destruct (contains Card.TOKEN (Card.__type c)); destruct g; reflexivity.
Qed.

(** Grizzly Bears in play are granted Flying and bounced: back in the
    hand they still have it. *)
Lemma bounce_returns_witness :
  let g := state_after (draw 1 ;; play Sample.reversing (Obj 0)
                        ;; call 0 (Card.modKeywords "Flying"))
             (Sample.loaded [Sample.bears]) in
  let c := Card.modKeywords "Flying" (Sample.played Sample.bears) in
  exists c1 f1,
    list_remove 0 (field g) = Some f1
    /\ bounce (Obj 0) g
       = (set_hand (if contains Card.TOKEN (Card.__type c)
                    then hand g else hand g ++ [0%nat])
            (set_field f1 (set_heap (<[0%nat := c1]> (heap g)) g)),
          Ok tt)
    /\ Card.zone c1 = Card.HAND /\ Card.tapped c1 = false
    /\ Card.__powerMod c1 = 0%Z /\ Card.__toughnessMod c1 = 0%Z
    /\ Card.__countersMod c1 = 0%Z
    /\ Card.keywords c1 = Card.keywords c
    /\ Card.__plusone c1 = Card.__plusone c
    /\ Card.__anthemPowerBonus c1 = Card.__anthemPowerBonus c
    /\ Card.__anthemToughnessBonus c1 = Card.__anthemToughnessBonus c.
Proof.
  apply (bounce_returns_to_hand 0
           (Card.modKeywords "Flying" (Sample.played Sample.bears))
           (state_after (draw 1 ;; play Sample.reversing (Obj 0)
                         ;; call 0 (Card.modKeywords "Flying"))
              (Sample.loaded [Sample.bears])));
    vm_compute; auto.
Defined.

(* ------------------------------------------------------------------- *)
(** *** Looking zones and cards up *)

Section ZoneNames.

Variable p : Card.Zone -> bool.

Let step (acc : option Card.Zone * bool) (zone : Card.Zone) : option Card.Zone * bool :=
  let '(ret, valid) := acc in
  if p zone
  then (Some zone, match ret with Some _ => false | None => valid end)
  else (ret, valid).

Let answer (acc : option Card.Zone * bool) : option Card.Zone :=
  let '(ret, valid) := acc in if valid then ret else None.

Lemma scan_zones_invalid (l : list Card.Zone) (r0 : option Card.Zone) :
  answer (fold_left step l (r0, false)) = None.
Proof.
  revert r0. induction l as [|x l IH]; intros r0; [reflexivity|].
  cbn [fold_left]. unfold step at 2. destruct (p x); [|apply IH].
  destruct r0; apply IH.
Qed.

Lemma scan_zones_second (l : list Card.Zone) (x : Card.Zone) (v0 : bool) :
  answer (fold_left step l (Some x, v0))
  = if existsb p l then None else if v0 then Some x else None.
Proof.
  revert x v0. induction l as [|y l IH]; intros x v0; [reflexivity|].
  cbn [fold_left existsb]. unfold step at 2. destruct (p y); cbn [orb].
  - apply scan_zones_invalid.
  - apply IH.
Qed.

Lemma scan_zones_first (l : list Card.Zone) :
  answer (fold_left step l (None, true))
  = match List.filter p l with
    | [z] => Some z
    | _ => None
    end.
Proof.
  induction l as [|y l IH]; [reflexivity|].
  cbn [fold_left List.filter]. unfold step at 2. destruct (p y); [|exact IH].
  rewrite scan_zones_second.
  destruct (existsb p l) eqn:He.
  - apply existsb_exists in He as (z & Hz & Hp).
    assert (In z (List.filter p l)) as Hin by (apply filter_In; auto).
    destruct (List.filter p l); [contradiction|reflexivity].
  - destruct (List.filter p l) as [|z m] eqn:Hf; [reflexivity|].
    assert (In z (List.filter p l)) as Hin by (rewrite Hf; now left).
    apply filter_In in Hin as [Hin Hp].
    assert (existsb p l = true) as Ht by (apply existsb_exists; eauto).
    congruence.
Qed.

Lemma filter_only (l : list Card.Zone) (z : Card.Zone) :
  NoDup l -> In z l -> p z = true ->
  (forall z', In z' l -> p z' = true -> z' = z) ->
  List.filter p l = [z].
Proof.
  induction l as [|x l IH]; intros Hnd Hin Hp Huniq; [contradiction|].
  apply NoDup_cons in Hnd as [Hx Hnd]. cbn [List.filter].
  assert (forall l', ~ In z l' -> (forall z', In z' l' -> p z' = true -> z' = z) ->
                     List.filter p l' = []) as Hnone.
  { clear. induction l' as [|y l' IH]; intros Hz Hu; [reflexivity|].
    cbn [List.filter]. destruct (p y) eqn:Hy.
    - exfalso. apply Hz. left. apply Hu; [now left|exact Hy].
    - apply IH; [intros H; apply Hz; now right|].
      intros z' Hz' Hp'. apply Hu; [now right|exact Hp']. }
  destruct (decide (x = z)) as [->|Hne].
  - rewrite Hp. f_equal. apply Hnone.
    + intros H. apply Hx. now apply list_elem_of_In.
    + intros z' Hz'. apply Huniq. now right.
  - destruct (p x) eqn:Hpx.
    + exfalso. apply Hne. apply Huniq; [now left|exact Hpx].
    + apply IH; try assumption.
      * destruct Hin as [->|Hin]; [contradiction|exact Hin].
      * intros z' Hz'. apply Huniq. now right.
Qed.

End ZoneNames.

Lemma lower_char_idem (c : ascii) : lower_char (lower_char c) = lower_char c.
Proof. destruct c as [[] [] [] [] [] [] [] []]; vm_compute; reflexivity. Qed.

Lemma lower_idem (s : string) : lower (lower s) = lower s.
Proof.
  induction s as [|c s IH]; [reflexivity|].
  cbn [lower]. now rewrite lower_char_idem, IH.
Qed.

Lemma getZoneNameFromString_filter (s : string) :
  getZoneNameFromString s
  = match List.filter (zone_matches s) Card.ZONES with
    | [z] => Some z
    | _ => None
    end.
Proof.
  rewrite <- scan_zones_first. unfold getZoneNameFromString.
  unfold zone_matches. cbv zeta.
  rewrite lower_idem. reflexivity.
Qed.

(** X8: [getZoneNameFromString] answers with a zone exactly when
    the name of that zone, and of no other zone, contains the string,
    letter case apart; otherwise it answers [None]. Every zone name in
    full names its own zone, and two strings that differ in letter
    case only get the same answer. *)
Theorem getZoneNameFromString_unique_match (s : string) (z : Card.Zone) :
  (getZoneNameFromString s = Some z
   <-> zone_matches s z = true /\ forall z', zone_matches s z' = true -> z' = z)
  /\ getZoneNameFromString (Card.zone_name z) = Some z
  /\ (forall s', lower s' = lower s ->
        getZoneNameFromString s' = getZoneNameFromString s).
Proof.
  assert (forall z', In z' Card.ZONES) as Hall
    by (intros []; cbn; tauto).
  assert (NoDup Card.ZONES) as Hnd.
  { apply (bool_decide_unpack (NoDup Card.ZONES)). vm_compute. exact I. }
  split; [|split].
  - rewrite getZoneNameFromString_filter. split.
    + intros H.
      destruct (List.filter (zone_matches s) Card.ZONES) as [|z1 [|z2 m]] eqn:Hf;
        try discriminate.
      injection H as ->.
      assert (forall z', In z' (List.filter (zone_matches s) Card.ZONES) <-> z' = z) as Hm.
      { intros z'. rewrite Hf. cbn. intuition. }
      split.
      * apply (proj1 (filter_In _ _ _) (proj2 (Hm z) eq_refl)).
      * intros z' Hz'. apply Hm. apply filter_In. auto.
    + intros [Hz Hu]. rewrite (filter_only _ _ z); auto.
  - destruct z; vm_compute; reflexivity.
  - intros s' Hs. rewrite !getZoneNameFromString_filter.
    assert (forall z', zone_matches s' z' = zone_matches s z') as E
      by (intros z'; unfold zone_matches; now rewrite Hs).
    now rewrite (filter_ext _ _ E).
Qed.

Lemma getCard_loop_member (wanted : string -> bool) (zone : list ref) :
  forall (skip : Z) (ret0 : option ref) (g g1 : Game) (r : ref),
  getCard_loop wanted zone skip ret0 g = (g1, Ok (Some r)) ->
  In r zone \/ ret0 = Some r.
Proof.
  induction zone as [|card rest IH]; intros skip ret0 g g1 r H; cbn [getCard_loop] in H.
  - apply ret_ok in H as [_ H]. now right.
  - apply bind_ok in H as (nm & g2 & Hq & H).
    destruct (wanted (lower nm)); [destruct (skip =? 0)%Z|].
    + apply ret_ok in H as [_ H]. injection H as ->. left. now left.
    + apply IH in H as [H|H]; [left; now right|].
      injection H as ->. left. now left.
    + apply IH in H as [H|H]; [left; now right|now right].
Qed.

Lemma getCard_result (args : list string) (zone : option (list ref))
      (cmd : option string) (g g1 : Game) (a : arg) :
  getCard args zone cmd g = (g1, Ok a) ->
  match a with
  | Obj r =>
      exists z, zone = Some z
                /\ (In r z
                    \/ (revealed g = true /\ z = hand g /\ cmd = Some "play"
                        /\ head (library g) = Some r))
  | Str s => In s Card.TYPES /\ s <> Card.EMBLEM
  end.
Proof.
  unfold getCard. intros H.
  destruct (last args) as [final|]; [|discriminate].
  destruct (match int final with Ok _ => _ | Raise _ => _ end) as [skip cardname].
  destruct (if String.eqb cardname "card" then zone else None) as [[|first l]|] eqn:Hgen.
  2: { apply ret_ok in H as [_ ->].
       destruct (String.eqb cardname "card"); [|discriminate]. subst zone.
       eexists. split; [reflexivity|]. left. now left. }
  all: destruct (find _ Card.TYPES) as [typeName|] eqn:Hfind;
    [apply ret_ok in H as [_ ->];
     apply find_some in Hfind as [Hin Hne]; split; [exact Hin|];
     apply andb_true_iff in Hne as [_ Hne]; apply negb_true_iff in Hne;
     now apply String.eqb_neq in Hne|].
  all: destruct zone as [[|z0 zs]|]; try discriminate.
  all: exec H; try discriminate.
  all: try match goal with
         | Hb : _ && _ && _ = true |- _ =>
             apply andb_true_iff in Hb as [Hb ?Hcmd];
             apply andb_true_iff in Hb as [?Hrev ?Hz];
             apply bool_decide_eq_true in Hcmd;
             apply bool_decide_eq_true in Hz
         end.
  all: try match goal with
         | Hl : getCard_loop _ _ _ _ _ = (_, Ok (Some _)) |- _ =>
             apply getCard_loop_member in Hl as [Hl|Hl]; [|discriminate]
         end.
  all: eexists; (split; [reflexivity|]); auto.
  all: right; repeat split; try assumption; try congruence.
  all: match goal with
       | Hx : library _ = _ :: _ |- _ => now rewrite Hx
       end.
Qed.

(** X9: [getCard] only looks: it leaves the game as it is,
    whatever it returns or raises. A card it returns is in the zone it
    was given, or is the top card of the library when the library is
    revealed and the hand is searched for [play]; it returns no card
    when it is given no zone. A type name it returns is one of
    [Card.TYPES] and is never "Emblem". *)
Theorem getCard_is_a_lookup (args : list string) (zone : option (list ref))
        (cmd : option string) (g : Game) :
  state_after (getCard args zone cmd) g = g
  /\ (forall r, outcome (getCard args zone cmd) g = Ok (Obj r) ->
        exists z, zone = Some z
                  /\ (In r z
                      \/ (revealed g = true /\ z = hand g /\ cmd = Some "play"
                          /\ head (library g) = Some r)))
  /\ (forall s, outcome (getCard args zone cmd) g = Ok (Str s) ->
        In s Card.TYPES /\ s <> Card.EMBLEM).
Proof.
  unfold state_after, outcome. split; [apply getCard_reads|].
  destruct (getCard args zone cmd g) as [g1 o] eqn:H. cbn [snd].
  split; intros x ->; exact (getCard_result _ _ _ _ _ _ H).
Qed.

(* ------------------------------------------------------------------- *)
(** *** What a command can raise *)

Lemma bind_raise_cases {A B : Type} (m : M A) (k : A -> M B) (g g1 : Game) (e : exn) :
  bind m k g = (g1, Raise e) ->
  m g = (g1, Raise e) \/ exists a g', m g = (g', Ok a) /\ k a g' = (g1, Raise e).
Proof.
  unfold bind. destruct (m g) as [g' [a|e']]; intros H.
  - right. eauto.
  - left. now injection H as -> ->.
Qed.

Section RaisesOnly.

Variable P : exn -> Prop.

Lemma ro_ret {A : Type} (a : A) : raises_only P (ret a).
Proof. intros g g1 e H. discriminate H. Qed.

Lemma ro_raise {A : Type} (e : exn) : P e -> raises_only P (raise (A := A) e).
Proof. intros He g g1 e' H. unfold raise in H. now injection H as _ <-. Qed.

Lemma ro_gets {A : Type} (f : Game -> A) : raises_only P (gets f).
Proof. intros g g1 e H. discriminate H. Qed.

Lemma ro_modify (f : Game -> Game) : raises_only P (modify f).
Proof. intros g g1 e H. discriminate H. Qed.

Lemma ro_lift {A : Type} (r : result A) :
  (forall e, r = Raise e -> P e) -> raises_only P (lift r).
Proof. intros Hr g g1 e H. unfold lift in H. injection H as _ ->. now apply Hr. Qed.

Lemma ro_bind {A B : Type} (m : M A) (k : A -> M B) :
  raises_only P m -> (forall a, raises_only P (k a)) -> raises_only P (bind m k).
Proof.
  intros Hm Hk g g1 e H.
  apply bind_raise_cases in H as [H|(a & g' & _ & H)]; [eapply Hm|eapply Hk]; eauto.
Qed.

Lemma ro_when (b : bool) (m : M unit) : raises_only P m -> raises_only P (when b m).
Proof. destruct b; [auto|]. intros _. apply ro_ret. Qed.

Lemma ro_for_each {A : Type} (l : list A) (body : A -> M unit) :
  (forall x, raises_only P (body x)) -> raises_only P (for_each l body).
Proof.
  intros H. induction l as [|x l IH]; cbn [for_each]; [apply ro_ret|].
  apply ro_bind; auto.
Qed.

Lemma ro_zappend (z : zlist) (r : ref) : raises_only P (zappend z r).
Proof. apply ro_modify. Qed.

Lemma ro_zinsert0 (z : zlist) (r : ref) : raises_only P (zinsert0 z r).
Proof. apply ro_modify. Qed.

Lemma ro_shuffle (permute : nat -> list ref -> list ref) : raises_only P (shuffle permute).
Proof. apply ro_modify. Qed.

Lemma ro_store (r : ref) (c : Card.t) : raises_only P (store r c).
Proof. apply ro_modify. Qed.

Hypothesis P_unallocated : P Unallocated.
Hypothesis P_attribute : P AttributeError.
Hypothesis P_value : P ValueError.
Hypothesis P_index : P IndexError.

Lemma ro_deref (r : ref) : raises_only P (deref r).
Proof.
  intros g g1 e H. unfold deref in H.
  destruct (heap g !! r); [discriminate|]. now injection H as _ <-.
Qed.

Lemma ro_the_card (card : arg) : raises_only P (the_card card).
Proof. destruct card; [apply ro_ret|now apply ro_raise]. Qed.

Lemma ro_query {A : Type} (r : ref) (f : Card.t -> result A) :
  (forall c e, f c = Raise e -> P e) -> raises_only P (query r f).
Proof.
  intros Hf. apply ro_bind; [apply ro_deref|]. intros c. apply ro_lift. apply Hf.
Qed.

Lemma ro_call (r : ref) (f : Card.t -> Card.t) : raises_only P (call r f).
Proof. apply ro_bind; [apply ro_deref|]. intros c. apply ro_store. Qed.

Lemma ro_call_raising (r : ref) (f : Card.t -> result Card.t) :
  (forall c e, f c = Raise e -> P e) -> raises_only P (call_raising r f).
Proof.
  intros Hf. apply ro_bind; [apply ro_deref|]. intros c.
  apply ro_bind; [apply ro_lift, Hf|]. intros c1. apply ro_store.
Qed.

Lemma ro_zremove (z : zlist) (r : ref) : raises_only P (zremove z r).
Proof.
  apply ro_bind; [apply ro_gets|]. intros l.
  destruct (list_remove r l); [apply ro_modify|now apply ro_raise].
Qed.

Lemma ro_zpop0 (z : zlist) : raises_only P (zpop0 z).
Proof.
  apply ro_bind; [apply ro_gets|]. intros l.
  destruct l; [now apply ro_raise|].
  apply ro_bind; [apply ro_modify|]. intros _. apply ro_ret.
Qed.

End RaisesOnly.

(** What the accessors and [Card.move] raise. *)
Lemma back_attr_raises {A : Type} (f : Card.t -> A) (c : Card.t) (e : exn) :
  Card.back_attr f c = Raise e -> e = AttributeError.
Proof. unfold Card.back_attr. destruct (Card.__backSide c); congruence. Qed.

Lemma type_raises (c : Card.t) (e : exn) : Card.type c = Raise e -> e = AttributeError.
Proof.
  unfold Card.type. destruct (Card.flipped c); [apply back_attr_raises|discriminate].
Qed.

Lemma name_raises (c : Card.t) (e : exn) : Card.name c = Raise e -> e = AttributeError.
Proof.
  unfold Card.name. destruct (Card.flipped c); [apply back_attr_raises|discriminate].
Qed.

Lemma rulestext_raises (c : Card.t) (e : exn) :
  Card.rulestext c = Raise e -> e = AttributeError.
Proof.
  unfold Card.rulestext. destruct (Card.flipped c); [apply back_attr_raises|discriminate].
Qed.

Lemma move_raises (zone : Card.Zone) (c : Card.t) (e : exn) :
  Card.move zone c = Raise e -> exists msg, e = ZoneError msg.
Proof.
  unfold Card.move, rbind.
  destruct (Card.__commander c);
    [|destruct (contains Card.EMBLEM (Card.__type c))];
    repeat match goal with
           | |- context [if ?b then _ else _] => destruct b
           end; intros H; try discriminate; injection H as <-; eauto.
Qed.

Ltac not_missing_structure :=
  repeat (intros;
          match goal with
          | |- raises_only _ (bind _ _) => apply ro_bind
          | |- raises_only _ (when _ _) => apply ro_when
          | |- raises_only _ (for_each _ _) => apply ro_for_each
          | |- raises_only _ (if ?b then _ else _) => destruct b
          | |- raises_only _ (match ?x with _ => _ end) => destruct x
          | |- raises_only _ (ret _) => apply ro_ret
          | |- raises_only _ (raise _) => apply ro_raise; intros ?; discriminate
          | |- raises_only _ (gets _) => apply ro_gets
          | |- raises_only _ (modify _) => apply ro_modify
          | |- raises_only _ (zappend _ _) => apply ro_zappend
          | |- raises_only _ (zinsert0 _ _) => apply ro_zinsert0
          | |- raises_only _ (shuffle _) => apply ro_shuffle
          | |- raises_only _ (zremove _ _) => apply ro_zremove; intros ?; discriminate
          | |- raises_only _ (zpop0 _) => apply ro_zpop0; intros ?; discriminate
          | |- raises_only _ (the_card _) => apply ro_the_card; intros ?; discriminate
          | |- raises_only _ (deref _) => apply ro_deref; intros ?; discriminate
          | |- raises_only _ (lift (Card.name _)) =>
              apply ro_lift; intros ? ?He; apply name_raises in He; subst;
              intros ?; discriminate
          | |- raises_only _ (query _ Card.type) =>
              apply ro_query; [intros ?; discriminate|];
              intros ? ? ?He; apply type_raises in He; subst; intros ?; discriminate
          | |- raises_only _ (call_raising _ (Card.move _)) =>
              apply ro_call_raising; [intros ?; discriminate|];
              intros ? ? ?He; apply move_raises in He as [? ->]; intros ?; discriminate
          end).

Lemma reads_state {A : Type} (m : M A) (g g1 : Game) (o : result A) :
  keeps eq m -> m g = (g1, o) -> g1 = g.
Proof. intros Hk H. specialize (Hk g). rewrite H in Hk. now symmetry. Qed.

#[local] Hint Extern 2 (_ = _ :> Game) => congruence : keeps.

(** X11: a [move] that raises [CardNotFoundError] has written
    nothing: the game is exactly as it was before the call. *)
Theorem move_not_found_writes_nothing
        (permute : nat -> list ref -> list ref) (fromZone toZone : string)
        (cardArgs : option (list string)) (g g1 : Game) (msg : string) :
  move permute fromZone toZone cardArgs g = (g1, Raise (CardNotFoundError msg)) ->
  g1 = g.
Proof.
  unfold move. intros H.
  destruct (getZoneNameFromString fromZone) as [fz|]; [|discriminate H].
  destruct (getZoneNameFromString toZone) as [tz|]; [|discriminate H].
  destruct (source_of fz) as [src sh].
  assert (forall (A : Type) (m : M A) (k : A -> M unit),
            keeps eq m ->
            (forall a, k a g = (g1, Raise (CardNotFoundError msg)) -> g1 = g) ->
            bind m k g = (g1, Raise (CardNotFoundError msg)) -> g1 = g) as Hstep.
  { intros A m k Hm Hk Hb.
    apply bind_raise_cases in Hb as [Hb|(a & g' & Ha & Hb)].
    - eapply reads_state; eassumption.
    - apply (reads_state _ _ _ _ Hm) in Ha. subst g'. exact (Hk a Hb). }
  destruct src as [z| |zn], cardArgs as [[|a args]|]; try discriminate H.
  all: revert H; apply Hstep; [keeps_structure|]; intros [card src1].
  all: apply Hstep; [keeps_structure|]; intros [card1|]; [|intros H; now injection H].
  all: intros H; exfalso;
    match type of H with
    | ?m _ = _ =>
        assert (raises_only not_missing m) as Hq by (unfold not_missing; not_missing_structure)
    end;
    exact (Hq _ _ _ H msg eq_refl).
Qed.

Lemma move_not_found_witness :
  let g := Sample.loaded [Sample.bears] in
  state_after (move Sample.reversing "hand" "graveyard" (Some ["bears"])) g = g.
Proof.
  apply (move_not_found_writes_nothing Sample.reversing "hand" "graveyard"
           (Some ["bears"]) (Sample.loaded [Sample.bears]) _ "bears").
  vm_compute. reflexivity.
Defined.

(* ------------------------------------------------------------------- *)
(** *** Loops over the battlefield *)

(** A loop whose body rewrites the card it is given with [F], run over
    a list without repetition, or with an [F] that changes nothing the
    second time. *)
Lemma for_each_alter (F : Card.t -> Card.t) (ok : Card.t -> Prop) (body : ref -> M unit) :
  (forall c, ok c -> ok (F c)) ->
  (forall r g c, heap g !! r = Some c -> ok c ->
     body r g = (set_heap (<[r := F c]> (heap g)) g, Ok tt)) ->
  forall l g,
    NoDup l \/ (forall c, F (F c) = F c) ->
    (forall r, In r l -> exists c, heap g !! r = Some c /\ ok c) ->
    exists h1,
      for_each l body g = (set_heap h1 g, Ok tt)
      /\ forall r c, heap g !! r = Some c ->
           h1 !! r = Some (if ref_in r l then F c else c).
Proof.
  intros Hok Hbody. induction l as [|x l IH]; intros g Hcase Hpre.
  - exists (heap g). split; [now destruct g|auto].
  - destruct (Hpre x (or_introl eq_refl)) as (cx & Hcx & Hokx).
    pose proof (lookup_lt_Some _ _ _ Hcx) as Hlt.
    set (g' := set_heap (<[x := F cx]> (heap g)) g).
    assert (heap g' = <[x := F cx]> (heap g)) as Eh by (subst g'; now destruct g).
    destruct (IH g') as (h1 & Hrun & Hheap).
    { destruct Hcase as [Hnd|Hid]; [|now right].
      left. now apply NoDup_cons in Hnd as [_ Hnd]. }
    { intros r Hr. rewrite Eh. destruct (Nat.eq_dec r x) as [->|Hne].
      - exists (F cx). split; [now apply list_lookup_insert_eq|auto].
      - destruct (Hpre r (or_intror Hr)) as (c & Hc & Hokc).
        exists c. split; [|exact Hokc].
        now rewrite list_lookup_insert_ne by congruence. }
    exists h1. split.
    + cbn [for_each]. unfold bind. rewrite (Hbody x g cx Hcx Hokx).
      fold g'. rewrite Hrun. subst g'. now destruct g.
    + intros r c Hc. cbn [ref_in existsb].
      destruct (Nat.eqb_spec r x) as [->|Hne]; cbn [orb].
      * assert (Some c = Some cx) as E
          by (etransitivity; [symmetry; exact Hc|exact Hcx]).
        injection E as ->.
        rewrite (Hheap x (F cx)) by (rewrite Eh; now apply list_lookup_insert_eq).
        destruct (ref_in x l) eqn:Hin; [|reflexivity].
        destruct Hcase as [Hnd|Hid]; [|now rewrite Hid].
        exfalso. apply NoDup_cons in Hnd as [Hx _]. apply Hx.
        unfold ref_in in Hin. apply existsb_exists in Hin as (y & Hy & He).
        apply Nat.eqb_eq in He. subst y. now apply list_elem_of_In.
      * apply Hheap. rewrite Eh. now rewrite list_lookup_insert_ne by congruence.
Qed.

Lemma set_heap_same (g : Game) (r : ref) (c : Card.t) :
  heap g !! r = Some c -> set_heap (<[r := c]> (heap g)) g = g.
Proof. intros H. rewrite list_insert_id by exact H. now destruct g. Qed.

(** X18: [endTurn] succeeds on any battlefield whose cards
    exist, and rewrites each of them with [Card.endTurn]: the power
    and toughness changes until end of turn are back to 0 and the
    keywords granted are gone, while the +1/+1 counters, the counter
    delta, the tapped flag and the zone tag stay. Cards elsewhere and
    every list of the game are left as they were. *)
Theorem endTurn_clears_turn_effects (g : Game) :
  (forall r, In r (field g) -> exists c, heap g !! r = Some c) ->
  exists h1,
    endTurn g = (set_heap h1 g, Ok tt)
    /\ (forall r c, heap g !! r = Some c ->
          h1 !! r = Some (if ref_in r (field g) then Card.endTurn c else c))
    /\ (forall c, Card.__powerMod (Card.endTurn c) = 0%Z
                  /\ Card.__toughnessMod (Card.endTurn c) = 0%Z
                  /\ Card.__keywordMods (Card.endTurn c) = []
                  /\ Card.__plusone (Card.endTurn c) = Card.__plusone c
                  /\ Card.__countersMod (Card.endTurn c) = Card.__countersMod c
                  /\ Card.tapped (Card.endTurn c) = Card.tapped c
                  /\ Card.zone (Card.endTurn c) = Card.zone c).
Proof.
  intros Hpre.
  destruct (for_each_alter Card.endTurn (fun _ => True)
              (fun card => call card Card.endTurn)
              ltac:(auto)
              ltac:(intros r g0 c Hc _; now apply call_run)
              (field g) g) as (h1 & Hrun & Hheap).
  { right. intros c. now destruct c. }
  { intros r Hr. destruct (Hpre r Hr) as [c Hc]. eauto. }
  exists h1. split; [|split].
  - unfold endTurn, bind, gets. exact Hrun.
  - exact Hheap.
  - intros c. now destruct c.
Qed.

Lemma endTurn_clears_witness :
  let g := state_after (draw 1 ;; play Sample.reversing (Obj 0) ;; power 3 (Obj 0))
             (Sample.loaded [Sample.bears]) in
  exists h1,
    endTurn g = (set_heap h1 g, Ok tt)
    /\ (forall r c, heap g !! r = Some c ->
          h1 !! r = Some (if ref_in r (field g) then Card.endTurn c else c))
    /\ (forall c, Card.__powerMod (Card.endTurn c) = 0%Z
                  /\ Card.__toughnessMod (Card.endTurn c) = 0%Z
                  /\ Card.__keywordMods (Card.endTurn c) = []
                  /\ Card.__plusone (Card.endTurn c) = Card.__plusone c
                  /\ Card.__countersMod (Card.endTurn c) = Card.__countersMod c
                  /\ Card.tapped (Card.endTurn c) = Card.tapped c
                  /\ Card.zone (Card.endTurn c) = Card.zone c).
Proof.
  apply (endTurn_clears_turn_effects
           (state_after (draw 1 ;; play Sample.reversing (Obj 0) ;; power 3 (Obj 0))
              (Sample.loaded [Sample.bears]))).
  intros r Hr. vm_compute in Hr. destruct Hr as [<-|[]]. eexists. reflexivity.
Defined.

(** X19: [untapAll] untaps every card of the battlefield but those
    whose text says that they do not untap during the untap step,
    which stay as they are; nothing else is written. *)
Theorem untapAll_untaps_what_may_untap (g : Game) :
  (forall r, In r (field g) ->
     exists c nm text, heap g !! r = Some c
                       /\ Card.name c = Ok nm /\ Card.rulestext c = Ok text) ->
  exists h1,
    untapAll g = (set_heap h1 g, Ok tt)
    /\ forall r c, heap g !! r = Some c ->
         h1 !! r = Some (if ref_in r (field g) && negb (stays_tapped c)
                         then Card.set_tapped false c else c).
Proof.
  intros Hpre.
  set (F := fun c => if stays_tapped c then c else Card.untap c).
  assert (forall c, stays_tapped (Card.untap c) = stays_tapped c) as Hst
    by (intros c; now destruct c).
  destruct (for_each_alter F
              (fun c => exists nm text, Card.name c = Ok nm /\ Card.rulestext c = Ok text)
              (fun card =>
                 nm <- query card Card.name ;;
                 text <- query card Card.rulestext ;;
                 when (negb (contains
                               (String.append nm " doesn't untap during your untap step")
                               text))
                   (call card Card.untap))) with (l := field g) (g := g)
    as (h1 & Hrun & Hheap).
  - intros c (nm & text & Hn & Ht). subst F. cbv beta.
    exists nm, text. destruct (stays_tapped c); [split; assumption|].
    destruct c; split; [exact Hn|exact Ht].
  - intros r g0 c Hc (nm & text & Hn & Ht).
    rewrite (bind_run _ _ _ _ _ (query_run r Card.name g0 c nm Hc Hn)).
    rewrite (bind_run _ _ _ _ _ (query_run r Card.rulestext g0 c text Hc Ht)).
    subst F. cbv beta. unfold stays_tapped. rewrite Hn, Ht.
    destruct (contains _ text); cbn [negb when].
    + unfold ret. now rewrite set_heap_same.
    + now apply call_run.
  - right. intros c. subst F. cbv beta.
    destruct (stays_tapped c) eqn:E; [now rewrite E|].
    rewrite Hst, E. now destruct c.
  - intros r Hr. destruct (Hpre r Hr) as (c & nm & text & Hc & Hn & Ht).
    exists c. split; [exact Hc|]. exists nm, text. auto.
  - exists h1. split; [exact Hrun|].
    intros r c Hc. rewrite (Hheap r c Hc). subst F. cbv beta.
    unfold Card.untap.
    destruct (ref_in r (field g)), (stays_tapped c); reflexivity.
Qed.

Lemma untapAll_untaps_witness :
  let g := state_after (draw 1 ;; play Sample.reversing (Obj 0) ;; tap (Obj 0))
             (Sample.loaded [Sample.bears]) in
  exists h1,
    untapAll g = (set_heap h1 g, Ok tt)
    /\ forall r c, heap g !! r = Some c ->
         h1 !! r = Some (if ref_in r (field g) && negb (stays_tapped c)
                         then Card.set_tapped false c else c).
Proof.
  apply (untapAll_untaps_what_may_untap
           (state_after (draw 1 ;; play Sample.reversing (Obj 0) ;; tap (Obj 0))
              (Sample.loaded [Sample.bears]))).
  intros r Hr. vm_compute in Hr. destruct Hr as [<-|[]].
  eexists. eexists. eexists. repeat split; reflexivity.
Defined.

(** X20: given a type name, [power], [toughness], [counters],
    [plusone], [tap] and [untap] (the body they share, with the method
    of [Card] each one calls) apply the method to every card of the
    battlefield whose type line contains the name, once, and to no
    other card; no list of the game changes. *)
Theorem on_target_reaches_the_type (ty : string) (method : Card.t -> Card.t) (g : Game) :
  in_TYPES (Str ty) = true ->
  NoDup (field g) ->
  (forall c, Card.type (method c) = Card.type c) ->
  (forall r, In r (field g) ->
     exists c t, heap g !! r = Some c /\ Card.type c = Ok t) ->
  exists h1,
    on_target (Str ty) method g = (set_heap h1 g, Ok tt)
    /\ forall r c, heap g !! r = Some c ->
         h1 !! r = Some (if ref_in r (field g) && of_type ty c then method c else c).
Proof.
  intros Hty Hnd Hkeep Hpre.
  set (F := fun c => if of_type ty c then method c else c).
  destruct (for_each_alter F (fun c => exists t, Card.type c = Ok t)
              (fun thing =>
                 t <- query thing Card.type ;;
                 when (contains ty t) (call thing method))) with (l := field g) (g := g)
    as (h1 & Hrun & Hheap).
  - intros c [t Ht]. subst F. cbv beta.
    exists t. destruct (of_type ty c); [|exact Ht]. now rewrite Hkeep.
  - intros r g0 c Hc [t Ht].
    rewrite (bind_run _ _ _ _ _ (query_run r Card.type g0 c t Hc Ht)).
    subst F. cbv beta. unfold of_type. rewrite Ht.
    destruct (contains ty t); cbn [when].
    + now apply call_run.
    + unfold ret. now rewrite set_heap_same.
  - now left.
  - intros r Hr. destruct (Hpre r Hr) as (c & t & Hc & Ht).
    exists c. split; [exact Hc|]. now exists t.
  - exists h1. split.
    + unfold on_target. rewrite Hty. unfold bind at 1. unfold gets at 1. exact Hrun.
    + intros r c Hc. rewrite (Hheap r c Hc). subst F. cbv beta.
      destruct (ref_in r (field g)), (of_type ty c); reflexivity.
Qed.

Lemma on_target_reaches_witness :
  let g := state_after (draw 2 ;; play Sample.reversing (Obj 0)
                        ;; play Sample.reversing (Obj 1))
             (Sample.loaded [Sample.bears; Sample.jace]) in
  exists h1,
    power 3 (Str "Creature") g = (set_heap h1 g, Ok tt)
    /\ forall r c, heap g !! r = Some c ->
         h1 !! r = Some (if ref_in r (field g) && of_type "Creature" c
                         then Card.modPower 3 c else c).
Proof.
  apply (on_target_reaches_the_type "Creature" (Card.modPower 3)
           (state_after (draw 2 ;; play Sample.reversing (Obj 0)
                         ;; play Sample.reversing (Obj 1))
              (Sample.loaded [Sample.bears; Sample.jace]))).
  - reflexivity.
  - vm_compute. exact (NoDup_seq 0 2).
  - intros c. unfold Card.modPower.
    destruct (contains Card.CREATURE (Card.__type c)
              && bool_decide (Card.__zone c = Card.BATTLEFIELD)); now destruct c.
  - intros r Hr. vm_compute in Hr.
    destruct Hr as [<-|[<-|[]]]; eexists; eexists; split; reflexivity.
Defined.

(* ------------------------------------------------------------------- *)
(** *** Back to the library *)

Lemma leave_keeps_type (c : Card.t) : Card.__type (Card.leave c) = Card.__type c.
Proof.
  unfold Card.leave, Card.transform.
  destruct (Card.__transformed c || Card.__facedown c), (Card.__flip c);
    destruct c; cbn;
    match goal with
    | |- context [if ?b then _ else _] => destruct b
    end; reflexivity.
Qed.

(** A card that is not an emblem, or is a commander, can always be
    sent to the library; it is then tagged Library (Command for a
    commander), and sending it again changes nothing. *)
Lemma to_library_spec (c : Card.t) :
  Card.commander c = true \/ contains Card.EMBLEM (Card.__type c) = false ->
  Card.move Card.LIBRARY c = Ok (to_library c)
  /\ Card.commander (to_library c) = Card.commander c
  /\ Card.__type (to_library c) = Card.__type c
  /\ Card.zone (to_library c)
     = (if Card.commander c then Card.COMMAND else Card.LIBRARY)
  /\ ((Card.zone c = Card.BATTLEFIELD -> Card.tapped (to_library c) = false)
      /\ (Card.zone c <> Card.BATTLEFIELD ->
          to_library c = Card.set_zone (Card.zone (to_library c)) c)).
Proof.
  intros Hok. unfold to_library, Card.move, Card.commander, Card.zone in *.
  destruct (Card.__commander c) eqn:Hcmd;
    [|destruct Hok as [Hok|Hok]; [discriminate|rewrite Hok]].
  all: destruct (bool_decide (Card.__zone c = Card.BATTLEFIELD)) eqn:Hz;
    [apply bool_decide_eq_true in Hz|apply bool_decide_eq_false in Hz].
  all: repeat match goal with
              | |- context [bool_decide ?P] =>
                  let v := eval vm_compute in (bool_decide P) in
                  change (bool_decide P) with v
              end; cbn [negb andb rbind].
  all: rewrite ?leave_keeps_commander, ?leave_keeps_type, ?leave_keeps_zone,
         ?commander_set_zone, ?zone_set_zone.
  all: repeat split; try reflexivity; try (now destruct c); try contradiction.
  all: intros _; apply (leave_resets (Card.set_zone _ c)).
Qed.

Lemma to_library_twice (c : Card.t) :
  Card.commander c = true \/ contains Card.EMBLEM (Card.__type c) = false ->
  to_library (to_library c) = to_library c.
Proof.
  intros Hok.
  destruct (to_library_spec c Hok) as (_ & Hc & Ht & Hz & _ & _).
  destruct (to_library_spec (to_library c)) as (_ & _ & _ & Hz2 & _ & Hsame).
  { rewrite Hc, Ht. exact Hok. }
  rewrite Hsame.
  - rewrite Hz2, Hc, <- Hz. unfold Card.zone. now destruct (to_library c).
  - rewrite Hz. destruct (Card.commander c); discriminate.
Qed.

Lemma reshuffle_loop (l : list ref) : forall g,
  (forall r, In r l ->
     exists c, heap g !! r = Some c
               /\ (Card.commander c = true
                   \/ contains Card.EMBLEM (Card.__type c) = false)) ->
  exists h1,
    for_each l (fun card =>
                  c <- deref card ;;
                  when (negb (Card.commander c))
                    (call_raising card (Card.move Card.LIBRARY) ;;
                     zappend Llibrary card)) g
    = (set_library (library g ++ List.filter (goes_back g) l) (set_heap h1 g), Ok tt)
    /\ forall r c, heap g !! r = Some c ->
         h1 !! r = Some (if ref_in r l && negb (Card.commander c)
                         then to_library c else c).
Proof.
  induction l as [|x l IH]; intros g Hpre.
  - exists (heap g). split; [|auto]. cbn. rewrite app_nil_r. now destruct g.
  - destruct (Hpre x (or_introl eq_refl)) as (cx & Hcx & Hokx).
    pose proof (lookup_lt_Some _ _ _ Hcx) as Hlt.
    destruct (to_library_spec cx Hokx) as (Hmove & Hcmd & Hty & _).
    set (F := fun c => if Card.commander c then c else to_library c).
    set (g' := if Card.commander cx then g
               else set_library (library g ++ [x])
                      (set_heap (<[x := to_library cx]> (heap g)) g)).
    assert (heap g' = <[x := F cx]> (heap g)) as Eh.
    { subst g' F. cbv beta. destruct (Card.commander cx).
      - now rewrite list_insert_id.
      - now destruct g. }
    assert (forall r, goes_back g' r = goes_back g r) as Egb.
    { intros r. unfold goes_back. rewrite Eh.
      destruct (Nat.eq_dec r x) as [->|Hne].
      - rewrite list_lookup_insert_eq by exact Hlt.
        replace (heap g !! x) with (Some cx) by (symmetry; exact Hcx).
        subst F. cbv beta iota. destruct (Card.commander cx) eqn:E; [now rewrite ?E|].
        now rewrite Hcmd.
      - now rewrite list_lookup_insert_ne by congruence. }
    destruct (IH g') as (h1 & Hrun & Hheap).
    { intros r Hr. rewrite Eh. destruct (Nat.eq_dec r x) as [->|Hne].
      - exists (F cx). split; [now apply list_lookup_insert_eq|].
        subst F. cbv beta. destruct (Card.commander cx) eqn:E; [now left|].
        right. rewrite Hty. destruct Hokx as [Hokx|Hokx]; [discriminate|exact Hokx].
      - destruct (Hpre r (or_intror Hr)) as (c & Hc & Hokc).
        exists c. split; [|exact Hokc].
        now rewrite list_lookup_insert_ne by congruence. }
    exists h1. split.
    + cbn [for_each].
      rewrite (bind_run _ _ g g' tt).
      * rewrite Hrun. rewrite (filter_ext _ _ Egb).
        cbn [List.filter]. unfold goes_back at 2.
        replace (heap g !! x) with (Some cx) by (symmetry; exact Hcx).
        subst g'. destruct (Card.commander cx); cbn [negb].
        -- reflexivity.
        -- destruct g; cbn. now rewrite <- app_assoc.
      * rewrite (bind_run _ _ _ _ _ (deref_run x cx g Hcx)).
        subst g'. destruct (Card.commander cx); cbn [negb when]; [reflexivity|].
        rewrite (bind_run _ _ _ _ _ (call_raising_run x _ cx _ g Hcx Hmove)).
        unfold zappend, modify. now destruct g.
    + intros r c Hc. cbn [ref_in existsb].
      destruct (Nat.eqb_spec r x) as [->|Hne]; cbn [orb andb].
      * assert (Some c = Some cx) as E
          by (etransitivity; [symmetry; exact Hc|exact Hcx]).
        injection E as ->.
        rewrite (Hheap x (F cx)) by (rewrite Eh; now apply list_lookup_insert_eq).
        subst F. cbv beta.
        pose proof (to_library_twice cx Hokx) as Htwice.
        destruct (Card.commander cx) eqn:E.
        -- rewrite ?E. cbn [negb]. now rewrite andb_false_r.
        -- rewrite ?Hcmd, ?E. cbn [negb]. rewrite andb_true_r, Htwice.
           now destruct (ref_in x l).
      * apply Hheap. rewrite Eh. now rewrite list_lookup_insert_ne by congruence.
Qed.

(** X17: [reshuffle] succeeds on a deck whose cards exist and
    hold no emblem. It empties the hand, the graveyard, the exile and
    the battlefield (tokens are dropped with it), and the library
    becomes the cards of the deck but the commander, in deck order,
    shuffled once; each of them has gone through
    [Card.move(Card.LIBRARY)], which tags it Library and, if it comes
    from the battlefield, untaps it. No other card is written. *)
Theorem reshuffle_returns_the_deck (permute : nat -> list ref -> list ref) (g : Game) :
  (forall r, In r (deck g) ->
     exists c, heap g !! r = Some c
               /\ (Card.commander c = true
                   \/ contains Card.EMBLEM (Card.__type c) = false)) ->
  exists h1,
    reshuffle permute g
    = (set_rng (S (rng g))
         (set_library (permute (rng g) (List.filter (goes_back g) (deck g)))
            (set_field [] (set_exiled [] (set_grave [] (set_hand [] (set_heap h1 g)))))),
       Ok tt)
    /\ (forall r c, heap g !! r = Some c ->
          h1 !! r = Some (if ref_in r (deck g) && negb (Card.commander c)
                          then to_library c else c))
    /\ (forall r c, In r (deck g) -> heap g !! r = Some c ->
          Card.commander c = false ->
          Card.zone (to_library c) = Card.LIBRARY
          /\ (Card.zone c = Card.BATTLEFIELD -> Card.tapped (to_library c) = false)).
Proof.
  intros Hpre.
  set (g0 := set_field [] (set_exiled [] (set_grave [] (set_hand []
               (set_library [] g))))).
  destruct (reshuffle_loop (deck g) g0) as (h1 & Hrun & Hheap).
  { intros r Hr. destruct (Hpre r Hr) as (c & Hc & Hok).
    exists c. split; [subst g0; now destruct g|exact Hok]. }
  exists h1. split; [|split].
  - unfold reshuffle.
    rewrite (bind_run _ _ g (set_library [] g) tt eq_refl).
    rewrite (bind_run _ _ _ (set_hand [] (set_library [] g)) tt eq_refl).
    rewrite (bind_run _ _ _ (set_grave [] (set_hand [] (set_library [] g))) tt eq_refl).
    rewrite (bind_run _ _ _ (set_exiled [] (set_grave [] (set_hand []
                               (set_library [] g)))) tt eq_refl).
    rewrite (bind_run _ _ _ g0 tt eq_refl).
    rewrite (bind_run (gets deck) _ g0 g0 (deck g)); [|subst g0; now destruct g].
    rewrite (bind_run _ _ _ _ _ Hrun). unfold shuffle, modify.
    assert (forall r, goes_back g0 r = goes_back g r) as E
      by (intros r; subst g0; now destruct g).
    rewrite (filter_ext _ _ E). subst g0. now destruct g.
  - intros r c Hc. apply Hheap. subst g0. now destruct g.
  - intros r c Hr Hc Hcmd. destruct (Hpre r Hr) as (c' & Hc' & Hok).
    assert (Some c = Some c') as E
      by (etransitivity; [symmetry; exact Hc|exact Hc']).
    injection E as <-.
    destruct (to_library_spec c Hok) as (_ & _ & _ & Hz & Htap & _).
    rewrite Hcmd in Hz. auto.
Qed.

Lemma reshuffle_returns_witness :
  let g := state_after (draw 2 ;; play Sample.reversing (Obj 0))
             (Sample.loaded [Sample.bears; Sample.shock; Sample.jace]) in
  exists h1,
    reshuffle Sample.reversing g
    = (set_rng (S (rng g))
         (set_library (Sample.reversing (rng g) (List.filter (goes_back g) (deck g)))
            (set_field [] (set_exiled [] (set_grave [] (set_hand [] (set_heap h1 g)))))),
       Ok tt)
    /\ (forall r c, heap g !! r = Some c ->
          h1 !! r = Some (if ref_in r (deck g) && negb (Card.commander c)
                          then to_library c else c))
    /\ (forall r c, In r (deck g) -> heap g !! r = Some c ->
          Card.commander c = false ->
          Card.zone (to_library c) = Card.LIBRARY
          /\ (Card.zone c = Card.BATTLEFIELD -> Card.tapped (to_library c) = false)).
Proof.
  apply (reshuffle_returns_the_deck Sample.reversing
           (state_after (draw 2 ;; play Sample.reversing (Obj 0))
              (Sample.loaded [Sample.bears; Sample.shock; Sample.jace]))).
  intros r Hr. vm_compute in Hr.
  destruct Hr as [<-|[<-|[<-|[]]]]; eexists; split;
    try reflexivity; right; reflexivity.
Defined.

(* ------------------------------------------------------------------- *)
(** *** Fetching and playing *)

(** X12: a [fetch] that succeeds has taken one card of the library
    out of it and shuffled what is left, once; the card has gone
    through [Card.move(Card.HAND)] and is appended to the hand, unless
    it is a token. Nothing else is written. *)
Theorem fetch_takes_a_card_and_shuffles
        (permute : nat -> list ref -> list ref) (args : list string) (g g1 : Game) :
  fetch permute args g = (g1, Ok tt) ->
  exists r l1 c c1 ty,
    In r (library g) /\ list_remove r (library g) = Some l1
    /\ heap g !! r = Some c /\ Card.type c = Ok ty
    /\ Card.move Card.HAND c = Ok c1
    /\ g1 = set_heap (<[r := c1]> (heap g))
              (set_hand (if contains Card.TOKEN ty then hand g else hand g ++ [r])
                 (set_rng (S (rng g)) (set_library (permute (rng g) l1) g))).
Proof.
  unfold fetch, move. intros H.
  change (getZoneNameFromString (Card.zone_name Card.LIBRARY)) with (Some Card.LIBRARY) in H.
  change (getZoneNameFromString (Card.zone_name Card.HAND)) with (Some Card.HAND) in H.
  cbn [source_of] in H. cbv beta iota in H.
  destruct args as [|a args]; [exec H; discriminate|].
  apply bind_ok in H as (p & g2 & E1 & H). apply ret_ok in E1 as [-> ->].
  cbv beta iota in H.
  apply bind_ok in H as (card & g2 & E2 & H).
  apply bind_ok in E2 as (zone & g3 & Ez & E2). apply gets_ok in Ez as [-> ->].
  apply bind_ok in E2 as (found & g3 & Eg & E2). apply ret_ok in E2 as [-> ->].
  pose proof (getCard_result _ _ _ _ _ _ Eg) as Hres. apply getCard_ok in Eg. subst.
  cbv beta iota in H.
  destruct found as [r|s]; [|exec H; discriminate].
  destruct Hres as (z & Hz & [Hin|(_ & _ & Hc & _)]); [|discriminate Hc].
  injection Hz as <-. cbn [zlist_get] in Hin.
  exec H; try discriminate.
  all: try match goal with
           | Hb : zlist_get Llibrary _ = [] |- _ =>
               cbn [zlist_get] in Hb; rewrite Hb in Hin; contradiction
           end.
  all: destruct g; cbn in *; subst.
  all: repeat match goal with
              | Ho : Obj _ = Obj _ |- _ => injection Ho as Ho; subst
              end.
  all: repeat match goal with
              | H1 : ?h !! ?r = Some ?a, H2 : ?h !! ?r = Some ?b |- _ =>
                  assert (b = a) by congruence; subst b; clear H2
              end.
  all: match goal with
       | Hrem : list_remove ?r _ = Some ?l1, Hq : _ !! ?r = Some ?c,
         Ht : Card.type ?c = Ok ?ty, Hm : Card.move Card.HAND ?c = Ok ?c1 |- _ =>
           exists r, l1, c, c1, ty
       end.
  all: repeat split; try assumption.
  all: match goal with
       | Hb : negb (contains Card.TOKEN ?ty) = _ |- _ =>
           destruct (contains Card.TOKEN ty); try discriminate; reflexivity
       end.
Qed.

Lemma fetch_takes_witness :
  let g := Sample.loaded [Sample.bears; Sample.shock] in
  exists r l1 c c1 ty,
    In r (library g) /\ list_remove r (library g) = Some l1
    /\ heap g !! r = Some c /\ Card.type c = Ok ty
    /\ Card.move Card.HAND c = Ok c1
    /\ state_after (fetch Sample.reversing ["shock"]) g
       = set_heap (<[r := c1]> (heap g))
           (set_hand (if contains Card.TOKEN ty then hand g else hand g ++ [r])
              (set_rng (S (rng g)) (set_library (Sample.reversing (rng g) l1) g))).
Proof.
  apply (fetch_takes_a_card_and_shuffles Sample.reversing ["shock"]
           (Sample.loaded [Sample.bears; Sample.shock])
           (state_after (fetch Sample.reversing ["shock"])
              (Sample.loaded [Sample.bears; Sample.shock]))).
  vm_compute. reflexivity.
Defined.

Lemma enter_keeps_zone (c : Card.t) : Card.__zone (Card.enter c) = Card.__zone c.
Proof.
  unfold Card.enter.
  repeat match goal with
         | |- context [if ?b then _ else _] => destruct b
         end; now destruct c.
Qed.

Lemma ref_in_In (r : ref) (l : list ref) : In r l -> ref_in r l = true.
Proof.
  intros H. unfold ref_in. apply existsb_exists. exists r. split; [exact H|].
  apply Nat.eqb_refl.
Qed.

(** X13: playing a card of the hand that is tagged Hand (and is not
    also the top card of the library) takes it out of the hand list
    and rewrites it with [Card.play]. An instant or a sorcery is
    inserted at the front of the graveyard, or of the exile when its
    text says "Exile" followed by its name; an artifact, creature,
    enchantment, land or planeswalker is appended to the battlefield;
    a card of none of these types is put in no list at all. *)
Theorem play_from_hand (permute : nat -> list ref -> list ref)
        (r : ref) (c : Card.t) (g : Game) :
  heap g !! r = Some c -> In r (hand g) -> Card.zone c = Card.HAND ->
  head (library g) <> Some r ->
  exists h1,
    list_remove r (hand g) = Some h1
    /\ (let st := set_hand h1 (set_heap (<[r := Card.play c]> (heap g)) g) in
        play permute (Obj r) g
        = (match Card.zone (Card.play c) with
           | Card.GRAVEYARD => set_grave (r :: grave g) st
           | Card.EXILE => set_exiled (r :: exiled g) st
           | Card.BATTLEFIELD => set_field (field g ++ [r]) st
           | _ => st
           end, Ok tt))
    /\ Card.zone (Card.play c)
       = (if contains Card.INSTANT (Card.__type c) || contains Card.SORCERY (Card.__type c)
          then if contains (String.append "Exile " (Card.__name c)) (Card.__text c)
               then Card.EXILE else Card.GRAVEYARD
          else if contains Card.ARTIFACT (Card.__type c)
                  || contains Card.CREATURE (Card.__type c)
                  || contains Card.ENCHANTMENT (Card.__type c)
                  || contains Card.LAND (Card.__type c)
                  || contains Card.PLANESWALKER (Card.__type c)
          then Card.BATTLEFIELD else Card.HAND).
Proof.
  intros Hc Hin Hz Hlib.
  destruct (list_remove_in r (hand g) Hin) as [h1 Hrem].
  pose proof (lookup_lt_Some _ _ _ Hc) as Hlt.
  assert (Card.zone (Card.play c)
          = (if contains Card.INSTANT (Card.__type c) || contains Card.SORCERY (Card.__type c)
             then if contains (String.append "Exile " (Card.__name c)) (Card.__text c)
                  then Card.EXILE else Card.GRAVEYARD
             else if contains Card.ARTIFACT (Card.__type c)
                     || contains Card.CREATURE (Card.__type c)
                     || contains Card.ENCHANTMENT (Card.__type c)
                     || contains Card.LAND (Card.__type c)
                     || contains Card.PLANESWALKER (Card.__type c)
             then Card.BATTLEFIELD else Card.HAND)) as Hzone.
  { unfold Card.play, Card.zone in *.
    destruct (contains Card.INSTANT (Card.__type c) || contains Card.SORCERY (Card.__type c)).
    - destruct (contains _ (Card.__text c)); now destruct c.
    - destruct (contains Card.ARTIFACT (Card.__type c)
                || contains Card.CREATURE (Card.__type c)
                || contains Card.ENCHANTMENT (Card.__type c)
                || contains Card.LAND (Card.__type c)) eqn:E; cbn [orb].
      + rewrite enter_keeps_zone. rewrite orb_true_l || idtac. now destruct c.
      + destruct (contains Card.PLANESWALKER (Card.__type c)); [|exact Hz].
        rewrite enter_keeps_zone. now destruct c. }
  exists h1. split; [exact Hrem|]. split; [|exact Hzone].
  cbv zeta. unfold play. cbn [in_TYPES].
  rewrite (bind_run _ _ g g (hand g) eq_refl).
  rewrite (ref_in_In r (hand g) Hin).
  rewrite (bind_run _ _ g g true eq_refl).
  rewrite (bind_run _ _ g g true eq_refl).
  cbv iota.
  rewrite (bind_run _ _ g g r eq_refl).
  rewrite (bind_run _ _ g g (is_commander r g) eq_refl).
  rewrite (bind_run _ _ _ _ _ (deref_run r c g Hc)).
  rewrite Hz.
  replace (bool_decide (Card.HAND = Card.COMMAND)) with false by reflexivity.
  rewrite andb_false_r. cbn [when].
  rewrite (bind_run _ _ g g tt eq_refl).
  rewrite (bind_run _ _ g g (hand g) eq_refl).
  rewrite (ref_in_In r (hand g) Hin). cbn [when].
  rewrite (bind_run _ _ _ _ _ (zremove_run Lhand r h1 g Hrem)).
  rewrite (bind_run _ _ _ (zlist_set Lhand h1 g) (library g));
    [|now destruct g].
  rewrite bool_decide_eq_false_2 by exact Hlib. cbn [when].
  rewrite (bind_run _ _ _ (zlist_set Lhand h1 g) tt eq_refl).
  rewrite (bind_run _ _ _ _ _ (call_run r Card.play c (zlist_set Lhand h1 g)
                                 ltac:(now destruct g))).
  erewrite bind_run;
    [|apply (deref_run r (Card.play c)); destruct g; cbn;
      now apply list_lookup_insert_eq].
  rewrite Hzone in *.
  destruct (contains Card.INSTANT (Card.__type c) || contains Card.SORCERY (Card.__type c));
    [destruct (contains _ (Card.__text c))
    |destruct (contains Card.ARTIFACT (Card.__type c)
               || contains Card.CREATURE (Card.__type c)
               || contains Card.ENCHANTMENT (Card.__type c)
               || contains Card.LAND (Card.__type c)
               || contains Card.PLANESWALKER (Card.__type c))];
    now destruct g.
Qed.

Lemma play_from_hand_witness :
  let g := state_after (draw 1) (Sample.loaded [Sample.shock; Sample.bears]) in
  exists h1,
    list_remove 0 (hand g) = Some h1
    /\ (let st := set_hand h1
                    (set_heap (<[0%nat := Card.play (Sample.drawn Sample.shock)]> (heap g)) g) in
        play Sample.reversing (Obj 0) g
        = (match Card.zone (Card.play (Sample.drawn Sample.shock)) with
           | Card.GRAVEYARD => set_grave (0%nat :: grave g) st
           | Card.EXILE => set_exiled (0%nat :: exiled g) st
           | Card.BATTLEFIELD => set_field (field g ++ [0%nat]) st
           | _ => st
           end, Ok tt))
    /\ Card.zone (Card.play (Sample.drawn Sample.shock))
       = (if contains Card.INSTANT (Card.__type (Sample.drawn Sample.shock))
             || contains Card.SORCERY (Card.__type (Sample.drawn Sample.shock))
          then if contains (String.append "Exile " (Card.__name (Sample.drawn Sample.shock)))
                    (Card.__text (Sample.drawn Sample.shock))
               then Card.EXILE else Card.GRAVEYARD
          else if contains Card.ARTIFACT (Card.__type (Sample.drawn Sample.shock))
                  || contains Card.CREATURE (Card.__type (Sample.drawn Sample.shock))
                  || contains Card.ENCHANTMENT (Card.__type (Sample.drawn Sample.shock))
                  || contains Card.LAND (Card.__type (Sample.drawn Sample.shock))
                  || contains Card.PLANESWALKER (Card.__type (Sample.drawn Sample.shock))
          then Card.BATTLEFIELD else Card.HAND).
Proof.
  apply (play_from_hand Sample.reversing 0 (Sample.drawn Sample.shock)
           (state_after (draw 1) (Sample.loaded [Sample.shock; Sample.bears]))).
  - vm_compute. reflexivity.
  - vm_compute. auto.
  - vm_compute. reflexivity.
  - vm_compute. discriminate.
Defined.

(* ------------------------------------------------------------------- *)
(** *** Which card [getCard] picks *)

Lemma getCard_loop_picks (wanted : string -> bool) (g : Game) (zone : list ref) :
  forall (skip : Z) (ret0 : option ref),
  (0 <= skip)%Z ->
  (forall r, In r zone -> exists c nm, heap g !! r = Some c /\ Card.name c = Ok nm) ->
  getCard_loop wanted zone skip ret0 g
  = (g, Ok (let m := List.filter (fun r => wanted (lower (shown_name g r))) zone in
            match m !! Z.to_nat skip with
            | Some r => Some r
            | None => match last m with
                      | Some r => Some r
                      | None => ret0
                      end
            end)).
Proof.
  induction zone as [|card rest IH]; intros skip ret0 Hskip Hread; [reflexivity|].
  destruct (Hread card (or_introl eq_refl)) as (c & nm & Hc & Hnm).
  cbn [getCard_loop List.filter].
  rewrite (bind_run _ _ _ _ _ (query_run card Card.name g c nm Hc Hnm)).
  assert (shown_name g card = nm) as -> by (unfold shown_name; now rewrite Hc, Hnm).
  destruct (wanted (lower nm)).
  - destruct (Z.eqb_spec skip 0) as [->|Hne]; [reflexivity|].
    rewrite IH; [|lia|intros r Hr; apply Hread; now right].
    cbv zeta. replace (Z.to_nat skip) with (S (Z.to_nat (skip - 1))) by lia.
    cbn [lookup list_lookup]. f_equal. f_equal.
    destruct (List.filter _ rest !! Z.to_nat (skip - 1)); [reflexivity|].
    rewrite last_cons. now destruct (last (List.filter _ rest)).
  - rewrite IH; [reflexivity|lia|intros r Hr; apply Hread; now right].
Qed.

(** X10: which card [getCard] picks when the last word is a number
    [k] and the words before it are the name asked for: among the
    cards of the zone whose name passes the test, in the order of the
    zone, the [k]-th one (the first one for [k] below 1), or the last
    one when fewer than [k] pass; [CardNotFoundError] when none does.
    The game is left as it was. *)
Theorem getCard_picks_the_kth_match
        (words : list string) (num : string) (k : Z) (zone : list ref)
        (cmd : option string) (g : Game) :
  int num = Ok k ->
  let cardname := join " " words in
  String.eqb cardname "card" = false -> names_a_type cardname = false ->
  zone <> [] -> revealed g = false ->
  (forall r, In r zone -> exists c nm, heap g !! r = Some c /\ Card.name c = Ok nm) ->
  getCard (words ++ [num]) (Some zone) cmd g
  = (g, let m := candidates g cardname zone in
        match (match m !! Z.to_nat (k - 1) with
               | Some r => Some r
               | None => last m
               end) with
        | Some r => Ok (Obj r)
        | None => Raise (CardNotFoundError (unquoted cardname))
        end).
Proof.
  intros Hint cardname Hcard Htype Hzone Hrev Hread.
  unfold getCard. rewrite last_snoc, Hint, removelast_last.
  fold cardname. rewrite Hcard.
  assert (List.find (fun typeName =>
                       String.eqb (lower cardname) (lower typeName)
                       && negb (String.eqb typeName Card.EMBLEM)) Card.TYPES = None) as ->.
  { destruct (List.find _ Card.TYPES) as [t|] eqn:Hf; [|reflexivity].
    apply find_some in Hf as [Hin Ht].
    assert (names_a_type cardname = true) as E
      by (unfold names_a_type; apply existsb_exists; eauto).
    congruence. }
  destruct zone as [|z0 zs]; [contradiction|].
  rewrite (bind_run _ _ g g (revealed g) eq_refl).
  rewrite (bind_run _ _ g g (hand g) eq_refl).
  rewrite Hrev. cbn [andb].
  rewrite (bind_run _ _ g g None eq_refl). cbv iota.
  set (skip := (if (k - 1 <? 0)%Z then 0 else k - 1)%Z).
  assert (0 <= skip)%Z as Hskip by (subst skip; destruct (Z.ltb_spec (k - 1) 0); lia).
  assert (Z.to_nat skip = Z.to_nat (k - 1)) as Hto
    by (subst skip; destruct (Z.ltb_spec (k - 1) 0); lia).
  unfold candidates, asked, unquoted.
  destruct (quoted cardname);
    rewrite (bind_run _ _ _ _ _ (getCard_loop_picks _ g (z0 :: zs) skip None Hskip Hread));
    cbv zeta; rewrite Hto;
    match goal with
    | |- context [?m !! Z.to_nat (k - 1)] =>
        destruct (m !! Z.to_nat (k - 1)); [reflexivity|];
        match goal with
        | |- context [last ?l] => destruct (last l); reflexivity
        end
    end.
Qed.

Lemma getCard_picks_witness :
  let g := state_after (draw 3)
             (Sample.loaded [Sample.bears; Sample.shock; Sample.bears]) in
  getCard (["bears"] ++ ["2"]) (Some (hand g)) None g
  = (g, let m := candidates g (join " " ["bears"]) (hand g) in
        match (match m !! Z.to_nat (2 - 1) with
               | Some r => Some r
               | None => last m
               end) with
        | Some r => Ok (Obj r)
        | None => Raise (CardNotFoundError (unquoted (join " " ["bears"])))
        end).
Proof.
  apply (getCard_picks_the_kth_match ["bears"] "2" 2
           (hand (state_after (draw 3)
                    (Sample.loaded [Sample.bears; Sample.shock; Sample.bears])))
           None
           (state_after (draw 3)
              (Sample.loaded [Sample.bears; Sample.shock; Sample.bears]))).
  - reflexivity.
  - reflexivity.
  - reflexivity.
  - vm_compute. discriminate.
  - reflexivity.
  - intros r Hr. vm_compute in Hr.
    destruct Hr as [<-|[<-|[<-|[]]]]; eexists; eexists; split; reflexivity.
Defined.

(* ------------------------------------------------------------------- *)
(** *** Sacrifice and exile *)

Lemma move_off_face_up (zone : Card.Zone) (c : Card.t) :
  zone = Card.GRAVEYARD \/ zone = Card.EXILE ->
  Card.zone c = Card.BATTLEFIELD -> Card.flipped c = false ->
  contains Card.EMBLEM (Card.__type c) = false ->
  exists c1,
    Card.move zone c = Ok c1
    /\ Card.zone c1 = (if Card.commander c then Card.COMMAND else zone)
    /\ Card.tapped c1 = false
    /\ Card.type c1 = Ok (Card.__type c).
Proof.
  intros Hzone Hz Hf He.
  set (z1 := if Card.commander c then Card.COMMAND else zone).
  exists (Card.leave (Card.set_zone z1 c)).
  assert (Card.flipped (Card.set_zone z1 c) = false) as Hf1
    by (destruct c; exact Hf).
  destruct (leave_face_up _ Hf1) as (Hf2 & Hty & _).
  destruct (leave_resets (Card.set_zone z1 c)) as (_ & _ & _ & Htap & _).
  split.
  - unfold Card.move. unfold Card.zone in Hz. rewrite Hz, He.
    subst z1. unfold Card.commander.
    destruct Hzone as [->| ->];
      repeat match goal with
             | |- context [bool_decide ?P] =>
                 let v := eval vm_compute in (bool_decide P) in
                 change (bool_decide P) with v
             end;
      cbn [negb andb]; now destruct (Card.__commander c).
  - unfold Card.zone, Card.type.
    rewrite leave_keeps_zone, zone_set_zone, Hf2, Hty.
    repeat split; try assumption; now destruct c.
Qed.

Lemma take_off_runs (dest : zlist) (zone : Card.Zone) (r : ref) (c c1 : Card.t)
      (ty : string) (f1 : list ref) (g : Game) :
  dest = Lgrave \/ dest = Lexiled ->
  heap g !! r = Some c -> Card.move zone c = Ok c1 -> Card.type c1 = Ok ty ->
  list_remove r (field g) = Some f1 ->
  (call_raising r (Card.move zone) ;; bury dest r) g
  = (taken_state dest r c1 (contains Card.TOKEN ty) f1 g, Ok tt).
Proof.
  intros Hdest Hc Hmove Hty Hf.
  assert (Hr : (r < length (heap g))%nat) by (eapply lookup_lt_Some; eassumption).
  rewrite (bind_run _ _ _ _ _ (call_raising_run r _ c c1 g Hc Hmove)).
  unfold bury.
  erewrite bind_run; [|apply zremove_run; destruct g; cbn in *; exact Hf].
  erewrite bind_run;
    [|apply (query_run _ _ _ c1 ty); [|exact Hty]; destruct g; cbn;
      apply list_lookup_insert_eq; exact Hr].
  erewrite bind_run; [|reflexivity].
  unfold taken_state.
  replace (is_commander r (zlist_set Lfield f1 (set_heap (<[r:=c1]> (heap g)) g)))
    with (is_commander r g) by (destruct g; reflexivity).
  destruct (negb (contains Card.TOKEN ty) && negb (is_commander r g));
    destruct Hdest as [->| ->]; destruct g; reflexivity.
Qed.

(** X25: [sacrifice] and [exile] take any face-up card of the
    battlefield that is not an emblem, indestructible or not, while
    [kill] leaves an indestructible card where it is. The card taken
    leaves the battlefield list, is untapped and tagged Graveyard or
    Exile (Command for a card flagged as commander), and is inserted
    at index 0 of the graveyard or of the exile list unless it is a
    token or the commander of the game. *)
Theorem sacrifice_and_exile_take_any_card (r : ref) (c : Card.t) (g : Game) :
  heap g !! r = Some c -> In r (field g) ->
  Card.zone c = Card.BATTLEFIELD -> Card.flipped c = false ->
  contains Card.EMBLEM (Card.__type c) = false ->
  exists cg ce f1,
    list_remove r (field g) = Some f1
    /\ sacrifice (Obj r) g
       = (taken_state Lgrave r cg (contains Card.TOKEN (Card.__type c)) f1 g, Ok tt)
    /\ exile (Obj r) g
       = (taken_state Lexiled r ce (contains Card.TOKEN (Card.__type c)) f1 g, Ok tt)
    /\ (indestructible c = true -> kill (Obj r) g = (g, Ok tt))
    /\ Card.zone cg = (if Card.commander c then Card.COMMAND else Card.GRAVEYARD)
    /\ Card.zone ce = (if Card.commander c then Card.COMMAND else Card.EXILE)
    /\ Card.tapped cg = false /\ Card.tapped ce = false.
Proof.
  intros Hc Hin Hz Hf He.
  destruct (move_off_face_up Card.GRAVEYARD c (or_introl eq_refl) Hz Hf He)
    as (cg & Hmg & Hzg & Htg & Htyg).
  destruct (move_off_face_up Card.EXILE c (or_intror eq_refl) Hz Hf He)
    as (ce & Hme & Hze & Hte & Htye).
  destruct (list_remove_in r (field g) Hin) as [f1 Hrem].
  exists cg, ce, f1. repeat split; try assumption.
  - unfold sacrifice. cbn [in_TYPES the_card].
    rewrite (bind_run _ _ g g r eq_refl).
    apply take_off_runs with (c := c); auto.
  - unfold exile. cbn [in_TYPES the_card].
    rewrite (bind_run _ _ g g r eq_refl).
    apply take_off_runs with (c := c); auto.
  - intros Hi. now apply kill_spared with (c := c).
Qed.

Lemma sacrifice_and_exile_witness :
  let g := state_after (draw 1 ;; play Sample.reversing (Obj 0))
             (Sample.loaded [Sample.myr]) in
  exists cg ce f1,
    list_remove 0 (field g) = Some f1
    /\ sacrifice (Obj 0) g
       = (taken_state Lgrave 0 cg
            (contains Card.TOKEN (Card.__type (Sample.played Sample.myr))) f1 g, Ok tt)
    /\ exile (Obj 0) g
       = (taken_state Lexiled 0 ce
            (contains Card.TOKEN (Card.__type (Sample.played Sample.myr))) f1 g, Ok tt)
    /\ (indestructible (Sample.played Sample.myr) = true -> kill (Obj 0) g = (g, Ok tt))
    /\ Card.zone cg = (if Card.commander (Sample.played Sample.myr)
                       then Card.COMMAND else Card.GRAVEYARD)
    /\ Card.zone ce = (if Card.commander (Sample.played Sample.myr)
                       then Card.COMMAND else Card.EXILE)
    /\ Card.tapped cg = false /\ Card.tapped ce = false.
Proof.
  apply (sacrifice_and_exile_take_any_card 0 (Sample.played Sample.myr)
           (state_after (draw 1 ;; play Sample.reversing (Obj 0))
              (Sample.loaded [Sample.myr])));
    vm_compute; auto.
Defined.

(* ------------------------------------------------------------------- *)
(** *** Anthems *)

Lemma resetAnthem_twice (c : Card.t) :
  Card.resetAnthem (Card.resetAnthem c) = Card.resetAnthem c.
Proof. now destruct c. Qed.

Lemma same_frame_field (g g1 : Game) :
  set_heap [] g1 = set_heap [] g -> field g1 = field g.
Proof. intros H. apply (f_equal field) in H. now destruct g, g1. Qed.

Lemma same_frame_heap (g g1 : Game) :
  set_heap [] g1 = set_heap [] g -> g1 = set_heap (heap g1) g.
Proof. intros H. destruct g, g1; cbn in *. now injection H as -> -> -> -> -> -> -> -> -> -> -> -> -> -> -> -> -> -> -> ->. Qed.

Lemma anthem_only_refl (g : Game) : anthem_only g g.
Proof. repeat split. intros r. now left. Qed.

Lemma anthem_only_trans (g1 g2 g3 : Game) :
  anthem_only g1 g2 -> anthem_only g2 g3 -> anthem_only g1 g3.
Proof.
  intros (Hf1 & Hl1 & H1) (Hf2 & Hl2 & H2).
  split; [congruence|]. split; [congruence|].
  intros r. pose proof (same_frame_field _ _ Hf1) as Hfield.
  destruct (H2 r) as [E2|(Hin2 & c2 & c3 & Hc2 & Hc3 & Hr2)];
    destruct (H1 r) as [E1|(Hin1 & c1 & c2' & Hc1 & Hc2' & Hr1)].
  - left. congruence.
  - right. split; [exact Hin1|]. exists c1, c2'. repeat split; congruence.
  - right. split; [now rewrite <- Hfield|]. exists c2, c3. repeat split; congruence.
  - right. split; [exact Hin1|]. exists c1, c3. repeat split; try assumption.
    assert (c2 = c2') as -> by congruence. congruence.
Qed.

(** The relation the second loop of [applyAnthems] respects, on a
    battlefield [f]. *)
Section AnthemWrites.

Variable f : list ref.

Let R (g g1 : Game) : Prop := field g = f -> anthem_only g g1.

Lemma writes_refl (g : Game) : R g g.
Proof. intros _. apply anthem_only_refl. Qed.

Lemma writes_trans (g1 g2 g3 : Game) : R g1 g2 -> R g2 g3 -> R g1 g3.
Proof.
  intros H1 H2 Hf. specialize (H1 Hf).
  eapply anthem_only_trans; [exact H1|]. apply H2.
  destruct H1 as (Hframe & _). rewrite (same_frame_field _ _ Hframe). exact Hf.
Qed.

Lemma keeps_bonus (thing : ref) (F : Card.t -> Card.t) :
  In thing f -> (forall c, Card.resetAnthem (F c) = Card.resetAnthem c) ->
  keeps R (call thing F).
Proof.
  intros Hin HF g Hf. unfold call, bind, deref, store, modify.
  destruct (heap g !! thing) as [c|] eqn:Hc; cbn [fst]; [|apply anthem_only_refl].
  pose proof (lookup_lt_Some _ _ _ Hc) as Hlt.
  split; [now destruct g|]. split; [destruct g; cbn; apply length_insert|].
  intros r. replace (heap (set_heap (<[thing:=F c]> (heap g)) g))
    with (<[thing:=F c]> (heap g)) by now destruct g.
  destruct (Nat.eq_dec r thing) as [->|Hne].
  - right. split; [now rewrite Hf|]. exists c, (F c).
    repeat split; [exact Hc|now apply list_lookup_insert_eq|apply HF].
  - left. now apply list_lookup_insert_ne.
Qed.

Lemma keeps_affected (type : string) (thing : ref) : keeps R (affected type thing).
Proof.
  unfold affected.
  repeat (apply (keeps_bind R writes_trans); [apply (keeps_query R writes_refl writes_trans)|intros ?]).
  apply (keeps_ret R writes_refl).
Qed.

Lemma keeps_anthem_types (types : list string) (thing : ref)
      (p t : option Z) (kws : list string) :
  In thing f -> keeps R (anthem_types types thing p t kws).
Proof.
  intros Hin. induction types as [|type rest IH]; cbn [anthem_types].
  - apply (keeps_ret R writes_refl).
  - apply (keeps_bind R writes_trans); [apply keeps_affected|intros hit].
    destruct hit; [|exact IH].
    destruct p as [p|]; [|apply (keeps_ret R writes_refl)].
    apply (keeps_bind R writes_trans);
      [apply keeps_bonus; [exact Hin|intros c; now destruct c]|intros _].
    destruct t as [t|]; [|apply (keeps_ret R writes_refl)].
    apply (keeps_bind R writes_trans);
      [apply keeps_bonus; [exact Hin|intros c; now destruct c]|intros _].
    apply (keeps_bind R writes_trans);
      [apply keeps_bonus; [exact Hin|intros c; now destruct c]|intros _].
    apply (keeps_ret R writes_refl).
Qed.

Lemma keeps_for_each_checked {A : Type} (l : list A) (body : A -> M (checked unit)) :
  (forall x, In x l -> keeps R (body x)) -> keeps R (for_each_checked l body).
Proof.
  induction l as [|x l IH]; intros H; cbn [for_each_checked].
  - apply (keeps_ret R writes_refl).
  - apply (keeps_bind R writes_trans); [apply H; now left|intros r].
    destruct r; [apply IH; intros y Hy; apply H; now right|apply (keeps_ret R writes_refl)].
Qed.

Lemma keeps_gets_field {A : Type} (k : list ref -> M A) :
  keeps R (k f) -> keeps R (bind (gets field) k).
Proof.
  intros Hk g Hf. unfold bind, gets. rewrite Hf. now apply Hk.
Qed.

Lemma keeps_anthem (card : ref) : keeps R (anthem card).
Proof.
  unfold anthem.
  repeat (apply (keeps_bind R writes_trans); [apply (keeps_query R writes_refl writes_trans)|intros ?]).
  apply keeps_gets_field. apply keeps_for_each_checked. intros thing Hin.
  destruct a as [types|]; [|apply (keeps_ret R writes_refl)].
  destruct (str_in "Other" types && Nat.eqb thing card);
    [apply (keeps_ret R writes_refl)|now apply keeps_anthem_types].
Qed.

Lemma keeps_second_loop :
  keeps R (for_each_checked f (fun card =>
             a <- query card Card.anthem ;;
             if a then anthem card else ret (Fine tt))).
Proof.
  apply keeps_for_each_checked. intros card _.
  apply (keeps_bind R writes_trans); [apply (keeps_query R writes_refl writes_trans)|intros a].
  destruct a; [apply keeps_anthem|apply (keeps_ret R writes_refl)].
Qed.

End AnthemWrites.

Lemma call_unallocated {B : Type} (r : ref) (F : Card.t -> Card.t) (k : unit -> M B)
      (g : Game) :
  heap g !! r = None -> bind (call r F) k g = (g, Raise Unallocated).
Proof. intros H. unfold bind, call, bind, deref. now rewrite H. Qed.

(** The first loop of [applyAnthems]. *)
Lemma reset_loop_fixed (l : list ref) : forall g g1 o x c,
  for_each l (fun card => call card Card.resetAnthem) g = (g1, o) ->
  heap g !! x = Some c -> Card.resetAnthem c = c ->
  heap g1 !! x = Some c.
Proof.
  induction l as [|y l IH]; intros g g1 o x c Hrun Hc Hfix; cbn [for_each] in Hrun.
  - unfold ret in Hrun. now injection Hrun as <- _.
  - destruct (heap g !! y) as [cy|] eqn:Hy.
    + rewrite (bind_run _ _ _ _ _ (call_run y _ cy g Hy)) in Hrun.
      eapply IH; [exact Hrun| |exact Hfix].
      replace (heap (set_heap (<[y:=Card.resetAnthem cy]> (heap g)) g))
        with (<[y:=Card.resetAnthem cy]> (heap g)) by now destruct g.
      destruct (Nat.eq_dec x y) as [->|Hne].
      * assert (Some cy = Some c) as E
          by (etransitivity; [symmetry; exact Hy|exact Hc]).
        injection E as ->. rewrite Hfix.
        apply list_lookup_insert_eq. eapply lookup_lt_Some. exact Hc.
      * now rewrite list_lookup_insert_ne by congruence.
    + rewrite (call_unallocated _ _ _ _ Hy) in Hrun.
      now injection Hrun as <- _.
Qed.

Lemma reset_loop_again (l : list ref) : forall g g1 o,
  for_each l (fun card => call card Card.resetAnthem) g = (g1, o) ->
  for_each l (fun card => call card Card.resetAnthem) g1 = (g1, o).
Proof.
  induction l as [|y l IH]; intros g g1 o Hrun; cbn [for_each] in *.
  - unfold ret in *. now injection Hrun as <- <-.
  - destruct (heap g !! y) as [cy|] eqn:Hy.
    + rewrite (bind_run _ _ _ _ _ (call_run y _ cy g Hy)) in Hrun.
      assert (heap g1 !! y = Some (Card.resetAnthem cy)) as Hy1.
      { eapply reset_loop_fixed; [exact Hrun| |apply resetAnthem_twice].
        destruct g; cbn. apply list_lookup_insert_eq.
        eapply lookup_lt_Some. exact Hy. }
      rewrite (bind_run _ _ g1 g1 tt).
      * eapply IH. exact Hrun.
      * rewrite (call_run y _ _ g1 Hy1), resetAnthem_twice.
        now rewrite set_heap_same.
    + rewrite (call_unallocated _ _ _ _ Hy) in Hrun.
      injection Hrun as <- <-. now apply call_unallocated.
Qed.

Lemma reset_loop_allocated (l : list ref) : forall g g1,
  for_each l (fun card => call card Card.resetAnthem) g = (g1, Ok tt) ->
  length (heap g1) = length (heap g)
  /\ forall r, In r l -> (r < length (heap g))%nat.
Proof.
  induction l as [|y l IH]; intros g g1 Hrun; cbn [for_each] in Hrun.
  - unfold ret in Hrun. injection Hrun as <-. split; [reflexivity|contradiction].
  - destruct (heap g !! y) as [cy|] eqn:Hy;
      [|rewrite (call_unallocated _ _ _ _ Hy) in Hrun; discriminate].
    rewrite (bind_run _ _ _ _ _ (call_run y _ cy g Hy)) in Hrun.
    apply IH in Hrun as [Hlen Hall].
    replace (heap (set_heap (<[y:=Card.resetAnthem cy]> (heap g)) g))
      with (<[y:=Card.resetAnthem cy]> (heap g)) in * by now destruct g.
    rewrite length_insert in *. split; [exact Hlen|].
    intros r [<-|Hr]; [eapply lookup_lt_Some; exact Hy|now apply Hall].
Qed.

(** After the second loop, the first loop gives back the state it had
    left. *)
Lemma reset_loop_restores (g g1 g2 : Game) :
  for_each (field g) (fun card => call card Card.resetAnthem) g = (g1, Ok tt) ->
  anthem_only g1 g2 ->
  for_each (field g) (fun card => call card Card.resetAnthem) g2 = (g1, Ok tt).
Proof.
  intros Hrun (Hframe & Hlen & Hcards).
  destruct (reset_loop_allocated _ _ _ Hrun) as [Hlen1 Halloc].
  assert (forall r, In r (field g) -> exists c, heap g !! r = Some c /\ True) as Hpre.
  { intros r Hr. destruct (lookup_lt_is_Some_2 (heap g) r (Halloc r Hr)) as [c Hc]. eauto. }
  destruct (for_each_alter Card.resetAnthem (fun _ => True)
              (fun card => call card Card.resetAnthem)
              ltac:(auto) ltac:(intros r g0 c Hc _; now apply call_run)
              (field g) g (or_intror resetAnthem_twice) Hpre) as (h1 & Hrun1 & Hh1).
  rewrite Hrun in Hrun1. injection Hrun1 as ->.
  assert (heap (set_heap h1 g) = h1) as Eh1 by now destruct g.
  assert (field (set_heap h1 g) = field g) as Ef1 by now destruct g.
  assert (forall r, In r (field g) -> exists c, heap g2 !! r = Some c /\ True) as Hpre2.
  { intros r Hr.
    destruct (lookup_lt_is_Some_2 (heap g2) r) as [c Hc]; [|eauto].
    rewrite Hlen, Hlen1. now apply Halloc. }
  destruct (for_each_alter Card.resetAnthem (fun _ => True)
              (fun card => call card Card.resetAnthem)
              ltac:(auto) ltac:(intros r g0 c Hc _; now apply call_run)
              (field g) g2 (or_intror resetAnthem_twice) Hpre2) as (h2 & Hrun2 & Hh2).
  rewrite Hrun2. f_equal.
  assert (h2 = h1) as ->.
  { assert (length h2 = length (heap g2)) as Hl2.
    { apply (f_equal fst) in Hrun2. cbn [fst] in Hrun2.
      assert (keeps (fun a b => length (heap b) = length (heap a))
                (for_each (field g) (fun card => call card Card.resetAnthem))) as Hk.
      { apply keeps_for_each; [reflexivity|intros; congruence|].
        intros x a. unfold call, bind, deref, store, modify.
        destruct (heap a !! x); cbn [fst]; [|reflexivity].
        destruct a; cbn. apply length_insert. }
      specialize (Hk g2). rewrite Hrun2 in Hk. now destruct g2. }
    apply list_eq. intros r.
    destruct (heap g !! r) as [c|] eqn:Hc.
    - pose proof (Hh1 r c Hc) as E1.
      destruct (Hcards r) as [E|(Hin & c1 & c2 & Hc1 & Hc2 & Hr)].
      + assert (heap g2 !! r
                = Some (if ref_in r (field g) then Card.resetAnthem c else c)) as E2.
        { etransitivity; [exact E|]. rewrite Eh1. exact E1. }
        etransitivity; [exact (Hh2 r _ E2)|]. etransitivity; [|symmetry; exact E1].
        destruct (ref_in r (field g)); [now rewrite resetAnthem_twice|reflexivity].
      + rewrite Ef1 in Hin.
        assert (Some c1 = Some (if ref_in r (field g) then Card.resetAnthem c else c)) as E3.
        { etransitivity; [symmetry; exact Hc1|]. rewrite Eh1. exact E1. }
        injection E3 as ->. rewrite (ref_in_In r _ Hin) in *.
        etransitivity; [exact (Hh2 r c2 Hc2)|]. etransitivity; [|symmetry; exact E1].
        rewrite (ref_in_In r _ Hin). now rewrite Hr, resetAnthem_twice.
    - apply lookup_ge_None in Hc.
      etransitivity; [apply lookup_ge_None; lia|].
      symmetry. apply lookup_ge_None.
      assert (length h1 = length (heap g)) as Hl1
        by (etransitivity; [|exact Hlen1]; now rewrite Eh1).
      lia. }
  rewrite (same_frame_heap _ _ Hframe).
  replace (heap (set_heap h1 g)) with h1 in * by now destruct g.
  now destruct g.
Qed.

Lemma reset_loop_field (l : list ref) (g g1 : Game) (o : result unit) :
  for_each l (fun card => call card Card.resetAnthem) g = (g1, o) -> field g1 = field g.
Proof.
  intros Hrun.
  assert (keeps (fun a b => field b = field a)
            (for_each l (fun card => call card Card.resetAnthem))) as Hk.
  { apply keeps_for_each; [reflexivity|intros; congruence|].
    intros x. apply keeps_call; [reflexivity|intros; congruence|].
    intros a h. now destruct a. }
  specialize (Hk g). now rewrite Hrun in Hk.
Qed.

Lemma applyAnthems_runs (g : Game) :
  applyAnthems g
  = match for_each (field g) (fun card => call card Card.resetAnthem) g with
    | (g1, Ok _) =>
        for_each_checked (field g)
          (fun card => a <- query card Card.anthem ;;
                       if a then anthem card else ret (Fine tt)) g1
    | (g1, Raise e) => (g1, Raise e)
    end.
Proof.
  unfold applyAnthems. rewrite (bind_run _ _ g g (field g) eq_refl).
  unfold bind at 1.
  destruct (for_each (field g) (fun card => call card Card.resetAnthem) g)
    as [g1 [[]|e]] eqn:Hrun; [|reflexivity].
  rewrite (bind_run _ _ g1 g1 (field g)); [reflexivity|].
  unfold gets. now rewrite (reset_loop_field _ _ _ _ Hrun).
Qed.

(** The [TypeError] of [anthem] is out of reach from [applyAnthems]. *)
Lemma for_each_checked_fine {A : Type} (l : list A) (body : A -> M (checked unit)) :
  (forall x g g1 r, body x g = (g1, Ok r) -> r = Fine tt) ->
  forall g g1 r, for_each_checked l body g = (g1, Ok r) -> r = Fine tt.
Proof.
  intros Hbody. induction l as [|x l IH]; intros g g1 r H; cbn [for_each_checked] in H.
  - apply ret_ok in H as [_ ->]. reflexivity.
  - apply bind_ok in H as (rx & g2 & Hx & H).
    apply Hbody in Hx as ->. eapply IH. exact H.
Qed.

Lemma anthem_types_fine (types : list string) (thing : ref) (p t : Z)
      (kws : list string) :
  forall g g1 r,
    anthem_types types thing (Some p) (Some t) kws g = (g1, Ok r) -> r = Fine tt.
Proof.
  induction types as [|type rest IH]; intros g g1 r H; cbn [anthem_types] in H.
  - apply ret_ok in H as [_ ->]. reflexivity.
  - apply bind_ok in H as (hit & g2 & _ & H).
    destruct hit; [|eapply IH; exact H].
    apply bind_ok in H as (u1 & g3 & _ & H).
    apply bind_ok in H as (u2 & g4 & _ & H).
    apply bind_ok in H as (u3 & g5 & _ & H).
    apply ret_ok in H as [_ ->]. reflexivity.
Qed.

Lemma anthem_fine (card : ref) (g g1 g2 : Game) (r : checked unit) :
  query card Card.anthem g = (g1, Ok true) ->
  anthem card g1 = (g2, Ok r) -> r = Fine tt.
Proof.
  intros Ha H. apply query_ok in Ha as (-> & c & Hc & Hanthem).
  unfold anthem in H.
  apply bind_ok in H as (ty & g3 & Hty & H).
  apply query_ok in Hty as (-> & c1 & Hc1 & Hty).
  apply bind_ok in H as (p & g3 & Hp & H).
  apply query_ok in Hp as (-> & c2 & Hc2 & Hp).
  apply bind_ok in H as (t & g3 & Ht & H).
  apply query_ok in Ht as (-> & c3 & Hc3 & Ht).
  apply bind_ok in H as (kws & g3 & Hk & H).
  apply query_ok in Hk as (-> & _).
  apply bind_ok in H as (f & g3 & Hf & H).
  apply gets_ok in Hf as (-> & ->).
  assert (c1 = c) as -> by congruence.
  assert (c2 = c) as -> by congruence.
  assert (c3 = c) as -> by congruence.
  unfold Card.anthemType, Card.anthemPower, Card.anthemToughness in *.
  rewrite Hanthem in *. cbn [rbind] in *.
  assert (exists types, ty = Some types) as [types ->].
  { destruct (Card.flipped c); [|injection Hty as <-; eauto].
    destruct (Card.back_attr Card.__anthemType c); [|discriminate].
    cbn [rbind] in Hty. injection Hty as <-. eauto. }
  assert (exists pv, p = Some pv) as [pv ->].
  { destruct (Card.flipped c); [|injection Hp as <-; eauto].
    destruct (Card.back_attr Card.__anthemPower c); [|discriminate].
    cbn [rbind] in Hp. injection Hp as <-. eauto. }
  assert (exists tv, t = Some tv) as [tv ->].
  { destruct (Card.flipped c); [|injection Ht as <-; eauto].
    destruct (Card.back_attr Card.__anthemToughness c); [|discriminate].
    cbn [rbind] in Ht. injection Ht as <-. eauto. }
  eapply for_each_checked_fine; [|exact H].
  intros thing ga gb rb Hb. cbv beta iota in Hb.
  destruct (str_in "Other" types && Nat.eqb thing card).
  - apply ret_ok in Hb as [_ ->]. reflexivity.
  - eapply anthem_types_fine. exact Hb.
Qed.

(** X26: applying the anthems twice is the same as applying them
    once: run on the state it has left, [applyAnthems] leaves that
    state as it is and ends the same way. What it writes are the
    anthem bonuses of cards of the battlefield and nothing else, and
    it never meets the [TypeError] that [anthem] raises on a card
    without anthem. *)
Theorem applyAnthems_is_idempotent (g : Game) :
  applyAnthems (state_after applyAnthems g) = applyAnthems g
  /\ (outcome applyAnthems g = Ok (Fine tt)
      \/ exists e, outcome applyAnthems g = Raise e)
  /\ (outcome applyAnthems g = Ok (Fine tt) ->
      exists g1, anthem_only g1 (state_after applyAnthems g)
                 /\ for_each (field g) (fun card => call card Card.resetAnthem) g
                    = (g1, Ok tt)).
Proof.
  unfold state_after, outcome.
  pose proof (applyAnthems_runs g) as Hg.
  destruct (for_each (field g) (fun card => call card Card.resetAnthem) g)
    as [g1 [[]|e]] eqn:Hrun.
  - pose proof (reset_loop_field _ _ _ _ Hrun) as Hf1.
    pose proof (keeps_second_loop (field g) g1 Hf1) as Hkeep.
    rewrite <- Hg in Hkeep.
    destruct (applyAnthems g) as [g2 o2] eqn:Hrun2. cbn [fst snd] in *.
    pose proof (same_frame_field _ _ (proj1 Hkeep)) as Hf2.
    split; [|split].
    + rewrite applyAnthems_runs. rewrite Hf2, Hf1.
      rewrite (reset_loop_restores g g1 g2 Hrun Hkeep). symmetry. exact Hg.
    + destruct o2 as [r|e]; [left|right; eauto].
      f_equal. symmetry in Hg.
      eapply for_each_checked_fine; [|exact Hg].
      intros card ga gb rb Hb.
      apply bind_ok in Hb as (a & gc & Ha & Hb).
      destruct a.
      * eapply anthem_fine; eassumption.
      * apply ret_ok in Hb as [_ ->]. reflexivity.
    + intros _. exists g1. split; [exact Hkeep|reflexivity].
  - rewrite Hg. cbn [fst snd].
    split; [|split; [right; eauto|discriminate]].
    rewrite applyAnthems_runs.
    rewrite (reset_loop_field _ _ _ _ Hrun).
    now rewrite (reset_loop_again _ _ _ _ Hrun).
Qed.

(* ------------------------------------------------------------------- *)
(** *** Combat *)

Lemma tap_keeps_power (c : Card.t) : Card.power (Card.tap c) = Card.power c.
Proof. unfold Card.tap. destruct (decide _); now destruct c. Qed.

Lemma tap_keeps_keywords (c : Card.t) : Card.keywords (Card.tap c) = Card.keywords c.
Proof. unfold Card.tap. destruct (decide _); now destruct c. Qed.

Lemma tap_twice (c : Card.t) : Card.tap (Card.tap c) = Card.tap c.
Proof.
  unfold Card.tap. destruct (decide (Card.__zone c = Card.BATTLEFIELD)) as [Hz|Hz].
  - destruct (decide _) as [|Hn]; [now destruct c|].
    exfalso. apply Hn. now destruct c.
  - destruct (decide (Card.__zone c = Card.BATTLEFIELD)); [contradiction|reflexivity].
Qed.

(** Tapping an attacker does not change what the others, or itself
    again, deal. *)
Lemma blow_tapped (g : Game) (x : ref) (c : Card.t) (totals : Z * Z * Z) (r : ref) :
  heap g !! x = Some c ->
  blow (set_heap (<[x := Card.tap c]> (heap g)) g) totals r = blow g totals r.
Proof.
  intros Hc. unfold blow.
  replace (heap (set_heap (<[x := Card.tap c]> (heap g)) g))
    with (<[x := Card.tap c]> (heap g)) by now destruct g.
  replace (is_commander r (set_heap (<[x := Card.tap c]> (heap g)) g))
    with (is_commander r g) by now destruct g.
  destruct (Nat.eq_dec r x) as [->|Hne].
  - rewrite list_lookup_insert_eq by (eapply lookup_lt_Some; exact Hc).
    replace (heap g !! x) with (Some c) by (symmetry; exact Hc).
    now rewrite tap_keeps_power, tap_keeps_keywords.
  - now rewrite list_lookup_insert_ne by congruence.
Qed.

Lemma combat_tapped (g : Game) (x : ref) (c : Card.t) (l : list ref) :
  heap g !! x = Some c ->
  forall totals,
    fold_left (blow (set_heap (<[x := Card.tap c]> (heap g)) g)) l totals
    = fold_left (blow g) l totals.
Proof.
  intros Hc. induction l as [|r l IH]; intros totals; [reflexivity|].
  cbn [fold_left]. now rewrite blow_tapped, IH.
Qed.

Lemma attack_loop_spec (attackers : list ref) : forall g total totalCommander poison,
  (forall r, In r attackers ->
     exists c p, heap g !! r = Some c /\ Card.power c = Ok (Some p)) ->
  exists h1,
    attack_loop attackers total totalCommander poison g
    = (set_heap h1 g,
       Ok (Fine (fold_left (blow g) attackers (total, totalCommander, poison))))
    /\ forall r c, heap g !! r = Some c ->
         h1 !! r = Some (if ref_in r attackers
                            && negb (str_in Card.VIGILANCE (Card.keywords c))
                         then Card.tap c else c).
Proof.
  induction attackers as [|x l IH]; intros g total totalCommander poison Hpre.
  - exists (heap g). split; [now destruct g|auto].
  - destruct (Hpre x (or_introl eq_refl)) as (c & p & Hc & Hp).
    pose proof (lookup_lt_Some _ _ _ Hc) as Hlt.
    set (g' := if negb (str_in Card.VIGILANCE (Card.keywords c))
               then set_heap (<[x := Card.tap c]> (heap g)) g else g).
    set (F := fun c0 : Card.t =>
                if negb (str_in Card.VIGILANCE (Card.keywords c0))
                then Card.tap c0 else c0).
    assert (heap g' = <[x := F c]> (heap g)) as Eh.
    { subst g' F. cbv beta.
      destruct (negb (str_in Card.VIGILANCE (Card.keywords c))).
      - now destruct g.
      - now rewrite list_insert_id. }
    assert (forall l0 totals, fold_left (blow g') l0 totals = fold_left (blow g) l0 totals)
      as Ecombat.
    { intros l0 totals. subst g'.
      destruct (negb (str_in Card.VIGILANCE (Card.keywords c))); [|reflexivity].
      now apply combat_tapped. }
    destruct (IH g' (fst (fst (blow g (total, totalCommander, poison) x)))
                (snd (fst (blow g (total, totalCommander, poison) x)))
                (snd (blow g (total, totalCommander, poison) x)))
      as (h1 & Hrun & Hheap).
    { intros r Hr. rewrite Eh. destruct (Nat.eq_dec r x) as [->|Hne].
      - exists (F c), p. split; [now apply list_lookup_insert_eq|].
        subst F. cbv beta.
        destruct (negb (str_in Card.VIGILANCE (Card.keywords c))); [|exact Hp].
        now rewrite tap_keeps_power.
      - destruct (Hpre r (or_intror Hr)) as (c' & p' & Hc' & Hp').
        exists c', p'. split; [|exact Hp'].
        now rewrite list_lookup_insert_ne by congruence. }
    exists h1. split.
    + cbn [attack_loop fold_left].
      rewrite (bind_run _ _ _ _ _ (query_run x Card.power g c (Some p) Hc Hp)).
      rewrite (bind_run _ _ _ _ _ (deref_run x c g Hc)).
      assert (blow g (total, totalCommander, poison) x
              = (let d := if str_in Card.DOUBLESTRIKE (Card.keywords c)
                          then (p + p)%Z else p in
                 if negb (str_in Card.INFECT (Card.keywords c)) then
                   if is_commander x g
                   then (total, (totalCommander + d)%Z, poison)
                   else ((total + d)%Z, totalCommander, poison)
                 else (total, totalCommander, (poison + d)%Z))) as Eblow.
      { unfold blow. replace (heap g !! x) with (Some c) by (symmetry; exact Hc).
        now rewrite Hp. }
      rewrite (bind_run _ _ g g
                 (Fine (Some (if str_in Card.DOUBLESTRIKE (Card.keywords c)
                              then (p + p)%Z else p)))).
      2: { destruct (str_in Card.DOUBLESTRIKE (Card.keywords c)); [|reflexivity].
           now rewrite (bind_run _ _ _ _ _ (query_run x Card.power g c (Some p) Hc Hp)). }
      cbv iota.
      rewrite (bind_run _ _ _ _ _ (deref_run x c g Hc)).
      rewrite (bind_run _ _ g g (is_commander x g) eq_refl).
      cbv zeta.
      assert (forall t0 tc0 p0,
                (c0 <- deref x ;;
                 when (negb (str_in Card.VIGILANCE (Card.keywords c0)))
                   (call x Card.tap) ;;
                 attack_loop l t0 tc0 p0) g
                = attack_loop l t0 tc0 p0 g') as Etail.
      { intros t0 tc0 p0.
        rewrite (bind_run _ _ _ _ _ (deref_run x c g Hc)).
        subst g'. destruct (negb (str_in Card.VIGILANCE (Card.keywords c))); cbn [when].
        - now rewrite (bind_run _ _ _ _ _ (call_run x Card.tap c g Hc)).
        - now rewrite (bind_run _ _ g g tt eq_refl). }
      rewrite Eblow in Hrun. rewrite Eblow. cbv zeta in *.
      destruct (negb (str_in Card.INFECT (Card.keywords c)));
        [destruct (is_commander x g)|];
        cbn [add_damage fst snd] in *; cbv iota; rewrite Etail, Hrun, Ecombat;
        subst g'; destruct (negb (str_in Card.VIGILANCE (Card.keywords c)));
        now destruct g.
    + intros r c0 Hc0. cbn [ref_in existsb].
      destruct (Nat.eqb_spec r x) as [->|Hne]; cbn [orb andb].
      * assert (Some c0 = Some c) as E
          by (etransitivity; [symmetry; exact Hc0|exact Hc]).
        injection E as ->.
        rewrite (Hheap x (F c)) by (rewrite Eh; now apply list_lookup_insert_eq).
        subst F. cbv beta.
        destruct (negb (str_in Card.VIGILANCE (Card.keywords c))) eqn:Ev.
        -- rewrite tap_keeps_keywords, Ev, andb_true_r, tap_twice.
           now destruct (ref_in x l).
        -- rewrite Ev. now rewrite andb_false_r.
      * apply Hheap. rewrite Eh. now rewrite list_lookup_insert_ne by congruence.
Qed.

Lemma modStat_life_runs (n : Z) (g : Game) :
  modStat "p2" "life" n g
  = (set_p1Win (p1Win g || (p2Life g + n <=? 0)%Z) (set_p2Life (p2Life g + n)%Z g), Ok tt).
Proof.
  unfold modStat.
  repeat match goal with
         | |- context [String.eqb ?a ?b] =>
             let v := eval vm_compute in (String.eqb a b) in
             change (String.eqb a b) with v
         end.
  cbv iota. unfold when, bind, modify, gets, ret. destruct g; cbn.
  destruct (_ <=? 0)%Z; cbn; now rewrite ?orb_true_r, ?orb_false_r.
Qed.

Lemma modStat_poison_runs (n : Z) (g : Game) :
  modStat "p2" "poison" n g
  = (set_p1Win (p1Win g || (10 <=? p2Poison g + n)%Z) (set_p2Poison (p2Poison g + n)%Z g),
     Ok tt).
Proof.
  unfold modStat.
  repeat match goal with
         | |- context [String.eqb ?a ?b] =>
             let v := eval vm_compute in (String.eqb a b) in
             change (String.eqb a b) with v
         end.
  cbv iota. unfold when, bind, modify, gets, ret. destruct g; cbn.
  destruct (10 <=? _)%Z; cbn; now rewrite ?orb_true_r, ?orb_false_r.
Qed.

Lemma modStat_commander_runs (n : Z) (g : Game) :
  modStat "p2" "commander" n g
  = (set_p1Win (p1Win g || (20 <? p2Commander g + n)%Z)
       (set_p2Life (p2Life g - n)%Z (set_p2Commander (p2Commander g + n)%Z g)),
     Ok tt).
Proof.
  unfold modStat.
  repeat match goal with
         | |- context [String.eqb ?a ?b] =>
             let v := eval vm_compute in (String.eqb a b) in
             change (String.eqb a b) with v
         end.
  cbv iota. unfold when, bind, modify, gets, ret. destruct g; cbn.
  destruct (20 <? _)%Z; cbn; now rewrite ?orb_true_r, ?orb_false_r.
Qed.

(** X27: an attack with cards that all report a power succeeds
    and never meets a [TypeError]. Each attacker without Vigilance is
    tapped. Player two loses the plain total and the commander total
    in life, gets the poison total in poison counters and the
    commander total in commander damage, and player one's win flag is
    set when the life left after the plain total alone is 0 or less,
    when the poison reaches 10 or when the commander damage passes 20:
    the life taken by the commander total is not tested. Nothing else
    is written. *)
Theorem attack_deals_combat_damage (attackers : list ref) (g : Game) :
  (forall r, In r attackers ->
     exists c p, heap g !! r = Some c /\ Card.power c = Ok (Some p)) ->
  exists h1,
    attack attackers g
    = (let '(total, totalCommander, poison) := combat g attackers in
       set_p1Win (p1Win g || (p2Life g - total <=? 0)%Z
                  || (10 <=? p2Poison g + poison)%Z
                  || (20 <? p2Commander g + totalCommander)%Z)
         (set_p2Commander (p2Commander g + totalCommander)%Z
            (set_p2Poison (p2Poison g + poison)%Z
               (set_p2Life (p2Life g - total - totalCommander)%Z (set_heap h1 g)))),
       Ok (Fine tt))
    /\ forall r c, heap g !! r = Some c ->
         h1 !! r = Some (if ref_in r attackers
                            && negb (str_in Card.VIGILANCE (Card.keywords c))
                         then Card.tap c else c).
Proof.
  intros Hpre.
  destruct (attack_loop_spec attackers g 0 0 0 Hpre) as (h1 & Hrun & Hheap).
  exists h1. split; [|exact Hheap].
  unfold attack. rewrite (bind_run _ _ _ _ _ Hrun).
  fold (combat g attackers).
  destruct (combat g attackers) as [[total totalCommander] poison].
  rewrite (bind_run _ _ _ _ _ (modStat_life_runs _ _)).
  rewrite (bind_run _ _ _ _ _ (modStat_poison_runs _ _)).
  rewrite (bind_run _ _ _ _ _ (modStat_commander_runs _ _)).
  unfold ret. f_equal.
  destruct g; cbn.
  replace (p2Life0 + -1 * total)%Z with (p2Life0 - total)%Z by lia.
  reflexivity.
Qed.

Lemma attack_deals_witness :
  let g := state_after (draw 2 ;; play Sample.reversing (Obj 0)
                        ;; play Sample.reversing (Obj 1))
             (Sample.loaded [Sample.bears; Sample.guide]) in
  exists h1,
    attack [0%nat; 1%nat] g
    = (let '(total, totalCommander, poison) := combat g [0%nat; 1%nat] in
       set_p1Win (p1Win g || (p2Life g - total <=? 0)%Z
                  || (10 <=? p2Poison g + poison)%Z
                  || (20 <? p2Commander g + totalCommander)%Z)
         (set_p2Commander (p2Commander g + totalCommander)%Z
            (set_p2Poison (p2Poison g + poison)%Z
               (set_p2Life (p2Life g - total - totalCommander)%Z (set_heap h1 g)))),
       Ok (Fine tt))
    /\ forall r c, heap g !! r = Some c ->
         h1 !! r = Some (if ref_in r [0%nat; 1%nat]
                            && negb (str_in Card.VIGILANCE (Card.keywords c))
                         then Card.tap c else c).
Proof.
  apply (attack_deals_combat_damage [0%nat; 1%nat]
           (state_after (draw 2 ;; play Sample.reversing (Obj 0)
                         ;; play Sample.reversing (Obj 1))
              (Sample.loaded [Sample.bears; Sample.guide]))).
  intros r Hr. cbn [In] in Hr.
  destruct Hr as [<-|[<-|[]]]; eexists; eexists; split; reflexivity.
Defined.
